(** * ESM2 contact-prediction notebook: a shallow embedding

    The notebook [acids_classification.ipynb] is a linear script.  The cells
    modelled here are

    - the reading of the id list         (cell 5)
    - [download_pdb_files]               (cell 8)
    - [extract_sequence_and_contacts]    (cell 11) and the loading loop (cell 12)
    - the splitting cell                 (cell 15)
    - [ProteinDataset.__getitem__]       (cell 17)
    - [ContactPredictionModel.forward]   (cell 20)
    - [find_similar_structures]          (cell 25)

    Conventions.
    - A Python [float] and a numpy [float64] are Rocq's primitive binary64
      [float]; their arithmetic is the IEEE-754 one, bit for bit.
    - A numpy [float32] is a [spec_float] used at precision 24 and maximal
      exponent 128.
    - A Python [str] is a [string]; a Python list is a [list]; a 2-d array is a
      list of rows.
    - A call that may raise returns a [result]; code that prints or touches the
      file system runs in the monad [M] over a [World]. *)

From Stdlib Require Import ZArith Floats Uint63 Ascii String Lia.
From stdpp Require Import base option list strings pretty gmap.

Local Open Scope string_scope.
Local Open Scope list_scope.
Local Open Scope Z_scope.

(** ** Exceptions *)

(** The exception classes the notebook's handlers tell apart, and the ones the
    modelled library calls raise.  [HTTPError] is a subclass of
    [RequestException]; every class below derives from [Exception]. *)
Inductive exn : Type :=
| RequestException (msg : string)
| HTTPError (msg : string)
| OSError (msg : string)
| KeyError (msg : string)
| ZeroDivisionError (msg : string)
| ValueError (msg : string)
| RuntimeError (msg : string)
| IndexError (msg : string)
| AssertionError (msg : string)
| OtherException (msg : string).

(** [isinstance(e, requests.exceptions.RequestException)] *)
Definition is_RequestException (e : exn) : bool :=
  match e with
  | RequestException _ | HTTPError _ => true
  | _ => false
  end.

(** [isinstance(e, KeyError)] *)
Definition is_KeyError (e : exn) : bool :=
  match e with
  | KeyError _ => true
  | _ => false
  end.

(** [str(e)] *)
Definition exn_str (e : exn) : string :=
  match e with
  | RequestException m | HTTPError m | OSError m | KeyError m
  | ZeroDivisionError m | ValueError m | RuntimeError m | IndexError m
  | AssertionError m | OtherException m => m
  end.

Inductive result (A : Type) : Type :=
| Ok (a : A)
| Raise (e : exn).
Arguments Ok {A} a.
Arguments Raise {A} e.

Definition is_Ok {A} (r : result A) : bool :=
  match r with Ok _ => true | Raise _ => false end.

(** ** The world: files and standard output *)

Record World : Type := mkWorld {
  files : gmap string string;          (* regular files: path to text *)
  fs_error : string -> option string;   (* the message of the OSError that
                                           creating or writing this path
                                           raises, if any *)
  stdout : list string                  (* the lines printed so far *)
}.

Definition M (A : Type) : Type := World -> result A * World.

Definition ret {A} (a : A) : M A := fun w => (Ok a, w).
Definition raise {A} (e : exn) : M A := fun w => (Raise e, w).
Definition bind {A B} (m : M A) (k : A -> M B) : M B :=
  fun w => match m w with
           | (Ok a, w') => k a w'
           | (Raise e, w') => (Raise e, w')
           end.
Definition lift {A} (r : result A) : M A := fun w => (r, w).

(** [try: body  except <class> as e: handler e], the class given by [catches] *)
Definition try_except {A} (body : M A) (catches : exn -> bool) (handler : exn -> M A) : M A :=
  fun w => match body w with
           | (Ok a, w') => (Ok a, w')
           | (Raise e, w') => if catches e then handler e w' else (Raise e, w')
           end.

Declare Scope py_scope.
Delimit Scope py_scope with py.
Notation "x <- m ;; k" := (bind m (fun x => k))
  (at level 100, m at next level, right associativity) : py_scope.
Notation "m ;;; k" := (bind m (fun _ => k))
  (at level 100, right associativity) : py_scope.
Local Open Scope py_scope.

Definition py_print (line : string) : M unit :=
  fun w => (Ok tt, mkWorld (files w) (fs_error w) (stdout w ++ [line])).

(** [os.path.exists(path)] *)
Definition os_path_exists (path : string) : M bool :=
  fun w => (Ok (bool_decide (is_Some (files w !! path))), w).

(** [with open(path, 'w') as f: f.write(text)] *)
Definition write_file (path text : string) : M unit :=
  fun w => match fs_error w path with
           | Some msg => (Raise (OSError msg), w)
           | None => (Ok tt, mkWorld (<[path := text]> (files w)) (fs_error w) (stdout w))
           end.

(** [os.makedirs(path, exist_ok=True)]; directories are not recorded in
    [files], only whether the call fails. *)
Definition os_makedirs (path : string) : M unit :=
  fun w => match fs_error w path with
           | Some msg => (Raise (OSError msg), w)
           | None => (Ok tt, w)
           end.

(** [os.path.join(dir, name)] for a relative [name] and a [dir] that does not
    end with a slash. *)
Definition os_path_join (dir name : string) : string := dir +:+ "/" +:+ name.

(** ** Numbers *)

(** [float(n)] for a Python int [0 <= n < 2^63], the range of a length. *)
Definition float_of_nat (n : nat) : float := of_uint63 (Uint63.of_Z (Z.of_nat n)).

(** [int(x)]: truncation towards zero; Python raises on infinities and NaN. *)
Definition py_int (x : float) : result Z :=
  match Prim2SF x with
  | S754_zero _ => Ok 0
  | S754_finite s m e =>
      let a := if 0 <=? e then Z.shiftl (Zpos m) e else Z.shiftr (Zpos m) (- e) in
      Ok (if s then - a else a)
  | S754_infinity _ => Raise (OtherException "cannot convert float infinity to integer")
  | S754_nan => Raise (ValueError "cannot convert float NaN to integer")
  end.

(** numpy [float32] values. *)
Definition float32 : Type := spec_float.
Definition f32_zero : float32 := S754_zero false.
Definition f32_one : float32 := S754_finite false 8388608 (-23).
Definition f32_add : float32 -> float32 -> float32 := SFadd 24 128.
Definition f32_div : float32 -> float32 -> float32 := SFdiv 24 128.
Definition f32_of_nat (n : nat) : float32 := binary_normalize 24 128 (Z.of_nat n) 0 false.

(** [b.astype(np.float32)] for a numpy bool. *)
Definition astype_float32 (b : bool) : float32 := if b then f32_one else f32_zero.

(** ** Arrays *)

(** A 2-d array as the list of its rows; [shape] reads the number of columns
    off the first row (an array with no row has shape (0, 0) here). *)
Abbreviation matrix A := (list (list A)).

Definition shape {A} (m : matrix A) : nat * nat :=
  (length m, match m with [] => 0%nat | row :: _ => length row end).

(** Every row has [c] entries and there are [r] rows. *)
Definition has_shape {A} (r c : nat) (m : matrix A) : Prop :=
  length m = r /\ Forall (fun row => length row = c) m.

(** [m[:k, :k]] *)
Definition slice2 {A} (k : nat) (m : matrix A) : matrix A := take k <$> take k m.

(** [np.zeros((r, c), dtype=np.float32)] *)
Definition np_zeros (r c : nat) : matrix float32 := replicate r (replicate c f32_zero).

(** [m[i][j]] *)
Definition entry {A} (m : matrix A) (i j : nat) : option A := m !! i ≫= (.!! j).

(** ** Strings *)

(** [s.split(sep)[0]]: the part of [s] before the first [sep]. *)
Fixpoint split_head (sep : ascii) (s : string) : string :=
  match s with
  | EmptyString => EmptyString
  | String c rest => if Ascii.eqb c sep then EmptyString else String c (split_head sep rest)
  end.

(** [pdb_id.split('_')[0]] *)
Definition entry_id_of (pdb_id : string) : string := split_head "_"%char pdb_id.

(** ** ProDy structures (cell 11) *)

Definition coord : Type := float * float * float.

Record Atom : Type := mkAtom {
  atom_name : string;
  atom_resname : string;
  atom_coords : coord
}.

(** An [AtomGroup] is the list of its atoms, in file order. *)
Definition Structure : Type := list Atom.

(** [structure.numAtoms()] *)
Definition numAtoms (structure : Structure) : Z := Z.of_nat (length structure).

(** [structure.select('name CA')]: [None] when no atom matches. *)
Definition select_CA (structure : Structure) : option (list Atom) :=
  match filter (fun a => atom_name a = "CA") structure with
  | [] => None
  | ca_atoms => Some ca_atoms
  end.

Definition getResnames (atoms : list Atom) : list string := atom_resname <$> atoms.
Definition getCoords (atoms : list Atom) : list coord := atom_coords <$> atoms.

(** ProDy's distance of two points: [sqrt(((a - b) ** 2).sum())] in binary64,
    the three squares summed in the order x, y, z. *)
Definition getDistance (a b : coord) : float :=
  let '(ax, ay, az) := a in
  let '(bx, by_, bz) := b in
  let dx := (ax - bx)%float in
  let dy := (ay - by_)%float in
  let dz := (az - bz)%float in
  PrimFloat.sqrt (dx * dx + dy * dy + dz * dz)%float.

(** [buildDistMatrix(atoms1, atoms2)]: row [i] holds the distances of
    [atoms1[i]] to every point of [atoms2]. *)
Definition buildDistMatrix (atoms1 atoms2 : list coord) : matrix float :=
  (fun a => getDistance a <$> atoms2) <$> atoms1.

(** [(dist_matrix < 8.0).astype(np.float32)] *)
Definition contact_threshold : float := 8%float.
Definition threshold_map (dist_matrix : matrix float) : matrix float32 :=
  (fun row : list float =>
     (fun d => astype_float32 (d <? contact_threshold)%float) <$> row) <$> dist_matrix.

Section Loading.
(** ProDy's parser applied to the text of a file, and Biopython's
    [three_to_one]; both are third-party code. *)
Variable parse_pdb : string -> result Structure.
Variable three_to_one : string -> result ascii.

(** [parsePDB(pdb_file)] *)
Definition parsePDB (pdb_file : string) : M Structure :=
  fun w => match files w !! pdb_file with
           | Some text => (parse_pdb text, w)
           | None => (Raise (OSError (pdb_file +:+ " is not a valid filename")), w)
           end.

(** The loop over [residues] that builds [seq]. *)
Fixpoint build_seq (residues : list string) (seq : string) : result string :=
  match residues with
  | [] => Ok seq
  | resname :: rest =>
      match three_to_one resname with
      | Ok one_letter => build_seq rest (seq +:+ String one_letter "")
      | Raise e => if is_KeyError e then build_seq rest (seq +:+ "X") else Raise e
      end
  end.

(** The letter the loop appends for one residue name. *)
Definition letter_of (resname : string) : ascii :=
  match three_to_one resname with
  | Ok one_letter => one_letter
  | Raise _ => "X"%char
  end.

(** The body of the [try] of [extract_sequence_and_contacts]. *)
Definition extract_body (pdb_file : string)
  : M (option string * option (matrix float32)) :=
  structure <- parsePDB pdb_file ;;
  match select_CA structure with
  | None =>
      py_print ("No CA atoms found in " +:+ pdb_file) ;;;
      ret (None, None)
  | Some ca_atoms =>
      if 10000 <? numAtoms structure then ret (None, None)
      else
        let residues := getResnames ca_atoms in
        seq <- lift (build_seq residues "") ;;
        let coords := getCoords ca_atoms in
        let num_residues := length coords in
        let contact_map := np_zeros num_residues num_residues in
        let dist_matrix := buildDistMatrix coords coords in
        let contact_map := threshold_map dist_matrix in
        ret (Some seq, Some contact_map)
  end.

Definition extract_sequence_and_contacts (pdb_file : string)
  : M (option string * option (matrix float32)) :=
  try_except (extract_body pdb_file) (fun _ => true)
    (fun e =>
       py_print ("Error processing " +:+ pdb_file +:+ ": " +:+ exn_str e) ;;;
       ret (None, None)).

(** *** The loading loop (cell 12) *)

(** The pair of lists [sequences], [contact_maps]. *)
Definition dataset : Type := list string * list (matrix float32).

(** One iteration of [for pdb_file in existing_pdb_files]. *)
Definition load_step (pdb_file : string) (data : dataset) : M dataset :=
  r <- extract_sequence_and_contacts pdb_file ;;
  match r with
  | (Some seq, Some cmap) => ret (data.1 ++ [seq], data.2 ++ [cmap])
  | _ => ret data
  end.

Fixpoint load_loop (pdb_files : list string) (data : dataset) : M dataset :=
  match pdb_files with
  | [] => ret data
  | pdb_file :: rest => data' <- load_step pdb_file data ;; load_loop rest data'
  end.

(** The loop that keeps the files that exist. *)
Fixpoint check_existing (pdb_files existing : list string) : M (list string) :=
  match pdb_files with
  | [] => ret existing
  | pdb_file :: rest =>
      b <- os_path_exists pdb_file ;;
      if b : bool then check_existing rest (existing ++ [pdb_file])
      else py_print ("File not found: " +:+ pdb_file) ;;; check_existing rest existing
  end.

Definition pdb_file_of (pdb_id : string) : string :=
  os_path_join "pdb_structures" (entry_id_of pdb_id +:+ ".pdb").

(** Cell 12 as a whole. *)
Definition load_data (pdb_ids : list string) : M dataset :=
  let pdb_files := pdb_file_of <$> pdb_ids in
  existing_pdb_files <- check_existing pdb_files [] ;;
  load_loop existing_pdb_files ([], []).

(** Provenance of a loaded pair: [seq] and [cmap] were extracted from a
    file of [pdb_files], present in the file system [fs], whose structure
    has CA atoms and at most 10000 atoms. *)
Definition originates (fs : gmap string string) (pdb_files : list string)
    (seq : string) (cmap : matrix float32) : Prop :=
  exists pdb_file text structure ca_atoms,
    pdb_file ∈ pdb_files /\
    fs !! pdb_file = Some text /\
    parse_pdb text = Ok structure /\
    select_CA structure = Some ca_atoms /\
    numAtoms structure <= 10000 /\
    build_seq (getResnames ca_atoms) "" = Ok seq /\
    cmap = threshold_map (buildDistMatrix (getCoords ca_atoms) (getCoords ca_atoms)).
End Loading.

(** ** Pure code that may raise *)

#[global] Instance result_ret : MRet result := fun _ a => Ok a.
#[global] Instance result_bind : MBind result := fun _ _ k r =>
  match r with
  | Ok a => k a
  | Raise e => Raise e
  end.

(** [l[i]] for [0 <= i] *)
Definition py_index {A} (l : list A) (i : nat) : result A :=
  match l !! i with
  | Some x => Ok x
  | None => Raise (IndexError "list index out of range")
  end.

(** [[l[i] for i in idxs]] *)
Fixpoint py_select {A} (l : list A) (idxs : list nat) : result (list A) :=
  match idxs with
  | [] => Ok []
  | i :: rest => x ← py_index l i; xs ← py_select l rest; Ok (x :: xs)
  end.

(** The bound of a slice, as Python clamps it for a list of length [len]. *)
Definition slice_bound (len i : Z) : Z :=
  if i <? 0 then Z.max 0 (i + len) else Z.min i len.

(** [l[lo:hi]] *)
Definition py_slice {A} (l : list A) (lo hi : Z) : list A :=
  let len := Z.of_nat (length l) in
  drop (Z.to_nat (slice_bound len lo)) (take (Z.to_nat (slice_bound len hi)) l).

(** [l[:hi]] and [l[lo:]] *)
Definition py_slice_to {A} (l : list A) (hi : Z) : list A := py_slice l 0 hi.
Definition py_slice_from {A} (l : list A) (lo : Z) : list A :=
  py_slice l lo (Z.of_nat (length l)).

(** ** Splitting (cell 15) *)

Record Split : Type := mkSplit {
  train_indices : list nat;
  val_indices : list nat;
  test_indices : list nat;
  train_sequences : list string;
  val_sequences : list string;
  test_sequences : list string;
  train_contact_maps : list (matrix float32);
  val_contact_maps : list (matrix float32);
  test_contact_maps : list (matrix float32)
}.

(** The literals [0.7] and [0.85] as Python reads them. *)
Definition train_fraction : float := 0x1.6666666666666p-1%float.
Definition val_fraction : float := 0x1.b333333333333p-1%float.

(** [int(0.7 * num_sequences)] and [int(0.85 * num_sequences)] *)
Definition train_end_of (num_sequences : nat) : result Z :=
  py_int (train_fraction * float_of_nat num_sequences)%float.
Definition val_end_of (num_sequences : nat) : result Z :=
  py_int (val_fraction * float_of_nat num_sequences)%float.

Section Splitting.
(** [np.random.shuffle] after [np.random.seed(42)], as a function of the
    list it is given. *)
Variable shuffle : list nat -> list nat.

Definition split_data (sequences : list string) (contact_maps : list (matrix float32))
  : result Split :=
  let num_sequences := length sequences in
  let indices := shuffle (seq 0 num_sequences) in
  train_end ← train_end_of num_sequences;
  val_end ← val_end_of num_sequences;
  let train_indices := py_slice_to indices train_end in
  let val_indices := py_slice indices train_end val_end in
  let test_indices := py_slice_from indices val_end in
  train_sequences ← py_select sequences train_indices;
  val_sequences ← py_select sequences val_indices;
  test_sequences ← py_select sequences test_indices;
  train_contact_maps ← py_select contact_maps train_indices;
  val_contact_maps ← py_select contact_maps val_indices;
  test_contact_maps ← py_select contact_maps test_indices;
  Ok (mkSplit train_indices val_indices test_indices
        train_sequences val_sequences test_sequences
        train_contact_maps val_contact_maps test_contact_maps).
End Splitting.

(** ** ProteinDataset (cell 17) *)

Record ProteinDataset : Type := mkProteinDataset {
  ds_sequences : list string;
  ds_contact_maps : list (matrix float32);
  ds_esm_embeddings : list (matrix float32)
}.

(** [__len__] *)
Definition ProteinDataset_len (self : ProteinDataset) : nat := length (ds_sequences self).

(** [__getitem__]; [size(0)] of a 2-d tensor is its number of rows. *)
Definition ProteinDataset_getitem (self : ProteinDataset) (idx : nat)
  : result (matrix float32 * matrix float32) :=
  embedding ← py_index (ds_esm_embeddings self) idx;
  contact_map ← py_index (ds_contact_maps self) idx;
  let L_emb := length embedding in
  let L_contact := length contact_map in
  if bool_decide (L_emb = L_contact) then Ok (embedding, contact_map)
  else Raise (AssertionError ("Dimension mismatch: L_emb=" +:+ pretty L_emb +:+
                              ", L_contact=" +:+ pretty L_contact)).

(** ** find_similar_structures (cell 25) *)

(** [sum(a == b for a, b in zip(s, t))] *)
Fixpoint count_matches (s t : string) : nat :=
  match s, t with
  | String a s', String b t' => ((if Ascii.eqb a b then 1 else 0) + count_matches s' t')%nat
  | _, _ => 0%nat
  end.

(** [s[:n]] *)
Definition str_prefix (n : nat) (s : string) : string := substring 0 n s.

(** [matches / min_len]: true division of two ints, here two lengths, each
    converted without error for values below [2^53]. *)
Definition py_truediv (a b : nat) : result float :=
  if bool_decide (b = 0%nat) then Raise (ZeroDivisionError "division by zero")
  else Ok (float_of_nat a / float_of_nat b)%float.

(** The value of [similarity] in one iteration of the loop. *)
Definition similarity (sequence seq : string) : result float :=
  let min_len := Nat.min (String.length sequence) (String.length seq) in
  let matches := count_matches (str_prefix min_len sequence) (str_prefix min_len seq) in
  py_truediv matches min_len.

(** The literal [0.3], the default of [threshold]. *)
Definition default_threshold : float := 0x1.3333333333333p-2%float.

(** The loop over [zip(sequences, contact_maps)], accumulating
    [similar_structs]. *)
Fixpoint similar_loop (sequence : string) (threshold : float)
    (pairs : list (string * matrix float32)) (similar_structs : list (matrix float32))
  : result (list (matrix float32)) :=
  match pairs with
  | [] => Ok similar_structs
  | (seq, cmap) :: rest =>
      similarity ← similarity sequence seq;
      if (threshold <? similarity)%float then
        let cmap_resized := slice2 (String.length sequence) cmap in
        similar_loop sequence threshold rest (similar_structs ++ [cmap_resized])
      else similar_loop sequence threshold rest similar_structs
  end.

Definition shape_eqb {A} (a b : matrix A) : bool := bool_decide (shape a = shape b).

(** Element-wise sum and division of float32 arrays of one shape. *)
Definition mat_add (a b : matrix float32) : matrix float32 :=
  zip_with (zip_with f32_add) a b.
Definition mat_div (a : matrix float32) (count : nat) : matrix float32 :=
  (fun row : list float32 => (fun x => f32_div x (f32_of_nat count)) <$> row) <$> a.

(** [np.mean(arrays, axis=0)] for a non-empty Python list of 2-d float32
    arrays: the list becomes one 3-d array, which numpy refuses when the
    shapes differ; the sum runs along the first axis in list order and is
    divided by the number of arrays. *)
Definition np_mean_axis0 (arrays : list (matrix float32)) : result (matrix float32) :=
  match arrays with
  | [] => Raise (ValueError "mean of an empty list")
  | first :: others =>
      if forallb (shape_eqb first) others
      then Ok (mat_div (foldl mat_add first others) (length arrays))
      else Raise (ValueError "setting an array element with a sequence. The requested array has an inhomogeneous shape")
  end.

Definition find_similar_structures (sequence : string) (sequences : list string)
    (contact_maps : list (matrix float32)) (threshold : float)
  : result (matrix float32) :=
  let seq_len := String.length sequence in
  similar_structs ← similar_loop sequence threshold (zip sequences contact_maps) [];
  match similar_structs with
  | _ :: _ =>
      aggregated_struct ← np_mean_axis0 similar_structs;
      if bool_decide ((shape aggregated_struct).1 ≠ seq_len)
      then Ok (slice2 seq_len aggregated_struct)
      else Ok aggregated_struct
  | [] => Ok (np_zeros seq_len seq_len)
  end.

(** ** download_pdb_files (cell 8) *)

Record Response : Type := mkResponse {
  status_code : Z;
  text : string
}.

(** [response.raise_for_status()]: an [HTTPError] for a 4xx or 5xx status
    (the text of the library's message is shortened). *)
Definition raise_for_status (response : Response) : M unit :=
  if (400 <=? status_code response) && (status_code response <? 600)
  then raise (HTTPError (pretty (status_code response) +:+ " Error"))
  else ret tt.

Section Download.
(** What [requests.get(url)] yields during the run: the response, or the
    exception the library raises. *)
Variable requests_get : string -> result Response.

Definition url_of (entry_id : string) : string :=
  "https://files.rcsb.org/download/" +:+ entry_id +:+ ".pdb".

(** The body of the [try] for one id. *)
Definition download_body (download_dir entry_id url : string) : M unit :=
  response <- lift (requests_get url) ;;
  raise_for_status response ;;;
  let file_path := os_path_join download_dir (entry_id +:+ ".pdb") in
  write_file file_path (text response) ;;;
  py_print ("Downloaded " +:+ entry_id +:+ ".pdb").

(** One iteration of [for pdb_id in pdb_ids]. *)
Definition download_step (download_dir pdb_id : string) : M unit :=
  let entry_id := entry_id_of pdb_id in
  let file_path := os_path_join download_dir (entry_id +:+ ".pdb") in
  b <- os_path_exists file_path ;;
  if b : bool then ret tt
  else
    let url := url_of entry_id in
    try_except (download_body download_dir entry_id url) is_RequestException
      (fun e => py_print ("Failed to download " +:+ entry_id +:+ ": " +:+ exn_str e)).

Fixpoint download_loop (download_dir : string) (pdb_ids : list string) : M unit :=
  match pdb_ids with
  | [] => ret tt
  | pdb_id :: rest => download_step download_dir pdb_id ;;; download_loop download_dir rest
  end.

Definition download_pdb_files (pdb_ids : list string) (download_dir : string) : M unit :=
  os_makedirs download_dir ;;;
  download_loop download_dir pdb_ids.
End Download.

(** ** ContactPredictionModel (cell 20) *)

Section ContactPredictionModel.
(** The scalars of a torch tensor and the arithmetic of the backend. *)
Variable F : Type.
Variable fzero : F.
Variables fadd fmul : F -> F -> F.
Variables relu sigmoid : F -> F.

(** [nn.Conv2d]: [weight] is indexed [out][in][row][column]. *)
Record Conv2d : Type := mkConv2d {
  in_channels : nat;
  out_channels : nat;
  kernel_size : nat;
  padding : nat;
  weight : list (list (matrix F));
  bias : list F
}.

(** An image in channel-first layout, [channel][row][column]. *)
Definition at3 (x : list (matrix F)) (c i j : nat) : F :=
  nth j (nth i (nth c x []) []) fzero.

(** The zero-padded input at row [i], column [j] of the padded image. *)
Definition padded_at (p : nat) (x : list (matrix F)) (c i j : nat) : F :=
  if bool_decide (p ≤ i)%nat && bool_decide (p ≤ j)%nat
  then at3 x c (i - p) (j - p) else fzero.

Definition weight_at (conv : Conv2d) (o c u v : nat) : F :=
  nth v (nth u (nth c (nth o (weight conv) []) []) []) fzero.

(** One output pixel: the bias plus the products over channel and window. *)
Definition conv_pixel (conv : Conv2d) (x : list (matrix F)) (o i j : nat) : F :=
  let k := kernel_size conv in
  foldl fadd (nth o (bias conv) fzero)
    (c ← seq 0 (in_channels conv);
     u ← seq 0 k;
     v ← seq 0 k;
     [fmul (weight_at conv o c u v) (padded_at (padding conv) x c (i + u) (j + v))]).

Definition height (x : list (matrix F)) : nat :=
  match x with [] => 0 | ch :: _ => length ch end.
Definition width (x : list (matrix F)) : nat :=
  match x with (row :: _) :: _ => length row | _ => 0 end.

(** The layer on one image; torch rejects a wrong number of channels and a
    padded image smaller than the kernel. *)
Definition conv2d_image (conv : Conv2d) (x : list (matrix F)) : result (list (matrix F)) :=
  let h := (height x + 2 * padding conv)%nat in
  let w := (width x + 2 * padding conv)%nat in
  if negb (bool_decide (length x = in_channels conv)) then
    Raise (RuntimeError "input has the wrong number of channels")
  else if bool_decide (h < kernel_size conv)%nat || bool_decide (w < kernel_size conv)%nat then
    Raise (RuntimeError "Kernel size can't be greater than actual input size")
  else
    Ok ((fun o =>
           (fun i => (fun j => conv_pixel conv x o i j) <$> seq 0 (w - kernel_size conv + 1))
             <$> seq 0 (h - kernel_size conv + 1))
          <$> seq 0 (out_channels conv)).

(** The layer on a batch. *)
Fixpoint conv2d (conv : Conv2d) (xs : list (list (matrix F))) : result (list (list (matrix F))) :=
  match xs with
  | [] => Ok []
  | x :: rest => y ← conv2d_image conv x; ys ← conv2d conv rest; Ok (y :: ys)
  end.

Record ContactPredictionModel : Type := mkModel {
  embedding_dim : nat;
  conv1 : Conv2d;
  conv2 : Conv2d
}.

(** [__init__]: the layers with their trainable parameters. *)
Definition ContactPredictionModel_init (embedding_dim : nat)
    (w1 : list (list (matrix F))) (b1 : list F)
    (w2 : list (list (matrix F))) (b2 : list F) : ContactPredictionModel :=
  mkModel embedding_dim
    (mkConv2d (embedding_dim * 2) 64 3 1 w1 b1)
    (mkConv2d 64 1 3 1 w2 b2).

(** [embedding.size()] of a 3-d tensor given as the list of its batch
    elements. *)
Definition size3 (embedding : list (matrix F)) : nat * nat * nat :=
  (length embedding,
   match embedding with [] => 0 | m :: _ => length m end,
   match embedding with (row :: _) :: _ => length row | _ => 0 end)%nat.

(** [embedding.unsqueeze(2).repeat(1, 1, L, 1)] *)
Definition emb_i_of (L : nat) (embedding : list (matrix F)) : list (list (matrix F)) :=
  (fun m : matrix F => (fun row => replicate L row) <$> m) <$> embedding.

(** [embedding.unsqueeze(1).repeat(1, L, 1, 1)] *)
Definition emb_j_of (L : nat) (embedding : list (matrix F)) : list (list (matrix F)) :=
  (fun m : matrix F => replicate L m) <$> embedding.

(** [torch.cat([a, b], dim=-1)] of two 4-d tensors *)
Definition cat_last (a b : list (list (matrix F))) : list (list (matrix F)) :=
  zip_with (zip_with (zip_with app)) a b.

(** [t.permute(0, 3, 1, 2)] of a tensor with [C] entries along its last
    axis: from [batch][i][j][c] to [batch][c][i][j]. *)
Definition permute_0312 (C : nat) (t : list (list (matrix F))) : list (list (matrix F)) :=
  (fun p : list (matrix F) =>
     (fun c => (fun row : matrix F => (fun vec : list F => nth c vec fzero) <$> row) <$> p)
       <$> seq 0 C) <$> t.

Definition map4 (f : F -> F) (t : list (list (matrix F))) : list (list (matrix F)) :=
  (fun x : list (matrix F) => (fun ch : matrix F => (fun row : list F => f <$> row) <$> ch) <$> x) <$> t.

(** [x.squeeze(1)] where axis 1 has size one; a tensor whose axis 1 had
    another size would stay 4-d, which this result type cannot hold. *)
Fixpoint squeeze1 (t : list (list (matrix F))) : result (list (matrix F)) :=
  match t with
  | [] => Ok []
  | [ch] :: rest => ys ← squeeze1 rest; Ok (ch :: ys)
  | _ :: _ => Raise (RuntimeError "axis 1 is not of size one")
  end.

(** The pairwise tensor [pairwise_emb] of [forward]. *)
Definition pairwise_emb_of (embedding : list (matrix F)) : list (list (matrix F)) :=
  let '(batch_size, L, D) := size3 embedding in
  let emb_i := emb_i_of L embedding in
  let emb_j := emb_j_of L embedding in
  cat_last emb_i emb_j.

Definition forward (self : ContactPredictionModel) (embedding : list (matrix F))
  : result (list (matrix F)) :=
  let '(batch_size, L, D) := size3 embedding in
  let pairwise_emb := pairwise_emb_of embedding in
  let x := permute_0312 (2 * D) pairwise_emb in
  x ← conv2d (conv1 self) x;
  let x := map4 relu x in
  x ← conv2d (conv2 self) x;
  let x := map4 sigmoid x in
  squeeze1 x.
End ContactPredictionModel.

(** ** Auxiliary definitions for the statements *)

(** The world after one more printed line. *)
Definition printed (w : World) (line : string) : World :=
  mkWorld (files w) (fs_error w) (stdout w ++ [line]).

(** The contact map [extract_sequence_and_contacts] computes from the
    selected atoms. *)
Definition contact_map_of (ca_atoms : list Atom) : matrix float32 :=
  threshold_map (buildDistMatrix (getCoords ca_atoms) (getCoords ca_atoms)).

(** A coordinate triple without NaN or infinity. *)
Definition finite_coord (p : coord) : bool :=
  let '(x, y, z) := p in is_finite x && is_finite y && is_finite z.


(** Two binary64 values are opposite, or both are zeros. *)
Definition opp_or_zeros (a b : spec_float) : Prop :=
  b = SFopp a \/ exists s s', a = S754_zero s /\ b = S754_zero s'.

(** Shapes of 3-d and 4-d tensors given as nested lists. *)
Definition tensor3_shape {A} (B L D : nat) (t : list (matrix A)) : Prop :=
  length t = B /\ Forall (has_shape L D) t.
Definition tensor4_shape {A} (B C H W : nat) (t : list (list (matrix A))) : Prop :=
  length t = B /\ Forall (tensor3_shape C H W) t.



(** The exception a fetch ends in, if it fails: the one [requests.get]
    raises, or the [HTTPError] of [raise_for_status]. *)
Definition fetch_failure (requests_get : string -> result Response) (url : string)
  : option exn :=
  match requests_get url with
  | Raise e => Some e
  | Ok response =>
      if (400 <=? status_code response) && (status_code response <? 600)
      then Some (HTTPError (pretty (status_code response) +:+ " Error"))
      else None
  end.

(** *** Rounding to binary64, in integers *)

(** [P / 2^k] rounded to the nearest integer, ties to even, for [0 < k]. *)
Definition rne (P k : Z) : Z :=
  let q := P / 2 ^ k in
  if Z.testbit P (k - 1)
  then if P mod 2 ^ (k - 1) =? 0 then (if Z.even q then q else q + 1) else q + 1
  else q.

(** [P] rounded to 53 significant bits. *)
Definition round53 (P : Z) : Z :=
  let k := Zdigits2 P - 53 in
  if k <=? 0 then P else rne P k * 2 ^ k.

(** [int(c * x)] for two positive binary64 numbers [c = mc * 2^-53] and
    [x = m * 2^e] with 53-bit mantissas and [e < 53]: the product of the
    mantissas is rounded to 53 bits and the fraction is dropped. *)
Definition int_of_product (mc m e : Z) : Z :=
  round53 (mc * m) / 2 ^ (53 - e).

(** The mantissas of the literals [0.7] and [0.85]. *)
Definition train_mantissa : Z := 6305039478318694.
Definition val_mantissa : Z := 7656119366529843.

(** *** The aggregation of [find_similar_structures], stated on its own *)

(** [similarity > threshold] for one database sequence; no verdict is
    reached when the division raises. *)
Definition exceeds_threshold (sequence : string) (threshold : float) (seq : string) : bool :=
  match similarity sequence seq with
  | Ok s => (threshold <? s)%float
  | Raise _ => false
  end.




(** A matrix of ones, for the examples. *)
Definition f32_ones (n : nat) : matrix float32 := replicate n (replicate n f32_one).

(** ** Concrete data for the examples *)

(** Biopython's table behind [three_to_one]: the twenty standard residues;
    any other name raises [KeyError]. *)
Definition standard_residues : list (string * ascii) :=
  [("ALA", "A"%char); ("CYS", "C"%char); ("ASP", "D"%char); ("GLU", "E"%char);
   ("PHE", "F"%char); ("GLY", "G"%char); ("HIS", "H"%char); ("ILE", "I"%char);
   ("LYS", "K"%char); ("LEU", "L"%char); ("MET", "M"%char); ("ASN", "N"%char);
   ("PRO", "P"%char); ("GLN", "Q"%char); ("ARG", "R"%char); ("SER", "S"%char);
   ("THR", "T"%char); ("VAL", "V"%char); ("TRP", "W"%char); ("TYR", "Y"%char)].

Definition biopython_three_to_one (resname : string) : result ascii :=
  match List.find (fun p : string * ascii => String.eqb p.1 resname) standard_residues with
  | Some p => Ok p.2
  | None => Raise (KeyError resname)
  end.

(** A glycine, an alanine 3.8 apart and a non-standard residue 20 away. *)
Definition example_structure : Structure :=
  [ mkAtom "N" "GLY" (-1.5, 0, 0)%float;
    mkAtom "CA" "GLY" (0, 0, 0)%float;
    mkAtom "CA" "ALA" (0x1.e666666666666p+1, 0, 0)%float;
    mkAtom "CA" "MSE" (20, 0, 0)%float;
    mkAtom "O" "MSE" (21, 1, 0)%float ].

(** Water only: no CA atom. *)
Definition example_water : Structure :=
  [ mkAtom "O" "HOH" (1, 2, 3)%float ].

(** More than 10000 atoms, among them CA atoms. *)
Definition example_large_structure : Structure :=
  replicate (Z.to_nat 10001) (mkAtom "CA" "GLY" (0, 0, 0)%float).

(** A stand-in for ProDy's parser on three file contents. *)
Definition example_parse (text : string) : result Structure :=
  if String.eqb text "three residues" then Ok example_structure
  else if String.eqb text "water" then Ok example_water
  else if String.eqb text "large" then Ok example_large_structure
  else Raise (ValueError "could not parse the file").

Definition example_files : gmap string string :=
  <["pdb_structures/1ABC.pdb" := "three residues"]>
  (<["pdb_structures/2DEF.pdb" := "water"]>
  (<["pdb_structures/3GHI.pdb" := "not a structure"]>
  (<["pdb_structures/5MNO.pdb" := "large"]> ∅))).

Definition example_world : World := mkWorld example_files (fun _ => None) [].

Definition example_pdb_ids : list string :=
  ["1ABC_1"; "2DEF_1"; "3GHI_2"; "4JKL_1"; "5MNO_A"].

(** The contact map of [example_structure]: the first two residues are in
    contact, the third is far from both. *)
Definition example_contact_map : matrix float32 :=
  [ [f32_one; f32_one; f32_zero];
    [f32_one; f32_one; f32_zero];
    [f32_zero; f32_zero; f32_one] ].

(** A database of three sequences for [find_similar_structures]. *)
Definition example_database : list string := ["AAB"; "ABC"; "CCC"].
Definition example_database_maps : list (matrix float32) :=
  [f32_ones 3; np_zeros 3 3; f32_ones 3].

(** A server that knows one entry, answers 404 for another and is unreachable
    otherwise. *)
Definition example_requests_get (url : string) : result Response :=
  if String.eqb url "https://files.rcsb.org/download/1ABC.pdb"
  then Ok (mkResponse 200 "three residues")
  else if String.eqb url "https://files.rcsb.org/download/0XXX.pdb"
  then Ok (mkResponse 404 "Not Found")
  else Raise (RequestException "Connection refused").


(** A batch of one embedding with two rows of one feature, over integer
    scalars. *)
Definition example_embedding : list (matrix Z) := [ [ [1]; [2] ] ].

(** ** The id list (cell 5) and the names derived from an id *)

(** [s.split(sep)] for a separator of one character. *)
Fixpoint py_split (sep : ascii) (s : string) : list string :=
  match s with
  | EmptyString => [EmptyString]
  | String c rest =>
      if Ascii.eqb c sep then EmptyString :: py_split sep rest
      else match py_split sep rest with
           | piece :: pieces => String c piece :: pieces
           | [] => [String c EmptyString]
           end
  end.

(** [sep.join(pieces)] *)
Fixpoint py_join (sep : string) (pieces : list string) : string :=
  match pieces with
  | [] => EmptyString
  | [piece] => piece
  | piece :: rest => piece +:+ sep +:+ py_join sep rest
  end.

(** [with open(path) as f: f.read()] *)
Definition read_file (path : string) : M string :=
  fun w => match files w !! path with
           | Some text => (Ok text, w)
           | None => (Raise (OSError ("[Errno 2] No such file or directory: '" +:+ path +:+ "'")), w)
           end.

Definition pdb_ids_file : string := "rcsb_pdb_ids_cell_HS_mem_asym_ab.txt".

(** Cell 5: the ids are the pieces of the file between commas. *)
Definition read_pdb_ids : M (list string) :=
  pdb_ids <- read_file pdb_ids_file ;;
  ret (py_split "," pdb_ids).

(** The character [c] occurs in [s]. *)
Fixpoint occurs (c : ascii) (s : string) : bool :=
  match s with
  | EmptyString => false
  | String a rest => Ascii.eqb a c || occurs c rest
  end.

(** The number of occurrences of [c] in [s]. *)
Fixpoint count_char (c : ascii) (s : string) : nat :=
  match s with
  | EmptyString => 0%nat
  | String a rest => ((if Ascii.eqb a c then 1 else 0) + count_char c rest)%nat
  end.

(** The file [download_pdb_files] writes for an id, the same for every
    chain of one entry. *)
Definition download_path (download_dir pdb_id : string) : string :=
  os_path_join download_dir (entry_id_of pdb_id +:+ ".pdb").

(** The number of lines of [out] equal to [line]. *)
Definition count_line (line : string) (out : list string) : nat :=
  length (List.filter (String.eqb line) out).

(** The world after a successful download for [pdb_id]: the file written,
    one line printed. *)
Definition downloaded (download_dir pdb_id : string) (response : Response) (w : World) : World :=
  mkWorld (<[download_path download_dir pdb_id := text response]> (files w))
    (fs_error w)
    (stdout w ++ ["Downloaded " +:+ entry_id_of pdb_id +:+ ".pdb"]).

(** A response whose status [raise_for_status] accepts. *)
Definition status_ok (response : Response) : bool :=
  negb ((400 <=? status_code response) && (status_code response <? 600)).

(** The id has a file, or its fetch would succeed. *)
Definition obtainable (requests_get : string -> result Response) (fs : gmap string string)
    (download_dir pdb_id : string) : Prop :=
  is_Some (fs !! download_path download_dir pdb_id) \/
  fetch_failure requests_get (url_of (entry_id_of pdb_id)) = None.

Section LoadingSpec.
Variable parse_pdb : string -> result Structure.
Variable three_to_one : string -> result ascii.

(** The pair that cell 12 appends for a file of the file system [fs], if
    it appends one: the file exists and parses, its structure has CA atoms
    and at most 10000 atoms, and no residue lookup raises anything but
    [KeyError]. *)
Definition extracted (fs : gmap string string) (pdb_file : string)
  : option (string * matrix float32) :=
  match fs !! pdb_file with
  | None => None
  | Some file_text =>
      match parse_pdb file_text with
      | Raise _ => None
      | Ok structure =>
          match select_CA structure with
          | None => None
          | Some ca_atoms =>
              if 10000 <? numAtoms structure then None
              else match build_seq three_to_one (getResnames ca_atoms) "" with
                   | Ok seq => Some (seq, contact_map_of ca_atoms)
                   | Raise _ => None
                   end
          end
      end
  end.
End LoadingSpec.

(** A binary64 value that is NaN or an infinity. *)
Definition sf_nonfinite (x : spec_float) : Prop :=
  x = S754_nan \/ exists s, x = S754_infinity s.

(** A binary64 value that is NaN or the positive infinity. *)
Definition sf_nan_or_pinf (x : spec_float) : Prop :=
  x = S754_nan \/ x = S754_infinity false.

(** Two CA atoms 3.8 apart, the first with an unreadable x coordinate. *)
Definition example_nan_structure : Structure :=
  [ mkAtom "CA" "GLY" (nan, 0, 0)%float;
    mkAtom "CA" "ALA" (0x1.e666666666666p+1, 0, 0)%float ].

(** A matrix with at most [k] rows, each of at most [k] entries. *)
Definition within_square {A} (k : nat) (m : matrix A) : Prop :=
  (length m <= k)%nat /\ Forall (fun row => (length row <= k)%nat) m.

(** A batch of two embeddings of two rows and one feature. *)
Definition example_batch : list (matrix Z) := [ [ [1]; [2] ]; [ [3]; [4] ] ].

(** A float32 array whose entries are all 0.0 or 1.0, as a contact map. *)
Definition binary_map (m : matrix float32) : Prop :=
  Forall (Forall (fun x => x = f32_zero \/ x = f32_one)) m.


(** * Facts about [extract_sequence_and_contacts] and the loading loop *)

Lemma entry_fmap {A B} (f : A -> B) (m : matrix A) i j :
  entry ((fun row : list A => f <$> row) <$> m) i j = f <$> entry m i j.
Proof.
  unfold entry. rewrite list_lookup_fmap.
  destruct (m !! i) as [row|]; simpl; [|reflexivity].
  apply list_lookup_fmap.
Qed.

Lemma entry_buildDistMatrix (cs1 cs2 : list coord) i j p q :
  cs1 !! i = Some p -> cs2 !! j = Some q ->
  entry (buildDistMatrix cs1 cs2) i j = Some (getDistance p q).
Proof.
  intros Hp Hq. unfold entry, buildDistMatrix.
  rewrite list_lookup_fmap, Hp. simpl.
  rewrite list_lookup_fmap, Hq. reflexivity.
Qed.

Lemma has_shape_fmap {A B} (f : A -> B) r c (m : matrix A) :
  has_shape r c m -> has_shape r c ((fun row : list A => f <$> row) <$> m).
Proof.
  intros [Hr Hc]. split.
  - rewrite length_fmap. exact Hr.
  - apply Forall_fmap. eapply Forall_impl; [exact Hc|].
    intros row Hrow. simpl. rewrite length_fmap. exact Hrow.
Qed.

Lemma has_shape_buildDistMatrix (cs1 cs2 : list coord) :
  has_shape (length cs1) (length cs2) (buildDistMatrix cs1 cs2).
Proof.
  split.
  - unfold buildDistMatrix. apply length_fmap.
  - unfold buildDistMatrix. apply Forall_fmap, Forall_forall.
    intros a _. simpl. apply length_fmap.
Qed.

Lemma contact_map_of_shape ca_atoms :
  has_shape (length ca_atoms) (length ca_atoms) (contact_map_of ca_atoms).
Proof.
  unfold contact_map_of, threshold_map.
  apply (has_shape_fmap (fun d => astype_float32 (d <? contact_threshold)%float)).
  pose proof (has_shape_buildDistMatrix (getCoords ca_atoms) (getCoords ca_atoms)) as H.
  unfold getCoords in H. rewrite length_fmap in H. exact H.
Qed.

Lemma contact_map_of_entry ca_atoms i j p q :
  getCoords ca_atoms !! i = Some p ->
  getCoords ca_atoms !! j = Some q ->
  entry (contact_map_of ca_atoms) i j =
    Some (astype_float32 (getDistance p q <? contact_threshold)%float).
Proof.
  intros Hp Hq. unfold contact_map_of, threshold_map.
  rewrite (entry_fmap (fun d => astype_float32 (d <? contact_threshold)%float)).
  rewrite (entry_buildDistMatrix _ _ _ _ _ _ Hp Hq). reflexivity.
Qed.

Lemma string_length_app (s t : string) :
  String.length (s +:+ t) = (String.length s + String.length t)%nat.
Proof. induction s as [|c s IH]; simpl; [reflexivity|]. rewrite IH. reflexivity. Qed.

Lemma string_get_app_l (s t : string) k :
  (k < String.length s)%nat -> String.get k (s +:+ t) = String.get k s.
Proof. intros H. symmetry. apply append_correct1. exact H. Qed.

Lemma string_get_snoc (s : string) c :
  String.get (String.length s) (s +:+ String c "") = Some c.
Proof.
  pose proof (append_correct2 s (String c "") 0) as H. simpl in H.
  symmetry. exact H.
Qed.

Section LoadingFacts.
Variable parse_pdb : string -> result Structure.
Variable three_to_one : string -> result ascii.

Lemma extract_unfold pdb_file w :
  extract_sequence_and_contacts parse_pdb three_to_one pdb_file w =
  match files w !! pdb_file with
  | None => (Ok (None, None),
             printed w ("Error processing " +:+ pdb_file +:+ ": " +:+
                        exn_str (OSError (pdb_file +:+ " is not a valid filename"))))
  | Some text =>
      match parse_pdb text with
      | Raise e => (Ok (None, None),
                    printed w ("Error processing " +:+ pdb_file +:+ ": " +:+ exn_str e))
      | Ok structure =>
          match select_CA structure with
          | None => (Ok (None, None), printed w ("No CA atoms found in " +:+ pdb_file))
          | Some ca_atoms =>
              if 10000 <? numAtoms structure then (Ok (None, None), w)
              else match build_seq three_to_one (getResnames ca_atoms) "" with
                   | Ok seq => (Ok (Some seq, Some (contact_map_of ca_atoms)), w)
                   | Raise e => (Ok (None, None),
                                 printed w ("Error processing " +:+ pdb_file +:+ ": " +:+ exn_str e))
                   end
          end
      end
  end.
Proof.
  unfold extract_sequence_and_contacts, try_except, extract_body, bind, parsePDB.
  destruct (files w !! pdb_file) as [text|]; [|reflexivity].
  destruct (parse_pdb text) as [structure|e]; [|reflexivity].
  destruct (select_CA structure) as [ca_atoms|]; [|reflexivity].
  destruct (10000 <? numAtoms structure); [reflexivity|].
  unfold lift. destruct (build_seq _ _ _); reflexivity.
Qed.

(** What a successful call went through. *)
Lemma extract_success pdb_file w w' seq cmap :
  extract_sequence_and_contacts parse_pdb three_to_one pdb_file w
    = (Ok (Some seq, Some cmap), w') ->
  exists text structure ca_atoms,
    files w !! pdb_file = Some text /\
    parse_pdb text = Ok structure /\
    select_CA structure = Some ca_atoms /\
    numAtoms structure <= 10000 /\
    build_seq three_to_one (getResnames ca_atoms) "" = Ok seq /\
    cmap = contact_map_of ca_atoms /\
    w' = w.
Proof.
  rewrite extract_unfold. intros H.
  destruct (files w !! pdb_file) as [text|]; [|discriminate].
  destruct (parse_pdb text) as [structure|e] eqn:Hparse; [|discriminate].
  destruct (select_CA structure) as [ca_atoms|] eqn:Hsel; [|discriminate].
  destruct (10000 <? numAtoms structure) eqn:Hnum; [discriminate|].
  destruct (build_seq _ _ _) as [s|e] eqn:Hseq; [|discriminate].
  inversion H; subst. exists text, structure, ca_atoms.
  repeat split; try reflexivity; try assumption.
  apply Z.ltb_ge in Hnum. exact Hnum.
Qed.


Lemma extract_total pdb_file w :
  exists r w',
    extract_sequence_and_contacts parse_pdb three_to_one pdb_file w = (Ok r, w') /\
    files w' = files w.
Proof.
  rewrite extract_unfold.
  repeat match goal with
         | |- context [match ?x with _ => _ end] => destruct x
         end; eauto.
Qed.

Lemma load_step_skip pdb_file data w w' :
  extract_sequence_and_contacts parse_pdb three_to_one pdb_file w
    = (Ok (None, None), w') ->
  load_step parse_pdb three_to_one pdb_file data w = (Ok data, w').
Proof. intros H. unfold load_step, bind. rewrite H. reflexivity. Qed.

Lemma load_step_append pdb_file data w w' seq cmap :
  extract_sequence_and_contacts parse_pdb three_to_one pdb_file w
    = (Ok (Some seq, Some cmap), w') ->
  load_step parse_pdb three_to_one pdb_file data w
    = (Ok (data.1 ++ [seq], data.2 ++ [cmap]), w').
Proof. intros H. unfold load_step, bind. rewrite H. reflexivity. Qed.

(** C4. When [parsePDB] raises, or the parsed structure has no CA atom,
    [extract_sequence_and_contacts] returns [(None, None)] and does not
    raise, and the iteration of the loading loop for that file leaves
    [sequences] and [contact_maps] as they were. *)
Theorem parsing_failures_skipped pdb_file w :
  (exists e, (parsePDB parse_pdb pdb_file w).1 = Raise e) \/
  (exists structure,
      (parsePDB parse_pdb pdb_file w).1 = Ok structure /\
      select_CA structure = None) ->
  exists w',
    extract_sequence_and_contacts parse_pdb three_to_one pdb_file w
      = (Ok (None, None), w') /\
    forall data,
      load_step parse_pdb three_to_one pdb_file data w = (Ok data, w').
Proof.
  intros H.
  assert (exists w',
             extract_sequence_and_contacts parse_pdb three_to_one pdb_file w
             = (Ok (None, None), w')) as [w' Hw'].
  { rewrite extract_unfold. unfold parsePDB in H.
    destruct (files w !! pdb_file) as [text|]; [|eauto].
    simpl in H.
    destruct (parse_pdb text) as [structure|e]; [|eauto].
    destruct H as [[e He]|[s [Hs Hsel]]]; [discriminate|].
    inversion Hs; subst. rewrite Hsel. eauto. }
  exists w'. split; [exact Hw'|].
  intros data. apply load_step_skip. exact Hw'.
Qed.

Lemma originates_mono fs l1 l2 seq cmap :
  l1 ⊆ l2 -> originates parse_pdb three_to_one fs l1 seq cmap -> originates parse_pdb three_to_one fs l2 seq cmap.
Proof.
  intros Hsub (f & t & s & ca & Hin & H). exists f, t, s, ca.
  split; [apply Hsub, Hin|exact H].
Qed.

Lemma load_loop_spec pdb_files : forall data w,
  exists new_seqs new_cmaps w',
    load_loop parse_pdb three_to_one pdb_files data w
      = (Ok (data.1 ++ new_seqs, data.2 ++ new_cmaps), w') /\
    files w' = files w /\
    Forall2 (originates parse_pdb three_to_one (files w) pdb_files) new_seqs new_cmaps.
Proof.
  induction pdb_files as [|pdb_file rest IH]; intros data w.
  - exists [], [], w. simpl. unfold ret. rewrite !app_nil_r.
    destruct data; simpl. repeat split. constructor.
  - destruct (extract_total pdb_file w) as (r & w1 & Hr & Hfs).
    destruct r as [[seq|] [cmap|]].
    1: { pose proof (load_step_append _ data _ _ _ _ Hr) as Hstep.
         destruct (IH (data.1 ++ [seq], data.2 ++ [cmap]) w1)
           as (ns & nc & w' & Hloop & Hfs' & Hall).
         exists (seq :: ns), (cmap :: nc), w'.
         simpl. unfold bind at 1. rewrite Hstep, Hloop. simpl.
         rewrite <- !app_assoc. simpl.
         split; [reflexivity|split; [congruence|]].
         constructor.
         - destruct (extract_success _ _ _ _ _ Hr)
             as (text & s & ca & ? & ? & ? & ? & ? & ? & ?).
           exists pdb_file, text, s, ca. repeat split; try assumption.
           apply list_elem_of_here.
         - rewrite Hfs in Hall.
           eapply Forall2_impl; [exact Hall|].
           intros s c. apply originates_mono.
           intros x Hx. apply list_elem_of_further, Hx. }
    all: assert (load_step parse_pdb three_to_one pdb_file data w = (Ok data, w1)) as Hstep
      by (unfold load_step, bind; rewrite Hr; reflexivity).
    all: destruct (IH data w1) as (ns & nc & w' & Hloop & Hfs' & Hall).
    all: exists ns, nc, w'; simpl; unfold bind at 1; rewrite Hstep, Hloop.
    all: split; [reflexivity|split; [congruence|]].
    all: rewrite Hfs in Hall; eapply Forall2_impl; [exact Hall|].
    all: intros s c; apply originates_mono.
    all: intros x Hx; apply list_elem_of_further, Hx.
Qed.

Lemma check_existing_spec pdb_files : forall existing w,
  exists kept w',
    check_existing pdb_files existing w = (Ok (existing ++ kept), w') /\
    files w' = files w /\
    kept ⊆ pdb_files.
Proof.
  induction pdb_files as [|pdb_file rest IH]; intros existing w.
  - exists [], w. simpl. unfold ret. rewrite app_nil_r. repeat split. intros x Hx; exact Hx.
  - simpl. unfold bind at 1, os_path_exists.
    destruct (bool_decide (is_Some (files w !! pdb_file))).
    + destruct (IH (existing ++ [pdb_file]) w) as (kept & w' & Hc & Hfs & Hsub).
      exists (pdb_file :: kept), w'. rewrite Hc, <- app_assoc. simpl.
      repeat split; [exact Hfs|].
      intros x Hx. apply elem_of_cons in Hx as [->|Hx];
        [apply list_elem_of_here|apply list_elem_of_further, Hsub, Hx].
    + unfold bind, py_print.
      destruct (IH existing (mkWorld (files w) (fs_error w)
                 (stdout w ++ ["File not found: " +:+ pdb_file])))
        as (kept & w' & Hc & Hfs & Hsub).
      exists kept, w'. rewrite Hc. repeat split; [exact Hfs|].
      intros x Hx. apply list_elem_of_further, Hsub, Hx.
Qed.

(** Cell 12 returns, and every loaded pair has a source file. *)
Lemma load_data_spec pdb_ids w :
  exists sequences contact_maps w',
    load_data parse_pdb three_to_one pdb_ids w = (Ok (sequences, contact_maps), w') /\
    Forall2 (originates parse_pdb three_to_one (files w) (pdb_file_of <$> pdb_ids)) sequences contact_maps.
Proof.
  unfold load_data, bind.
  destruct (check_existing_spec (pdb_file_of <$> pdb_ids) [] w)
    as (kept & w1 & Hc & Hfs & Hsub).
  rewrite Hc. simpl.
  destruct (load_loop_spec kept ([], []) w1) as (ns & nc & w' & Hl & Hfs' & Hall).
  exists ns, nc, w'. rewrite Hl. simpl. split; [reflexivity|].
  rewrite Hfs in Hall. eapply Forall2_impl; [exact Hall|].
  intros s c. apply originates_mono, Hsub.
Qed.

(** C10. A structure that parses, has CA atoms and has more than 10000
    atoms makes [extract_sequence_and_contacts] return [(None, None)];
    hence every sequence and contact map cell 12 loads was extracted from
    a structure with at most 10000 atoms. *)
Theorem atom_count_filter :
  (forall pdb_file w text structure ca_atoms,
      files w !! pdb_file = Some text ->
      parse_pdb text = Ok structure ->
      select_CA structure = Some ca_atoms ->
      10000 < numAtoms structure ->
      extract_sequence_and_contacts parse_pdb three_to_one pdb_file w
        = (Ok (None, None), w)) /\
  (forall pdb_ids w sequences contact_maps w',
      load_data parse_pdb three_to_one pdb_ids w
        = (Ok (sequences, contact_maps), w') ->
      length sequences = length contact_maps /\
      forall i seq cmap,
        sequences !! i = Some seq ->
        contact_maps !! i = Some cmap ->
        exists pdb_file text structure ca_atoms,
          pdb_file ∈ pdb_file_of <$> pdb_ids /\
          files w !! pdb_file = Some text /\
          parse_pdb text = Ok structure /\
          select_CA structure = Some ca_atoms /\
          numAtoms structure <= 10000 /\
          build_seq three_to_one (getResnames ca_atoms) "" = Ok seq /\
          cmap = contact_map_of ca_atoms).
Proof.
  split.
  - intros pdb_file w text structure ca_atoms Hf Hp Hs Hn.
    rewrite extract_unfold, Hf, Hp, Hs.
    apply Z.ltb_lt in Hn. rewrite Hn. reflexivity.
  - intros pdb_ids w sequences contact_maps w' Hload.
    destruct (load_data_spec pdb_ids w) as (ss & cs & w1 & Hl & Hall).
    rewrite Hl in Hload. inversion Hload; subst.
    split; [eapply Forall2_length, Hall|].
    intros i seq cmap Hs Hc.
    exact (Forall2_lookup_lr _ _ _ _ _ _ Hall Hs Hc).
Qed.

(** *** The parallel-array invariant *)

Lemma build_seq_spec residues : forall acc seq,
  build_seq three_to_one residues acc = Ok seq ->
  String.length seq = (String.length acc + length residues)%nat /\
  (forall k, (k < String.length acc)%nat -> String.get k seq = String.get k acc) /\
  (forall k resname,
      residues !! k = Some resname ->
      String.get (String.length acc + k) seq = Some (letter_of three_to_one resname)).
Proof.
  induction residues as [|resname rest IH]; intros acc seq H; simpl in H.
  - inversion H; subst. split; [simpl; lia|].
    split; [reflexivity|]. intros k r Hk. discriminate.
  - assert (build_seq three_to_one rest (acc +:+ String (letter_of three_to_one resname) "") = Ok seq)
      as Hrest.
    { unfold letter_of. destruct (three_to_one resname) as [c|e]; [exact H|].
      destruct (is_KeyError e); [exact H|discriminate]. }
    destruct (IH _ _ Hrest) as (Hlen & Hold & Hnew).
    rewrite string_length_app in Hlen, Hold, Hnew. simpl in Hlen, Hold, Hnew.
    split; [simpl; lia|]. split.
    + intros k Hk. rewrite Hold by lia. apply string_get_app_l. exact Hk.
    + intros [|k] r Hk; simpl in Hk.
      * inversion Hk; subst. rewrite Nat.add_0_r.
        rewrite Hold by lia. apply string_get_snoc.
      * specialize (Hnew k r Hk).
        replace (String.length acc + S k)%nat with (String.length acc + 1 + k)%nat by lia.
        exact Hnew.
Qed.

Lemma originates_shape fs pdb_files seq cmap :
  originates parse_pdb three_to_one fs pdb_files seq cmap ->
  has_shape (String.length seq) (String.length seq) cmap.
Proof.
  intros (f & t & s & ca & _ & _ & _ & _ & _ & Hseq & ->).
  destruct (build_seq_spec _ _ _ Hseq) as (Hlen & _ & _).
  simpl in Hlen. unfold getResnames in Hlen. rewrite length_fmap in Hlen.
  rewrite Hlen. apply contact_map_of_shape.
Qed.

Lemma selection_Forall2 {A B} (R : A -> B -> Prop) (l1 : list A) (l2 : list B) idxs :
  Forall2 R l1 l2 ->
  forall s1 s2,
    Forall2 (fun i x => l1 !! i = Some x) idxs s1 ->
    Forall2 (fun i y => l2 !! i = Some y) idxs s2 ->
    Forall2 R s1 s2.
Proof.
  intros HR. induction idxs as [|i idxs IH]; intros s1 s2 H1 H2.
  - inversion H1; subst. inversion H2; subst. constructor.
  - inversion H1 as [|? x ? s1' Hx H1']; subst.
    inversion H2 as [|? y ? s2' Hy H2']; subst.
    constructor; [|apply IH; assumption].
    exact (Forall2_lookup_lr _ _ _ _ _ _ HR Hx Hy).
Qed.

(** The assertion of [__getitem__] holds when maps and embeddings have one
    row per sequence character. *)
Lemma getitem_of_rows sequences contact_maps esm_embeddings idx :
  Forall2 (fun seq (cmap : matrix float32) => length cmap = String.length seq)
    sequences contact_maps ->
  Forall2 (fun (embedding : matrix float32) seq => length embedding = String.length seq)
    esm_embeddings sequences ->
  (idx < length sequences)%nat ->
  exists embedding contact_map,
    esm_embeddings !! idx = Some embedding /\
    contact_maps !! idx = Some contact_map /\
    ProteinDataset_getitem
      (mkProteinDataset sequences contact_maps esm_embeddings) idx
      = Ok (embedding, contact_map).
Proof.
  intros Hmaps Hemb Hidx.
  destruct (lookup_lt_is_Some_2 sequences idx Hidx) as [seq Hs].
  destruct (Forall2_lookup_r _ _ _ _ _ Hemb Hs) as (emb & He & Hlen).
  destruct (Forall2_lookup_l _ _ _ _ _ Hmaps Hs) as (cmap & Hc & Hrows).
  exists emb, cmap. split; [exact He|]. split; [exact Hc|].
  unfold ProteinDataset_getitem, py_index. simpl.
  rewrite He, Hc. simpl.
  rewrite bool_decide_eq_true_2 by congruence. reflexivity.
Qed.

(** C7. In the data cell 12 loads, [sequences] and [contact_maps] have the
    same length; [contact_maps[i]] is a square matrix whose side is
    [len(sequences[i])], the sequence having one letter per selected CA
    atom, ['X'] where [three_to_one] raises; hence for embeddings with one
    row per sequence character the assertion of
    [ProteinDataset.__getitem__] holds at every index and the item is
    returned, for the dataset over the loaded lists and for one over the
    entries selected from both lists at the same indices, as the three
    parts of the split are. *)
Theorem parallel_array_invariant pdb_ids w sequences contact_maps w' :
  load_data parse_pdb three_to_one pdb_ids w = (Ok (sequences, contact_maps), w') ->
  length sequences = length contact_maps /\
  (forall i seq cmap,
      sequences !! i = Some seq ->
      contact_maps !! i = Some cmap ->
      has_shape (String.length seq) (String.length seq) cmap /\
      exists ca_atoms,
        cmap = contact_map_of ca_atoms /\
        String.length seq = length ca_atoms /\
        forall k a, ca_atoms !! k = Some a ->
                    String.get k seq = Some (letter_of three_to_one (atom_resname a))) /\
  (forall esm_embeddings,
      Forall2 (fun (embedding : matrix float32) seq => length embedding = String.length seq)
        esm_embeddings sequences ->
      forall idx, (idx < length sequences)%nat ->
        exists embedding contact_map,
          esm_embeddings !! idx = Some embedding /\
          contact_maps !! idx = Some contact_map /\
          ProteinDataset_getitem
            (mkProteinDataset sequences contact_maps esm_embeddings) idx
            = Ok (embedding, contact_map)) /\
  (forall indices part_sequences part_contact_maps esm_embeddings,
      Forall2 (fun i seq => sequences !! i = Some seq) indices part_sequences ->
      Forall2 (fun i cmap => contact_maps !! i = Some cmap) indices part_contact_maps ->
      Forall2 (fun (embedding : matrix float32) seq => length embedding = String.length seq)
        esm_embeddings part_sequences ->
      forall idx, (idx < length part_sequences)%nat ->
        exists embedding contact_map,
          esm_embeddings !! idx = Some embedding /\
          part_contact_maps !! idx = Some contact_map /\
          ProteinDataset_getitem
            (mkProteinDataset part_sequences part_contact_maps esm_embeddings) idx
            = Ok (embedding, contact_map)).
Proof.
  intros Hload.
  destruct (load_data_spec pdb_ids w) as (ss & cs & w1 & Hl & Hall).
  rewrite Hl in Hload. inversion Hload; subst. clear Hload.
  assert (Forall2 (fun seq (cmap : matrix float32) => length cmap = String.length seq)
            sequences contact_maps) as Hrows.
  { eapply Forall2_impl; [exact Hall|]. intros seq cmap Ho.
    destruct (originates_shape _ _ _ _ Ho) as [Hr _]. exact Hr. }
  split; [eapply Forall2_length, Hall|]. split; [|split].
  - intros i seq cmap Hs Hc.
    pose proof (Forall2_lookup_lr _ _ _ _ _ _ Hall Hs Hc) as Ho.
    split; [eapply originates_shape, Ho|].
    destruct Ho as (f & t & s & ca & _ & _ & _ & _ & _ & Hseq & ->).
    exists ca. split; [reflexivity|].
    destruct (build_seq_spec _ _ _ Hseq) as (Hlen & _ & Hnew).
    simpl in Hlen, Hnew. unfold getResnames in Hlen, Hnew.
    rewrite length_fmap in Hlen. split; [exact Hlen|].
    intros k a Hk. apply Hnew. rewrite list_lookup_fmap, Hk. reflexivity.
  - intros embs Hemb idx Hidx.
    apply getitem_of_rows; assumption.
  - intros indices seqs' maps' embs Hsel1 Hsel2 Hemb idx Hidx.
    apply getitem_of_rows; [|assumption..].
    exact (selection_Forall2 _ _ _ _ Hrows _ _ Hsel1 Hsel2).
Qed.
End LoadingFacts.

(** ** The loading facts on the example data *)


Lemma parsing_failures_skipped_witness :
  (exists e, (parsePDB example_parse "pdb_structures/3GHI.pdb" example_world).1 = Raise e) /\
  exists w',
    extract_sequence_and_contacts example_parse biopython_three_to_one
      "pdb_structures/3GHI.pdb" example_world = (Ok (None, None), w') /\
    forall data,
      load_step example_parse biopython_three_to_one
        "pdb_structures/3GHI.pdb" data example_world = (Ok data, w').
Proof.
  assert (exists e, (parsePDB example_parse "pdb_structures/3GHI.pdb" example_world).1
                    = Raise e) as H
    by (exists (ValueError "could not parse the file"); vm_compute; reflexivity).
  split; [exact H|].
  exact (parsing_failures_skipped example_parse biopython_three_to_one
           "pdb_structures/3GHI.pdb" example_world (or_introl H)).
Defined.

(** The structure of 10001 atoms is filtered out. *)
Example atom_count_filter_example :
  numAtoms example_large_structure = 10001 /\
  extract_sequence_and_contacts example_parse biopython_three_to_one
    "pdb_structures/5MNO.pdb" example_world = (Ok (None, None), example_world).
Proof. split; vm_compute; reflexivity. Qed.

Lemma parallel_array_invariant_witness :
  let w' := (load_data example_parse biopython_three_to_one example_pdb_ids example_world).2 in
  let sequences := ["GAX"] in
  let contact_maps := [example_contact_map] in
  load_data example_parse biopython_three_to_one example_pdb_ids example_world
    = (Ok (sequences, contact_maps), w') /\
  length sequences = length contact_maps /\
  (forall i seq cmap,
      sequences !! i = Some seq ->
      contact_maps !! i = Some cmap ->
      has_shape (String.length seq) (String.length seq) cmap /\
      exists ca_atoms,
        cmap = contact_map_of ca_atoms /\
        String.length seq = length ca_atoms /\
        forall k a, ca_atoms !! k = Some a ->
                    String.get k seq
                    = Some (letter_of biopython_three_to_one (atom_resname a))) /\
  (forall esm_embeddings,
      Forall2 (fun (embedding : matrix float32) seq => length embedding = String.length seq)
        esm_embeddings sequences ->
      forall idx, (idx < length sequences)%nat ->
        exists embedding contact_map,
          esm_embeddings !! idx = Some embedding /\
          contact_maps !! idx = Some contact_map /\
          ProteinDataset_getitem
            (mkProteinDataset sequences contact_maps esm_embeddings) idx
            = Ok (embedding, contact_map)) /\
  (forall indices part_sequences part_contact_maps esm_embeddings,
      Forall2 (fun i seq => sequences !! i = Some seq) indices part_sequences ->
      Forall2 (fun i cmap => contact_maps !! i = Some cmap) indices part_contact_maps ->
      Forall2 (fun (embedding : matrix float32) seq => length embedding = String.length seq)
        esm_embeddings part_sequences ->
      forall idx, (idx < length part_sequences)%nat ->
        exists embedding contact_map,
          esm_embeddings !! idx = Some embedding /\
          part_contact_maps !! idx = Some contact_map /\
          ProteinDataset_getitem
            (mkProteinDataset part_sequences part_contact_maps esm_embeddings) idx
            = Ok (embedding, contact_map)).
Proof.
  intros w' sequences contact_maps.
  assert (load_data example_parse biopython_three_to_one example_pdb_ids example_world
          = (Ok (sequences, contact_maps), w')) as H
    by (vm_compute; reflexivity).
  split; [exact H|].
  exact (parallel_array_invariant example_parse biopython_three_to_one
           example_pdb_ids example_world sequences contact_maps w' H).
Defined.


(** * Binary64 facts behind the contact map *)

Lemma binary_round_aux_opp m e l :
  binary_round_aux prec emax true m e l = SFopp (binary_round_aux prec emax false m e l).
Proof.
  unfold binary_round_aux.
  destruct (shr_fexp prec emax m e l) as [mrs' e'].
  destruct (shr_fexp prec emax _ e' loc_Exact) as [mrs'' e''].
  destruct (shr_m mrs''); [reflexivity| |reflexivity].
  destruct (e'' <=? emax - prec); reflexivity.
Qed.

Lemma binary_round_opp m e :
  binary_round prec emax true m e = SFopp (binary_round prec emax false m e).
Proof.
  unfold binary_round. destruct (shl_align _ _ _) as [mz ez].
  apply binary_round_aux_opp.
Qed.

Lemma binary_normalize_opp m e :
  opp_or_zeros (binary_normalize prec emax m e false)
               (binary_normalize prec emax (- m) e false).
Proof.
  destruct m as [|p|p]; simpl.
  - right. eauto.
  - left. apply binary_round_opp.
  - left. rewrite binary_round_opp.
    destruct (binary_round prec emax false p e) as [[]|[]| |[] ? ?]; reflexivity.
Qed.

Lemma SF64sub_swap x y : opp_or_zeros (SF64sub x y) (SF64sub y x).
Proof.
  destruct x as [sx|sx| |sx mx ex], y as [sy|sy| |sy my ey];
    try (left; destruct sx; reflexivity);
    try (left; destruct sy; reflexivity);
    try (left; destruct sx, sy; reflexivity);
    try (right; destruct sx, sy; simpl; eauto; fail).
  { left. reflexivity. }
  unfold SF64sub, SFsub. rewrite (Z.min_comm ey ex).
  set (a := cond_Zopp sx _). set (b := cond_Zopp sy _).
  replace (b - a) with (- (a - b)) by lia.
  apply binary_normalize_opp.
Qed.

Lemma SF64mul_square_opp z : SF64mul (SFopp z) (SFopp z) = SF64mul z z.
Proof. destruct z as [[]|[]| |[] m e]; reflexivity. Qed.

Lemma SF64mul_square_swap a b :
  opp_or_zeros a b -> SF64mul b b = SF64mul a a.
Proof.
  intros [->|(s & s' & -> & ->)]; [apply SF64mul_square_opp|].
  destruct s, s'; reflexivity.
Qed.

(** The square of a difference does not depend on the order of the
    operands. *)
Lemma sub_square_comm (x y : float) :
  ((x - y) * (x - y) = (y - x) * (y - x))%float.
Proof.
  apply Prim2SF_inj. rewrite !FloatAxioms.mul_spec, !FloatAxioms.sub_spec.
  symmetry. apply SF64mul_square_swap, SF64sub_swap.
Qed.

Lemma getDistance_comm (p q : coord) : getDistance p q = getDistance q p.
Proof.
  destruct p as [[px py] pz], q as [[qx qy] qz]. unfold getDistance.
  rewrite (sub_square_comm px qx), (sub_square_comm py qy), (sub_square_comm pz qz).
  reflexivity.
Qed.




(** * Symmetry and diagonal of the contact map *)

Lemma contact_map_of_entry_cases ca_atoms i j :
  entry (contact_map_of ca_atoms) i j =
    match getCoords ca_atoms !! i, getCoords ca_atoms !! j with
    | Some p, Some q => Some (astype_float32 (getDistance p q <? contact_threshold)%float)
    | _, _ => None
    end.
Proof.
  destruct (getCoords ca_atoms !! i) as [p|] eqn:Hp.
  - destruct (getCoords ca_atoms !! j) as [q|] eqn:Hq.
    + apply (contact_map_of_entry _ _ _ _ _ Hp Hq).
    + unfold contact_map_of, threshold_map, buildDistMatrix, entry.
      rewrite !list_lookup_fmap, Hp. simpl.
      rewrite !list_lookup_fmap, Hq. reflexivity.
  - unfold contact_map_of, threshold_map, buildDistMatrix, entry.
    rewrite !list_lookup_fmap, Hp. reflexivity.
Qed.



Section ContactFacts.
Variable parse_pdb : string -> result Structure.
Variable three_to_one : string -> result ascii.

End ContactFacts.


(** The threshold is strict: two atoms exactly 8.0 apart are not in
    contact, and an atom with a NaN coordinate is in contact with none. *)
Example contact_threshold_is_strict :
  contact_map_of [mkAtom "CA" "GLY" (0, 0, 0)%float; mkAtom "CA" "GLY" (8, 0, 0)%float]
    = [[f32_one; f32_zero]; [f32_zero; f32_one]] /\
  contact_map_of [mkAtom "CA" "GLY" (nan, 0, 0)%float] = [[f32_zero]].
Proof. split; reflexivity. Qed.


(** * find_similar_structures *)















(** C9 at a failing input: the only similar sequence is shorter than the
    input, and the array returned is 2 by 2 for an input of length 3. *)
Theorem similar_structures_shape_failure :
  let result := find_similar_structures "AAA" ["AA"] [f32_ones 2] default_threshold in
  result = Ok (f32_ones 2) /\
  exceeds_threshold "AAA" default_threshold "AA" = true /\
  shape (f32_ones 2) = (2%nat, 2%nat) /\
  String.length "AAA" = 3%nat.
Proof. vm_compute. repeat split. Qed.


(** The mean of a map of ones and a map of zeros is 0.5 everywhere. *)
Example find_similar_structures_example :
  find_similar_structures "AAA" example_database example_database_maps default_threshold
    = Ok (replicate 3 (replicate 3 (S754_finite false 8388608 (-24)))) /\
  similarity "AAA" "ABC" = Ok (float_of_nat 1 / float_of_nat 3)%float.
Proof. split; vm_compute; reflexivity. Qed.


(** * download_pdb_files *)

Section DownloadFacts.
Variable requests_get : string -> result Response.

(** [requests] raises its own exception classes only. *)
Hypothesis requests_get_raises :
  forall url e, requests_get url = Raise e -> is_RequestException e = true.




Lemma download_loop_cons download_dir pdb_id rest w :
  download_loop requests_get download_dir (pdb_id :: rest) w =
    match download_step requests_get download_dir pdb_id w with
    | (Ok _, w1) => download_loop requests_get download_dir rest w1
    | (Raise e, w1) => (Raise e, w1)
    end.
Proof. reflexivity. Qed.


End DownloadFacts.




Example entry_id_of_example :
  entry_id_of "1ABC_1" = "1ABC" /\ entry_id_of "2DEF" = "2DEF" /\
  url_of "1ABC" = "https://files.rcsb.org/download/1ABC.pdb".
Proof. repeat split; reflexivity. Qed.


(** * Binary64 rounding of a product *)

(** ** Shifting with round and sticky bits *)

Lemma iter_pos_nat {A} (f : A -> A) p : forall x,
  SpecFloat.iter_pos f p x = Nat.iter (Pos.to_nat p) f x.
Proof.
  induction p as [p IH|p IH|]; intros x.
  - change (SpecFloat.iter_pos f p~1 x)
      with (SpecFloat.iter_pos f p (SpecFloat.iter_pos f p (f x))).
    rewrite !IH, Pos2Nat.inj_xI, <- Nat.iter_add, <- Nat.iter_succ_r.
    f_equal. lia.
  - change (SpecFloat.iter_pos f p~0 x)
      with (SpecFloat.iter_pos f p (SpecFloat.iter_pos f p x)).
    rewrite !IH, Pos2Nat.inj_xO, <- Nat.iter_add.
    f_equal. lia.
  - reflexivity.
Qed.

Lemma shr_1_nonneg m r s :
  0 <= m ->
  shr_1 (Build_shr_record m r s) = Build_shr_record (m / 2) (Z.odd m) (r || s).
Proof.
  intros Hm. unfold shr_1.
  destruct m as [|p|p]; [reflexivity| |lia].
  destruct p as [p|p|]; simpl.
  - f_equal. rewrite Pos2Z.inj_xI.
    apply Z.div_unique with 1; lia.
  - f_equal. rewrite Pos2Z.inj_xO.
    apply Z.div_unique with 0; lia.
  - reflexivity.
Qed.

(** The record after [j] shifts of a non-negative mantissa. *)
Lemma iter_shr_1 m j :
  0 <= m ->
  Nat.iter (S j) shr_1 (Build_shr_record m false false) =
    Build_shr_record (m / 2 ^ Z.of_nat (S j))
      (Z.testbit m (Z.of_nat j))
      (negb (m mod 2 ^ Z.of_nat j =? 0)).
Proof.
  intros Hm. induction j as [|j IH].
  - change (Nat.iter 1 shr_1 (Build_shr_record m false false))
      with (shr_1 (Build_shr_record m false false)).
    rewrite shr_1_nonneg by exact Hm.
    change (Z.of_nat 1) with 1. change (Z.of_nat 0) with 0.
    rewrite Z.pow_1_r, Z.pow_0_r, Z.mod_1_r. rewrite Z.bit0_odd. reflexivity.
  - rewrite Nat.iter_succ, IH.
    rewrite shr_1_nonneg by (apply Z.div_pos; lia).
    f_equal.
    + rewrite Z.div_div by lia.
      replace (Z.of_nat (S (S j))) with (Z.of_nat (S j) + 1) by lia.
      rewrite Z.pow_add_r by lia. reflexivity.
    + rewrite Z.testbit_odd, Z.shiftr_div_pow2 by lia. reflexivity.
    + replace (Z.of_nat (S j)) with (Z.of_nat j + 1) by lia.
      rewrite Z.pow_add_r, Z.pow_1_r by lia.
      rewrite Z.rem_mul_r by lia.
      rewrite Z.testbit_odd, Z.shiftr_div_pow2 by lia.
      rewrite (Zmod_odd (m / 2 ^ Z.of_nat j)).
      pose proof (Z.mod_pos_bound m (2 ^ Z.of_nat j) ltac:(lia)).
      assert (0 < 2 ^ Z.of_nat j) by lia.
      destruct (Z.odd (m / 2 ^ Z.of_nat j));
        destruct (Z.eqb_spec (m mod 2 ^ Z.of_nat j) 0) as [E'|E']; simpl;
        symmetry.
      all: first [ apply negb_true_iff, Z.eqb_neq; nia
                 | apply negb_false_iff, Z.eqb_eq; nia ].
Qed.

(** ** Number of digits *)

Lemma digits2_pos_bounds p :
  2 ^ (Zpos (digits2_pos p) - 1) <= Zpos p < 2 ^ Zpos (digits2_pos p).
Proof.
  induction p as [p IH|p IH|]; cbn [digits2_pos].
  1, 2: rewrite Pos2Z.inj_succ.
  1, 2: assert (2 ^ (Z.succ (Zpos (digits2_pos p)) - 1) = 2 * 2 ^ (Zpos (digits2_pos p) - 1)) as ->
      by (rewrite <- Z.pow_succ_r by lia; f_equal; lia).
  1, 2: rewrite Z.pow_succ_r by lia.
  1, 2: generalize dependent (2 ^ (Zpos (digits2_pos p) - 1));
    generalize dependent (2 ^ Zpos (digits2_pos p)); intros hi lo IH.
  - rewrite Pos2Z.inj_xI. lia.
  - rewrite Pos2Z.inj_xO. lia.
  - simpl. lia.
Qed.

Lemma Zdigits2_bounds P :
  0 < P -> 2 ^ (Zdigits2 P - 1) <= P < 2 ^ Zdigits2 P.
Proof.
  intros HP. destruct P as [|p|p]; [lia| |lia].
  apply digits2_pos_bounds.
Qed.

Lemma Zdigits2_pos P : 0 < P -> 0 < Zdigits2 P.
Proof. intros HP. destruct P; [lia| |lia]. reflexivity. Qed.

Lemma Zdigits2_unique P d :
  2 ^ (d - 1) <= P < 2 ^ d -> 0 < d -> Zdigits2 P = d.
Proof.
  intros [Hlo Hhi] Hd.
  assert (0 < P) as HP by (pose proof (Z.pow_pos_nonneg 2 (d - 1)); lia).
  pose proof (Zdigits2_bounds P HP) as [Hlo' Hhi'].
  pose proof (Zdigits2_pos P HP) as Hpos.
  destruct (Z.lt_trichotomy (Zdigits2 P) d) as [Hlt|[Heq|Hgt]]; [|exact Heq|].
  - assert (2 ^ Zdigits2 P <= 2 ^ (d - 1)) by (apply Z.pow_le_mono_r; lia). lia.
  - assert (2 ^ d <= 2 ^ (Zdigits2 P - 1)) by (apply Z.pow_le_mono_r; lia). lia.
Qed.

Lemma Zdigits2_mono P Q : 0 < P -> P <= Q -> Zdigits2 P <= Zdigits2 Q.
Proof.
  intros HP HPQ.
  pose proof (Zdigits2_bounds P HP) as [Hlo _].
  pose proof (Zdigits2_bounds Q ltac:(lia)) as [_ Hhi].
  pose proof (Zdigits2_pos P HP).
  destruct (Z.le_gt_cases (Zdigits2 P) (Zdigits2 Q)) as [H'|H']; [exact H'|].
  assert (2 ^ Zdigits2 Q <= 2 ^ (Zdigits2 P - 1)) by (apply Z.pow_le_mono_r; lia). lia.
Qed.

(** ** Rounding to nearest, ties to even *)

Lemma rne_bounds P k : P / 2 ^ k <= rne P k <= P / 2 ^ k + 1.
Proof.
  unfold rne.
  destruct (Z.testbit P (k - 1)); [|lia].
  destruct (P mod 2 ^ (k - 1) =? 0); [|lia].
  destruct (Z.even (P / 2 ^ k)); lia.
Qed.

(** The remainder of [P] by [2^k], split at its leading bit. *)
Lemma mod_pow2_split P k :
  0 < k ->
  P mod 2 ^ k =
    P mod 2 ^ (k - 1) + (if Z.testbit P (k - 1) then 2 ^ (k - 1) else 0).
Proof.
  intros Hk.
  replace (2 ^ k) with (2 ^ (k - 1) * 2).
  2: { rewrite <- (Z.pow_1_r 2) at 2. rewrite <- Z.pow_add_r by lia. f_equal. lia. }
  rewrite Z.rem_mul_r by lia.
  rewrite Z.testbit_odd, Z.shiftr_div_pow2 by lia.
  rewrite (Zmod_odd (P / 2 ^ (k - 1))).
  destruct (Z.odd (P / 2 ^ (k - 1))); lia.
Qed.

Lemma rne_mono P Q k :
  0 < k -> 0 <= P -> P <= Q -> rne P k <= rne Q k.
Proof.
  intros Hk HP HPQ.
  assert (0 < 2 ^ k) as Hpow by lia.
  assert (P / 2 ^ k <= Q / 2 ^ k) as Hq by (apply Z.div_le_mono; lia).
  pose proof (rne_bounds P k) as HbP. pose proof (rne_bounds Q k) as HbQ.
  destruct (Z.eq_dec (P / 2 ^ k) (Q / 2 ^ k)) as [Heq|Hne]; [|lia].
  assert (P mod 2 ^ k <= Q mod 2 ^ k) as Hrem.
  { rewrite (Z.mod_eq P), (Z.mod_eq Q) by lia. rewrite Heq. lia. }
  rewrite (mod_pow2_split P k Hk), (mod_pow2_split Q k Hk) in Hrem.
  pose proof (Z.mod_pos_bound P (2 ^ (k - 1)) ltac:(lia)) as HrP.
  pose proof (Z.mod_pos_bound Q (2 ^ (k - 1)) ltac:(lia)) as HrQ.
  unfold rne. rewrite <- Heq.
  destruct (Z.testbit P (k - 1)), (Z.testbit Q (k - 1));
    destruct (Z.eqb_spec (P mod 2 ^ (k - 1)) 0), (Z.eqb_spec (Q mod 2 ^ (k - 1)) 0);
    destruct (Z.even (P / 2 ^ k)); lia.
Qed.

Lemma round53_small P : Zdigits2 P <= 53 -> round53 P = P.
Proof.
  intros H. unfold round53.
  destruct (Z.leb_spec (Zdigits2 P - 53) 0); [reflexivity|lia].
Qed.

Lemma round53_large P :
  53 < Zdigits2 P -> round53 P = rne P (Zdigits2 P - 53) * 2 ^ (Zdigits2 P - 53).
Proof.
  intros H. unfold round53.
  destruct (Z.leb_spec (Zdigits2 P - 53) 0); [lia|reflexivity].
Qed.

(** With [d] digits and [53 < d], the rounded value lies between the two
    powers of two that frame [P]. *)
Lemma round53_frame P :
  0 < P -> 53 < Zdigits2 P ->
  2 ^ (Zdigits2 P - 1) <= round53 P <= 2 ^ Zdigits2 P.
Proof.
  intros HP Hd. rewrite (round53_large P Hd).
  set (d := Zdigits2 P) in *. set (k := d - 53).
  pose proof (Zdigits2_bounds P HP) as [Hlo Hhi]. fold d in Hlo, Hhi.
  assert (0 < 2 ^ k) as Hpow by (apply Z.pow_pos_nonneg; lia).
  assert (2 ^ (d - 1) = 2 ^ 52 * 2 ^ k) as E1
    by (rewrite <- Z.pow_add_r by lia; f_equal; lia).
  assert (2 ^ d = 2 ^ 53 * 2 ^ k) as E2
    by (rewrite <- Z.pow_add_r by lia; f_equal; lia).
  pose proof (rne_bounds P k) as [Hb1 Hb2].
  assert (2 ^ 52 <= P / 2 ^ k) as Hq1.
  { apply Z.div_le_lower_bound; lia. }
  assert (P / 2 ^ k < 2 ^ 53) as Hq2.
  { apply Z.div_lt_upper_bound; lia. }
  rewrite E1, E2. split; apply Z.mul_le_mono_nonneg_r; lia.
Qed.

Lemma round53_mono P Q : 0 < P -> P <= Q -> round53 P <= round53 Q.
Proof.
  intros HP HPQ.
  pose proof (Zdigits2_mono P Q HP HPQ) as Hd.
  destruct (Z.le_gt_cases (Zdigits2 Q) 53) as [HQ|HQ].
  - rewrite !round53_small by lia. exact HPQ.
  - destruct (Z.le_gt_cases (Zdigits2 P) 53) as [HP'|HP'].
    + rewrite (round53_small P HP').
      pose proof (round53_frame Q ltac:(lia) HQ) as [Hlo _].
      pose proof (Zdigits2_bounds P HP) as [_ Hhi].
      assert (2 ^ Zdigits2 P <= 2 ^ (Zdigits2 Q - 1)) by (apply Z.pow_le_mono_r; lia).
      lia.
    + destruct (Z.eq_dec (Zdigits2 P) (Zdigits2 Q)) as [E|E].
      * rewrite (round53_large P HP'), (round53_large Q HQ), E.
        apply Z.mul_le_mono_nonneg_r; [apply Z.pow_nonneg; lia|].
        apply rne_mono; lia.
      * pose proof (round53_frame P HP HP') as [_ Hhi].
        pose proof (round53_frame Q ltac:(lia) HQ) as [Hlo _].
        assert (2 ^ Zdigits2 P <= 2 ^ (Zdigits2 Q - 1)) by (apply Z.pow_le_mono_r; lia).
        lia.
Qed.


(** ** The rounding step of the binary64 operations *)

Lemma shr_positive m e k j :
  0 <= m -> k = Z.of_nat (S j) ->
  shr (Build_shr_record m false false) e k =
    (Build_shr_record (m / 2 ^ k) (Z.testbit m (k - 1)) (negb (m mod 2 ^ (k - 1) =? 0)),
     e + k).
Proof.
  intros Hm ->. unfold shr.
  destruct (Z.of_nat (S j)) as [|p|p] eqn:Hk; [lia| |lia].
  rewrite iter_pos_nat.
  assert (Pos.to_nat p = S j) as -> by lia.
  rewrite iter_shr_1 by exact Hm. rewrite Hk.
  replace (Z.pos p - 1) with (Z.of_nat j) by lia. reflexivity.
Qed.

Lemma round_nearest_even_rne P k :
  round_nearest_even (P / 2 ^ k)
    (loc_of_shr_record
       (Build_shr_record (P / 2 ^ k) (Z.testbit P (k - 1))
          (negb (P mod 2 ^ (k - 1) =? 0)))) = rne P k.
Proof.
  unfold rne, loc_of_shr_record, round_nearest_even.
  destruct (Z.testbit P (k - 1)), (P mod 2 ^ (k - 1) =? 0); reflexivity.
Qed.

Lemma binary_round_aux_round53 P e :
  0 < P -> 53 < Zdigits2 P ->
  -1074 <= e + (Zdigits2 P - 53) ->
  e + (Zdigits2 P - 53) + 1 <= 971 ->
  exists m' e',
    binary_round_aux prec emax false P e loc_Exact = S754_finite false m' e' /\
    2 ^ 52 <= Zpos m' < 2 ^ 53 /\
    e + (Zdigits2 P - 53) <= e' <= e + (Zdigits2 P - 53) + 1 /\
    Zpos m' * 2 ^ (e' - e) = round53 P.
Proof.
  intros HP Hd Hlo Hhi.
  set (d := Zdigits2 P) in *. set (k := d - 53) in *.
  assert (0 < k) as Hk by lia.
  assert (0 < 2 ^ k) as Hpow by (apply Z.pow_pos_nonneg; lia).
  pose proof (Zdigits2_bounds P HP) as [HPlo HPhi]. fold d in HPlo, HPhi.
  assert (2 ^ (d - 1) = 2 ^ 52 * 2 ^ k) as E1
    by (rewrite <- Z.pow_add_r by lia; f_equal; lia).
  assert (2 ^ d = 2 ^ 53 * 2 ^ k) as E2
    by (rewrite <- Z.pow_add_r by lia; f_equal; lia).
  assert (2 ^ 52 <= P / 2 ^ k) as Hq1 by (apply Z.div_le_lower_bound; lia).
  assert (P / 2 ^ k < 2 ^ 53) as Hq2 by (apply Z.div_lt_upper_bound; lia).
  pose proof (rne_bounds P k) as [Hb1 Hb2].
  rewrite (round53_large P Hd). fold d. fold k.
  unfold binary_round_aux.
  assert (shr_fexp prec emax P e loc_Exact =
          (Build_shr_record (P / 2 ^ k) (Z.testbit P (k - 1))
             (negb (P mod 2 ^ (k - 1) =? 0)), e + k)) as ->.
  { unfold shr_fexp, shr_record_of_loc, fexp, SpecFloat.emin.
    fold d. change prec with 53. change emax with 1024.
    replace (Z.max (d + e - 53) (3 - 1024 - 53) - e) with k by lia.
    apply (shr_positive P e k (Z.to_nat (k - 1))); lia. }
  cbn [shr_m]. rewrite round_nearest_even_rne.
  set (m1 := rne P k) in *.
  destruct (Z.eq_dec m1 (2 ^ 53)) as [Hm1|Hm1].
  - (* the mantissa overflows to [2^53] and is shifted once more *)
    assert (Zdigits2 m1 = 54) as Hd1.
    { rewrite Hm1. reflexivity. }
    assert (shr_fexp prec emax m1 (e + k) loc_Exact =
            (Build_shr_record (2 ^ 52) false false, e + k + 1)) as ->.
    { unfold shr_fexp, shr_record_of_loc, fexp, SpecFloat.emin.
      rewrite Hd1. change prec with 53. change emax with 1024.
      replace (Z.max (54 + (e + k) - 53) (3 - 1024 - 53) - (e + k)) with 1 by lia.
      rewrite (shr_positive m1 (e + k) 1 0) by lia.
      rewrite Hm1. reflexivity. }
    cbn [shr_m]. change (2 ^ 52) with (Zpos 4503599627370496).
    change emax with 1024. change prec with 53.
    destruct (Z.leb_spec (e + k + 1) (1024 - 53)); [|lia].
    eexists _, _. split; [reflexivity|]. split; [lia|]. split; [lia|].
    replace (e + k + 1 - e) with (k + 1) by lia.
    rewrite Z.pow_add_r by lia. rewrite Hm1. lia.
  - assert (Zdigits2 m1 = 53) as Hd1.
    { apply Zdigits2_unique; lia. }
    assert (shr_fexp prec emax m1 (e + k) loc_Exact =
            (Build_shr_record m1 false false, e + k)) as ->.
    { unfold shr_fexp, shr_record_of_loc, fexp, SpecFloat.emin.
      rewrite Hd1. change prec with 53. change emax with 1024.
      replace (Z.max (53 + (e + k) - 53) (3 - 1024 - 53) - (e + k)) with 0 by lia.
      reflexivity. }
    cbn [shr_m].
    destruct m1 as [|m'|m'] eqn:Em1; [lia| |lia].
    change emax with 1024. change prec with 53.
    destruct (Z.leb_spec (e + k) (1024 - 53)); [|lia].
    exists m', (e + k). split; [reflexivity|]. split; [lia|]. split; [lia|].
    replace (e + k - e) with k by lia. reflexivity.
Qed.

Lemma binary_round_aux_exact m e :
  Zdigits2 (Zpos m) = 53 -> -1074 <= e <= 971 ->
  binary_round_aux prec emax false (Zpos m) e loc_Exact = S754_finite false m e.
Proof.
  intros Hd He. unfold binary_round_aux.
  assert (shr_fexp prec emax (Zpos m) e loc_Exact =
          (Build_shr_record (Zpos m) false false, e)) as Hshr.
  { unfold shr_fexp, shr_record_of_loc, fexp, SpecFloat.emin.
    rewrite Hd. change prec with 53. change emax with 1024.
    replace (Z.max (53 + e - 53) (3 - 1024 - 53) - e) with 0 by lia.
    reflexivity. }
  rewrite Hshr. cbn [shr_m loc_of_shr_record round_nearest_even].
  rewrite Hshr. cbn [shr_m].
  change emax with 1024. change prec with 53.
  destruct (Z.leb_spec e (1024 - 53)); [reflexivity|lia].
Qed.

(** Rounding up adds at most half a unit of the last place. *)
Lemma rne_upper P k :
  0 < k -> 0 <= P -> rne P k * 2 ^ k <= P + 2 ^ (k - 1).
Proof.
  intros Hk HP.
  assert (0 < 2 ^ (k - 1)) as Hpow by (apply Z.pow_pos_nonneg; lia).
  assert (2 ^ k = 2 * 2 ^ (k - 1)) as E
    by (rewrite <- Z.pow_succ_r by lia; f_equal; lia).
  pose proof (Z.div_mod P (2 ^ k) ltac:(lia)) as Hdm.
  pose proof (mod_pow2_split P k Hk) as Hsplit.
  pose proof (Z.mod_pos_bound P (2 ^ (k - 1)) ltac:(lia)) as Hr.
  unfold rne. destruct (Z.testbit P (k - 1)).
  - destruct (P mod 2 ^ (k - 1) =? 0); [destruct (Z.even (P / 2 ^ k))|]; nia.
  - nia.
Qed.

Lemma round53_upper P :
  0 < P -> 53 < Zdigits2 P -> round53 P <= P + 2 ^ (Zdigits2 P - 54).
Proof.
  intros HP Hd. rewrite (round53_large P Hd).
  replace (Zdigits2 P - 54) with (Zdigits2 P - 53 - 1) by lia.
  apply rne_upper; lia.
Qed.

(** Any multiple of a power of two with at most 53 significant bits is
    not changed. *)
Lemma round53_exact_any m s :
  0 < m < 2 ^ 53 -> 0 <= s -> round53 (m * 2 ^ s) = m * 2 ^ s.
Proof.
  intros [Hlo Hhi] Hs.
  pose proof (Zdigits2_bounds m Hlo) as [Hdlo Hdhi].
  pose proof (Zdigits2_pos m Hlo) as Hdpos.
  set (dm := Zdigits2 m) in *.
  assert (dm <= 53) as Hdm.
  { destruct (Z.le_gt_cases dm 53) as [H|H]; [exact H|].
    assert (2 ^ 53 <= 2 ^ (dm - 1)) by (apply Z.pow_le_mono_r; lia). lia. }
  assert (0 < 2 ^ s) as Hpow by (apply Z.pow_pos_nonneg; lia).
  assert (Zdigits2 (m * 2 ^ s) = dm + s) as Hd.
  { apply Zdigits2_unique; [|lia].
    replace (dm + s - 1) with (dm - 1 + s) by lia.
    rewrite !Z.pow_add_r by lia. nia. }
  destruct (Z.le_gt_cases (dm + s) 53) as [Hsmall|Hlarge].
  - apply round53_small. lia.
  - rewrite round53_large by lia. rewrite Hd.
    set (k := dm + s - 53). assert (0 < k <= s) as Hk by (unfold k; lia).
    assert (m * 2 ^ s = (m * 2 ^ (s - k)) * 2 ^ k) as E.
    { rewrite <- Z.mul_assoc, <- Z.pow_add_r by lia. do 2 f_equal. lia. }
    assert (0 < 2 ^ k) as Hpowk by (apply Z.pow_pos_nonneg; lia).
    unfold rne.
    assert (Z.testbit (m * 2 ^ s) (k - 1) = false) as ->.
    { rewrite Z.mul_pow2_bits_low by lia. reflexivity. }
    rewrite E at 1. rewrite Z.div_mul by lia. lia.
Qed.

(** ** [float(n)] and the product with a constant *)

Lemma Prim2SF_float_of_nat n :
  (0 < n)%nat -> Z.of_nat n < 2 ^ 63 ->
  exists m e,
    Prim2SF (float_of_nat n) = S754_finite false m e /\
    2 ^ 52 <= Zpos m < 2 ^ 53 /\
    -52 <= e <= 11 /\
    (e <= 0 -> Zpos m = Z.of_nat n * 2 ^ (- e)) /\
    (0 < e -> Zpos m * 2 ^ e - 2 ^ (e - 1) <= Z.of_nat n).
Proof.
  intros Hn Hlt. unfold float_of_nat. rewrite of_uint63_spec, of_Z_spec.
  rewrite Z.mod_small by (change wB with (2 ^ 63); lia).
  destruct (Z.of_nat n) as [|p|p] eqn:Hp; [lia| |lia].
  pose proof (digits2_pos_bounds p) as [Hlo Hhi].
  cbn [binary_normalize Zdigits2]. unfold binary_round.
  set (d := Zpos (digits2_pos p)) in *.
  assert (0 < d <= 63) as Hd.
  { split; [unfold d; lia|].
    destruct (Z.le_gt_cases d 63) as [H|H]; [exact H|].
    assert (2 ^ 63 <= 2 ^ (d - 1)) by (apply Z.pow_le_mono_r; lia). lia. }
  assert (fexp prec emax (d + 0) = d - 53) as ->.
  { unfold fexp, SpecFloat.emin. change prec with 53. change emax with 1024. lia. }
  unfold shl_align.
  destruct (d - 53 - 0) as [|q|q] eqn:Hq.
  - (* exactly 53 bits *)
    assert (d = 53) as Hd53 by lia. rewrite Hd53 in *.
    change (53 - 1) with 52 in Hlo.
    exists p, 0. split; [|split; [lia|split; [lia|split]]].
    + apply binary_round_aux_exact; [|lia]. apply Zdigits2_unique; lia.
    + intros _. simpl. lia.
    + lia.
  - (* more than 53 bits: the conversion rounds *)
    assert (Zdigits2 (Zpos p) = d) as HdP by reflexivity.
    destruct (binary_round_aux_round53 (Zpos p) 0 ltac:(lia) ltac:(lia)
                ltac:(lia) ltac:(lia)) as (m' & e' & -> & Hm' & He' & Hval).
    rewrite HdP in He'.
    exists m', e'. split; [reflexivity|]. split; [exact Hm'|].
    split; [lia|]. split; [lia|]. intros _.
    rewrite Z.sub_0_r in Hval. rewrite Hval.
    pose proof (round53_upper (Zpos p) ltac:(lia) ltac:(lia)) as Hup.
    rewrite HdP in Hup.
    assert (2 ^ (d - 54) <= 2 ^ (e' - 1)) by (apply Z.pow_le_mono_r; lia).
    lia.
  - (* fewer than 53 bits: the mantissa is shifted left *)
    assert (0 < 2 ^ (53 - d)) as Hpow by (apply Z.pow_pos_nonneg; lia).
    assert (2 ^ 53 = 2 ^ d * 2 ^ (53 - d)) as E53
      by (rewrite <- Z.pow_add_r by lia; f_equal; lia).
    assert (2 ^ 52 = 2 ^ (d - 1) * 2 ^ (53 - d)) as E52
      by (rewrite <- Z.pow_add_r by lia; f_equal; lia).
    assert (Zpos (Pos.iter xO p q) = Zpos p * 2 ^ (53 - d)) as Hval.
    { change (Pos.iter xO p q) with (shift_pos q p).
      rewrite shift_pos_correct, Z.pow_pos_fold.
      replace (Z.pos q) with (53 - d) by lia. lia. }
    exists (Pos.iter xO p q), (d - 53).
    split; [|split; [rewrite Hval; nia|split; [lia|split]]].
    + apply binary_round_aux_exact; [|lia].
      apply Zdigits2_unique; [|lia]. rewrite Hval.
      change (53 - 1) with 52. nia.
    + intros _. rewrite Hval. f_equal. f_equal. lia.
    + lia.
Qed.

(** The integer part of [m * 2^e'], from the value scaled by [2^-e]. *)
Lemma truncate_scaled m e e' :
  0 <= m -> e <= 0 -> e <= e' ->
  (if 0 <=? e' then Z.shiftl m e' else Z.shiftr m (- e')) = (m * 2 ^ (e' - e)) / 2 ^ (- e).
Proof.
  intros Hm He Hee.
  assert (0 < 2 ^ (- e)) as Hpow by (apply Z.pow_pos_nonneg; lia).
  destruct (Z.leb_spec 0 e') as [H|H].
  - rewrite Z.shiftl_mul_pow2 by lia.
    replace (e' - e) with (e' + - e) by lia.
    rewrite Z.pow_add_r by lia. rewrite Z.mul_assoc, Z.div_mul by lia. reflexivity.
  - rewrite Z.shiftr_div_pow2 by lia.
    assert (0 < 2 ^ (e' - e)) as Hpow' by (apply Z.pow_pos_nonneg; lia).
    replace (2 ^ (- e)) with (2 ^ (- e') * 2 ^ (e' - e))
      by (rewrite <- Z.pow_add_r by lia; f_equal; lia).
    rewrite Z.div_mul_cancel_r by lia. reflexivity.
Qed.

Lemma py_int_product (c x : float) mc m e :
  Prim2SF c = S754_finite false mc (-53) ->
  2 ^ 52 <= Zpos mc < 2 ^ 53 ->
  Prim2SF x = S754_finite false m e ->
  2 ^ 52 <= Zpos m < 2 ^ 53 ->
  -52 <= e <= 11 ->
  py_int (c * x)%float = Ok (int_of_product (Zpos mc) (Zpos m) e).
Proof.
  intros Hc Hmc Hx Hm He.
  unfold py_int. rewrite FloatAxioms.mul_spec, Hc, Hx.
  unfold SF64mul, SFmul. cbn [xorb].
  set (P := Zpos (mc * m)).
  assert (P = Zpos mc * Zpos m) as HP by reflexivity.
  assert (2 ^ 104 <= P < 2 ^ 106) as HPb.
  { rewrite HP. change (2 ^ 104) with (2 ^ 52 * 2 ^ 52).
    change (2 ^ 106) with (2 ^ 53 * 2 ^ 53). nia. }
  assert (105 <= Zdigits2 P <= 106) as HdP.
  { split.
    - change 105 with (Zdigits2 (2 ^ 104)). apply Zdigits2_mono; lia.
    - change 106 with (Zdigits2 (2 ^ 106 - 1)). apply Zdigits2_mono; lia. }
  destruct (binary_round_aux_round53 P (-53 + e) ltac:(lia) ltac:(lia)
              ltac:(lia) ltac:(lia)) as (m' & e' & -> & _ & Hee & Hm').
  f_equal. unfold int_of_product.
  rewrite <- HP, <- Hm'.
  rewrite (truncate_scaled (Zpos m') (-53 + e) e') by lia.
  f_equal. f_equal. lia.
Qed.

(** ** The two bounds of the splitting cell *)

Lemma int_of_product_mono mc mc' m e :
  0 < mc <= mc' -> 0 < m -> e <= 53 ->
  0 <= int_of_product mc m e <= int_of_product mc' m e.
Proof.
  intros Hmc Hm He. unfold int_of_product.
  assert (0 < 2 ^ (53 - e)) as Hpow by (apply Z.pow_pos_nonneg; lia).
  assert (round53 (mc * m) <= round53 (mc' * m)) as Hr
    by (apply round53_mono; nia).
  assert (0 < round53 (mc * m)) as Hr0.
  { assert (round53 1 <= round53 (mc * m)) by (apply round53_mono; nia).
    change (round53 1) with 1 in *. lia. }
  split.
  - apply Z.div_pos; lia.
  - apply Z.div_le_mono; [lia|exact Hr].
Qed.




(** * The splitting cell *)

Lemma py_slice_nat {A} (l : list A) (a b : nat) :
  (a <= b <= length l)%nat ->
  py_slice l (Z.of_nat a) (Z.of_nat b) = drop a (take b l).
Proof.
  intros H. unfold py_slice, slice_bound.
  destruct (Z.ltb_spec (Z.of_nat a) 0); [lia|].
  destruct (Z.ltb_spec (Z.of_nat b) 0); [lia|].
  rewrite !Z.min_l by lia. rewrite !Nat2Z.id. reflexivity.
Qed.

Lemma py_slice_to_nat {A} (l : list A) (a : nat) :
  (a <= length l)%nat -> py_slice_to l (Z.of_nat a) = take a l.
Proof.
  intros H. unfold py_slice_to. change 0 with (Z.of_nat 0).
  rewrite (py_slice_nat l 0 a) by lia. apply drop_0.
Qed.

Lemma py_slice_from_nat {A} (l : list A) (b : nat) :
  (b <= length l)%nat -> py_slice_from l (Z.of_nat b) = drop b l.
Proof.
  intros H. unfold py_slice_from. rewrite (py_slice_nat l b (length l)) by lia.
  rewrite take_ge by lia. reflexivity.
Qed.

(** The three slices make up the list again. *)
Lemma slices_app {A} (l : list A) (a b : nat) :
  (a <= b <= length l)%nat ->
  take a l ++ drop a (take b l) ++ drop b l = l.
Proof.
  intros H. rewrite app_assoc.
  replace (take a l) with (take a (take b l)) by (rewrite take_take; f_equal; lia).
  rewrite take_drop. apply take_drop.
Qed.

Lemma py_select_spec {A} (l : list A) idxs :
  Forall (fun i => (i < length l)%nat) idxs ->
  exists xs, py_select l idxs = Ok xs /\
             Forall2 (fun i x => l !! i = Some x) idxs xs.
Proof.
  induction idxs as [|i rest IH]; intros H.
  - exists []. split; [reflexivity|constructor].
  - apply Forall_cons in H as [Hi Hrest].
    destruct (IH Hrest) as (xs & Hxs & Hall).
    destruct (lookup_lt_is_Some_2 l i Hi) as [x Hx].
    exists (x :: xs). split.
    + simpl. unfold py_index. rewrite Hx. simpl. rewrite Hxs. reflexivity.
    + constructor; assumption.
Qed.

Section SplittingFacts.
Variable shuffle : list nat -> list nat.

(** [np.random.shuffle] permutes its argument. *)
Hypothesis shuffle_permutation : forall l, shuffle l ≡ₚ l.

End SplittingFacts.


(** The binary64 product is not the exact one: 0.7 * 90 is just below 63. *)
Example train_end_of_90 : train_end_of 90 = Ok 62.
Proof. reflexivity. Qed.

(** The sizes of the notebook's run: 17 sequences give 11, 3 and 3. *)
Example split_sizes_17 : train_end_of 17 = Ok 11 /\ val_end_of 17 = Ok 14.
Proof. split; reflexivity. Qed.


(** * ContactPredictionModel.forward *)

Section ModelFacts.
Variable F : Type.
Variable fzero : F.
Variables fadd fmul : F -> F -> F.
Variables relu sigmoid : F -> F.

Local Open Scope nat_scope.


(** *** The pairwise tensor *)


Lemma pairwise_emb_of_shape embedding B L D :
  tensor3_shape B L D embedding ->
  length (pairwise_emb_of F embedding) = B /\
  Forall (fun p : list (matrix F) =>
            tensor3_shape L L (2 * D) p) (pairwise_emb_of F embedding).
Proof.
  intros [HB Hall]. unfold pairwise_emb_of.
  destruct (size3 F embedding) as [[B' L'] D'] eqn:Hsize.
  destruct embedding as [|m0 rest].
  { simpl in *. subst B. split; [reflexivity|constructor]. }
  assert (L' = L) as ->.
  { unfold size3 in Hsize. inversion Hsize; subst.
    apply Forall_cons in Hall as [[H0 _] _]. exact H0. }
  unfold cat_last, emb_i_of, emb_j_of. split.
  - rewrite length_zip_with, !length_fmap. lia.
  - rewrite Forall_lookup. intros b p Hp.
    apply lookup_zip_with_Some in Hp as (pi & pj & -> & Hpi & Hpj).
    rewrite list_lookup_fmap in Hpi, Hpj.
    destruct ((m0 :: rest) !! b) as [m|] eqn:Hm; [|discriminate].
    simpl in Hpi, Hpj. inversion Hpi; subst pi. inversion Hpj; subst pj.
    assert (has_shape L D m) as [HL HD]
      by (rewrite Forall_lookup in Hall; eapply Hall, Hm).
    split.
    + rewrite length_zip_with, length_fmap, length_replicate. lia.
    + rewrite Forall_lookup. intros i q Hq.
      apply lookup_zip_with_Some in Hq as (qi & qj & -> & Hqi & Hqj).
      rewrite list_lookup_fmap in Hqi.
      destruct (m !! i) as [ri|] eqn:Hri; [|discriminate].
      simpl in Hqi. inversion Hqi; subst qi.
      apply lookup_replicate in Hqj as [-> _].
      split.
      * rewrite length_zip_with, length_replicate. lia.
      * rewrite Forall_lookup. intros j v Hv.
        apply lookup_zip_with_Some in Hv as (vi & vj & -> & Hvi & Hvj).
        apply lookup_replicate in Hvi as [-> _].
        rewrite length_app.
        rewrite Forall_lookup in HD.
        rewrite (HD _ _ Hri), (HD _ _ Hvj). lia.
Qed.

(** *** Layout and layers *)

Lemma permute_0312_shape C B L t :
  length t = B ->
  Forall (fun p : list (matrix F) => tensor3_shape L L C p) t ->
  tensor4_shape B C L L (permute_0312 F fzero C t).
Proof.
  intros HB Hall. unfold permute_0312. split; [rewrite length_fmap; exact HB|].
  apply Forall_fmap. eapply Forall_impl; [exact Hall|].
  intros p [HL Hrows]. simpl. split; [rewrite length_fmap; apply length_seq|].
  apply Forall_fmap, Forall_forall. intros c _. simpl.
  split; [rewrite length_fmap; exact HL|].
  apply Forall_fmap. eapply Forall_impl; [exact Hrows|].
  intros row [Hrow _]. simpl. rewrite length_fmap. exact Hrow.
Qed.

Lemma height_width C H W (x : list (matrix F)) :
  0 < C -> 0 < H -> tensor3_shape C H W x ->
  height F x = H /\ width F x = W.
Proof.
  intros HC HH [Hlen Hall].
  destruct x as [|ch x']; [simpl in Hlen; lia|].
  apply Forall_cons in Hall as [[Hh Hw] _]. simpl.
  split; [exact Hh|].
  destruct ch as [|row ch']; [simpl in Hh; lia|].
  apply Forall_cons in Hw as [Hrow _]. exact Hrow.
Qed.

(** A layer with kernel size 3 and padding 1 keeps height and width. *)
Lemma conv2d_image_shape conv H W x :
  kernel_size F conv = 3 -> padding F conv = 1 ->
  0 < in_channels F conv -> 0 < H -> 0 < W ->
  tensor3_shape (in_channels F conv) H W x ->
  exists y, conv2d_image F fzero fadd fmul conv x = Ok y /\
            tensor3_shape (out_channels F conv) H W y.
Proof.
  intros Hk Hp HC HH HW Hx.
  destruct (height_width _ H W x HC HH Hx) as [Hh Hw].
  destruct Hx as [Hlen Hall].
  unfold conv2d_image. rewrite Hh, Hw, Hk, Hp.
  rewrite (bool_decide_eq_true_2 _ Hlen). simpl negb. cbv iota.
  rewrite (bool_decide_eq_false_2 (H + 2 * 1 < 3)) by lia.
  rewrite (bool_decide_eq_false_2 (W + 2 * 1 < 3)) by lia.
  simpl orb. cbv iota. eexists. split; [reflexivity|].
  split; [rewrite length_fmap; apply length_seq|].
  apply Forall_fmap, Forall_forall. intros o _. simpl.
  split; [rewrite length_fmap, length_seq; lia|].
  apply Forall_fmap, Forall_forall. intros i _. simpl.
  rewrite length_fmap, length_seq. lia.
Qed.

Lemma conv2d_shape conv B H W xs :
  kernel_size F conv = 3 -> padding F conv = 1 ->
  0 < in_channels F conv -> 0 < H -> 0 < W ->
  tensor4_shape B (in_channels F conv) H W xs ->
  exists ys, conv2d F fzero fadd fmul conv xs = Ok ys /\
             tensor4_shape B (out_channels F conv) H W ys.
Proof.
  intros Hk Hp HC HH HW [HB Hall]. revert B HB.
  induction xs as [|x rest IH]; intros B HB.
  - exists []. split; [reflexivity|]. split; [exact HB|constructor].
  - apply Forall_cons in Hall as [Hx Hrest].
    destruct (conv2d_image_shape conv H W x Hk Hp HC HH HW Hx) as (y & Hy & Hys).
    destruct (IH Hrest (length rest) eq_refl) as (ys & Hys' & [Hlen Hshape]).
    exists (y :: ys). split.
    + simpl. rewrite Hy. simpl. rewrite Hys'. reflexivity.
    + split; [simpl in *; lia|]. constructor; assumption.
Qed.

Lemma map4_shape f B C H W t :
  tensor4_shape B C H W t -> tensor4_shape B C H W (map4 F f t).
Proof.
  intros [HB Hall]. unfold map4. split; [rewrite length_fmap; exact HB|].
  apply Forall_fmap. eapply Forall_impl; [exact Hall|].
  intros x [HC Hx]. simpl. split; [rewrite length_fmap; exact HC|].
  apply Forall_fmap. eapply Forall_impl; [exact Hx|].
  intros ch Hch. simpl. apply (has_shape_fmap f). exact Hch.
Qed.

Lemma squeeze1_shape B H W t :
  tensor4_shape B 1 H W t ->
  exists out, squeeze1 F t = Ok out /\ tensor3_shape B H W out.
Proof.
  intros [HB Hall]. revert B HB.
  induction t as [|x rest IH]; intros B HB.
  - exists []. split; [reflexivity|]. split; [exact HB|constructor].
  - apply Forall_cons in Hall as [[HC Hx] Hrest].
    destruct (IH Hrest (length rest) eq_refl) as (out & Hout & [Hlen Hshape]).
    destruct x as [|ch [|ch' x']]; simpl in HC; try lia.
    apply Forall_cons in Hx as [Hch _].
    exists (ch :: out). split.
    + simpl. rewrite Hout. reflexivity.
    + split; [simpl in *; lia|]. constructor; assumption.
Qed.

End ModelFacts.


(** The layer on a 2 by 2 image with one channel: a kernel that is 1 at its
    centre copies the image, and a kernel that is 1 left of its centre
    shifts it to the right over the zero padding; the bias is added. *)
Example conv2d_image_example :
  let image := [ [ [1; 2]; [3; 4] ] ] in
  let centre := [ [ [ [0; 0; 0]; [0; 1; 0]; [0; 0; 0] ] ] ] in
  let left := [ [ [ [0; 0; 0]; [1; 0; 0]; [0; 0; 0] ] ] ] in
  conv2d_image Z 0 Z.add Z.mul (mkConv2d Z 1 1 3 1 centre [10]) image
    = Ok [ [ [11; 12]; [13; 14] ] ] /\
  conv2d_image Z 0 Z.add Z.mul (mkConv2d Z 1 1 3 1 left [0]) image
    = Ok [ [ [0; 1]; [0; 3] ] ] /\
  is_Ok (conv2d_image Z 0 Z.add Z.mul (mkConv2d Z 1 1 3 1 centre [0]) []) = false.
Proof. repeat split; reflexivity. Qed.


(** * The id list and the entry id of an id *)

Lemma app_empty_l (s : string) : "" +:+ s = s.
Proof. reflexivity. Qed.

Lemma app_String c (s t : string) : String c s +:+ t = String c (s +:+ t).
Proof. reflexivity. Qed.

Lemma app_empty_r (s : string) : s +:+ "" = s.
Proof. induction s as [|c s IH]; [reflexivity|]. rewrite app_String, IH. reflexivity. Qed.

Lemma py_split_cons sep s : exists piece pieces, py_split sep s = piece :: pieces.
Proof.
  destruct s as [|c rest]; simpl; [eauto|].
  destruct (Ascii.eqb c sep); [eauto|].
  destruct (py_split sep rest); eauto.
Qed.

Lemma py_join_String sep c piece pieces :
  py_join sep (String c piece :: pieces) = String c (py_join sep (piece :: pieces)).
Proof. destruct pieces; reflexivity. Qed.

Lemma py_split_join sep s : py_join (String sep "") (py_split sep s) = s.
Proof.
  induction s as [|c rest IH]; [reflexivity|].
  simpl py_split. destruct (py_split_cons sep rest) as (piece & pieces & E).
  rewrite E in *. destruct (Ascii.eqb_spec c sep) as [->|Hne].
  - change (py_join (String sep "") ("" :: piece :: pieces))
      with (String sep (py_join (String sep "") (piece :: pieces))).
    rewrite IH. reflexivity.
  - rewrite py_join_String, IH. reflexivity.
Qed.

Lemma py_split_no_sep sep s : Forall (fun piece => occurs sep piece = false) (py_split sep s).
Proof.
  induction s as [|c rest IH]; simpl.
  - repeat constructor.
  - destruct (Ascii.eqb c sep) eqn:E.
    + constructor; [reflexivity|exact IH].
    + destruct (py_split sep rest) as [|piece pieces].
      * repeat constructor. simpl. rewrite E. reflexivity.
      * inversion IH; subst. constructor; [|assumption].
        simpl. rewrite E. assumption.
Qed.

Lemma py_split_length sep s : length (py_split sep s) = S (count_char sep s).
Proof.
  induction s as [|c rest IH]; simpl; [reflexivity|].
  destruct (Ascii.eqb c sep).
  - simpl. rewrite IH. reflexivity.
  - destruct (py_split_cons sep rest) as (piece & pieces & E).
    rewrite E in *. simpl in *. exact IH.
Qed.

(** A text without the separator is the only piece of its split, and the
    pieces of a join of such texts are these texts. *)
Lemma py_split_app sep p tail :
  occurs sep p = false ->
  py_split sep (p +:+ tail) =
    match py_split sep tail with
    | piece :: ps => (p +:+ piece) :: ps
    | [] => [p]
    end.
Proof.
  induction p as [|c p' IHp]; intros Hp.
  - rewrite app_empty_l. destruct (py_split_cons sep tail) as (x & xs & E).
    rewrite E. reflexivity.
  - simpl in Hp. apply orb_false_iff in Hp as [Hc Hp'].
    rewrite app_String. simpl py_split. rewrite Hc, (IHp Hp').
    destruct (py_split sep tail); reflexivity.
Qed.

Lemma py_split_sep sep s : py_split sep (String sep s) = "" :: py_split sep s.
Proof. simpl. rewrite Ascii.eqb_refl. reflexivity. Qed.

Lemma py_split_join_inv sep pieces :
  pieces <> [] ->
  Forall (fun piece => occurs sep piece = false) pieces ->
  py_split sep (py_join (String sep "") pieces) = pieces.
Proof.
  induction pieces as [|p rest IH]; [congruence|]. intros _ Hall.
  inversion Hall as [|? ? Hp Hrest]; subst.
  destruct rest as [|q rest'].
  - simpl py_join. rewrite <- (app_empty_r p) at 1.
    rewrite (py_split_app sep p "" Hp). simpl. rewrite app_empty_r. reflexivity.
  - change (py_join (String sep "") (p :: q :: rest'))
      with (p +:+ String sep (py_join (String sep "") (q :: rest'))).
    rewrite (py_split_app sep p _ Hp), py_split_sep.
    rewrite IH by (congruence || assumption).
    rewrite app_empty_r. reflexivity.
Qed.

(** X1. Cell 5 never yields an empty list of ids: with the file present,
    the ids joined by commas are the text of the file, character for
    character, no id holds a comma and there is one id more than there are
    commas; without the file the cell raises [OSError] and prints
    nothing. *)
Theorem read_pdb_ids_round_trip (w : World) :
  match files w !! pdb_ids_file with
  | Some file_text =>
      exists first others,
        read_pdb_ids w = (Ok (first :: others), w) /\
        py_join "," (first :: others) = file_text /\
        Forall (fun pdb_id => occurs "," pdb_id = false) (first :: others) /\
        length (first :: others) = S (count_char "," file_text)
  | None => exists msg, read_pdb_ids w = (Raise (OSError msg), w)
  end.
Proof.
  unfold read_pdb_ids, bind, read_file, ret.
  destruct (files w !! pdb_ids_file) as [file_text|]; [|eauto].
  destruct (py_split_cons "," file_text) as (first & others & E).
  exists first, others. rewrite E. split; [reflexivity|].
  rewrite <- E. split; [apply (py_split_join ","%char)|].
  split; [apply py_split_no_sep|apply py_split_length].
Qed.

(** ** [pdb_id.split('_')[0]] *)

Lemma split_head_py_split sep s : split_head sep s = hd "" (py_split sep s).
Proof.
  induction s as [|c rest IH]; [reflexivity|]. simpl.
  destruct (Ascii.eqb c sep); [reflexivity|].
  rewrite IH. destruct (py_split_cons sep rest) as (p & ps & ->). reflexivity.
Qed.

Lemma split_head_occurs sep s : occurs sep (split_head sep s) = false.
Proof.
  induction s as [|c rest IH]; [reflexivity|]. simpl.
  destruct (Ascii.eqb c sep) eqn:E; [reflexivity|]. simpl. rewrite E. exact IH.
Qed.

Lemma split_head_id sep s : occurs sep s = false -> split_head sep s = s.
Proof.
  induction s as [|c rest IH]; [reflexivity|]. simpl.
  intros H. apply orb_false_iff in H as [-> H]. rewrite (IH H). reflexivity.
Qed.

Lemma split_head_prefix sep s :
  split_head sep s = s \/ exists rest, s = split_head sep s +:+ String sep rest.
Proof.
  induction s as [|c rest IH]; [left; reflexivity|]. simpl.
  destruct (Ascii.eqb_spec c sep) as [->|Hne].
  - right. exists rest. reflexivity.
  - destruct IH as [IH|(r & IH)].
    + left. rewrite IH. reflexivity.
    + right. exists r. rewrite app_String, <- IH. reflexivity.
Qed.

Lemma split_head_app sep s t :
  occurs sep s = false -> split_head sep (s +:+ String sep t) = s.
Proof.
  induction s as [|c rest IH].
  - intros _. rewrite app_empty_l. simpl. rewrite Ascii.eqb_refl. reflexivity.
  - intros H. simpl in H. apply orb_false_iff in H as [Hc H].
    rewrite app_String. simpl split_head. rewrite Hc, (IH H). reflexivity.
Qed.

(** X2. The entry id of an id is the first piece of its split at
    underscores: it holds no underscore, the id is the entry id itself or
    the entry id followed by an underscore and a rest, every chain suffix
    is dropped (so the chains of one entry share one file and one URL), and
    an id without underscore is its own entry id. *)
Theorem entry_id_of_spec (pdb_id : string) :
  entry_id_of pdb_id = hd "" (py_split "_" pdb_id) /\
  occurs "_" (entry_id_of pdb_id) = false /\
  (entry_id_of pdb_id = pdb_id \/
   exists chain, pdb_id = entry_id_of pdb_id +:+ "_" +:+ chain) /\
  (forall chain, entry_id_of (entry_id_of pdb_id +:+ "_" +:+ chain) = entry_id_of pdb_id) /\
  (occurs "_" pdb_id = false -> entry_id_of pdb_id = pdb_id).
Proof.
  unfold entry_id_of. split; [apply split_head_py_split|].
  split; [apply split_head_occurs|].
  split; [apply split_head_prefix|].
  split; [|apply split_head_id].
  intros chain. apply (split_head_app "_"%char). apply split_head_occurs.
Qed.


(** * download_pdb_files: what a run does to the files *)

Lemma app_inv_head_string (p s t : string) : p +:+ s = p +:+ t -> s = t.
Proof.
  induction p as [|c p IH]; [rewrite !app_empty_l; tauto|].
  rewrite !app_String. intros H. injection H as H. exact (IH H).
Qed.

Lemma app_inv_tail_char (s t : string) c :
  s +:+ String c "" = t +:+ String c "" -> s = t.
Proof.
  revert t. induction s as [|a s IH]; intros [|b t].
  - reflexivity.
  - rewrite app_empty_l, app_String. intros H. injection H as _ H.
    destruct t; discriminate.
  - rewrite app_empty_l, app_String. intros H. injection H as _ H.
    destruct s; discriminate.
  - rewrite !app_String. intros H. injection H as -> H. f_equal. exact (IH _ H).
Qed.

Lemma app_assoc_string (s t u : string) : (s +:+ t) +:+ u = s +:+ (t +:+ u).
Proof.
  induction s as [|c s IH]; [reflexivity|]. rewrite !app_String, IH. reflexivity.
Qed.

Lemma app_inv_tail_string (s t u : string) : s +:+ u = t +:+ u -> s = t.
Proof.
  revert s t. induction u as [|c u IH]; intros s t.
  - rewrite !app_empty_r. tauto.
  - change (String c u) with (String c "" +:+ u).
    rewrite <- !app_assoc_string. intros H. apply IH in H.
    exact (app_inv_tail_char _ _ _ H).
Qed.

(** Two ids have the same file exactly when they have the same entry
    id. *)
Lemma download_path_inj download_dir pdb_id pdb_id' :
  download_path download_dir pdb_id = download_path download_dir pdb_id' ->
  entry_id_of pdb_id = entry_id_of pdb_id'.
Proof.
  unfold download_path, os_path_join. intros H.
  apply app_inv_head_string in H. apply app_inv_head_string in H.
  exact (app_inv_tail_string _ _ _ H).
Qed.

Lemma pdb_file_of_download_path pdb_id :
  pdb_file_of pdb_id = download_path "pdb_structures" pdb_id.
Proof. reflexivity. Qed.

Section DownloadFrame.
Variable requests_get : string -> result Response.

(** The outcomes of one iteration. *)
Lemma download_step_unfold download_dir pdb_id w :
  download_step requests_get download_dir pdb_id w =
  if bool_decide (is_Some (files w !! download_path download_dir pdb_id)) then (Ok tt, w)
  else
    match requests_get (url_of (entry_id_of pdb_id)) with
    | Raise e =>
        if is_RequestException e
        then (Ok tt, printed w ("Failed to download " +:+ entry_id_of pdb_id +:+ ": " +:+ exn_str e))
        else (Raise e, w)
    | Ok response =>
        if negb (status_ok response)
        then (Ok tt, printed w ("Failed to download " +:+ entry_id_of pdb_id +:+ ": " +:+
                                pretty (status_code response) +:+ " Error"))
        else match fs_error w (download_path download_dir pdb_id) with
             | Some msg => (Raise (OSError msg), w)
             | None => (Ok tt, downloaded download_dir pdb_id response w)
             end
    end.
Proof.
  unfold download_step, bind, os_path_exists, try_except, download_body, bind, lift,
    raise_for_status, ret, raise, write_file, py_print, download_path, downloaded, printed,
    status_ok.
  destruct (bool_decide _); [reflexivity|].
  destruct (requests_get _) as [resp|e].
  - rewrite negb_involutive. destruct (_ && _); [reflexivity|].
    destruct (fs_error w _); reflexivity.
  - destruct (is_RequestException e); reflexivity.
Qed.

(** One iteration keeps the files that exist, the failing paths and the
    lines already printed; a file it adds is the file of its id, holding
    the text of an accepted response. *)
Lemma download_step_frame download_dir pdb_id w r w' :
  download_step requests_get download_dir pdb_id w = (r, w') ->
  (forall path content, files w !! path = Some content -> files w' !! path = Some content) /\
  fs_error w' = fs_error w /\
  stdout w `prefix_of` stdout w' /\
  (forall path content,
      files w' !! path = Some content ->
      files w !! path = Some content \/
      exists response,
        path = download_path download_dir pdb_id /\
        requests_get (url_of (entry_id_of pdb_id)) = Ok response /\
        status_ok response = true /\
        content = text response).
Proof.
  rewrite download_step_unfold.
  destruct (bool_decide _) eqn:Hex.
  { intros H; inversion H; subst. repeat split; eauto. }
  apply bool_decide_eq_false in Hex.
  assert (files w !! download_path download_dir pdb_id = None) as Hnone.
  { destruct (files w !! _) eqn:E; [|reflexivity]. exfalso. apply Hex. eauto. }
  destruct (requests_get _) as [resp|e] eqn:Hget.
  - destruct (status_ok resp) eqn:Hst; simpl.
    + destruct (fs_error w _) as [msg|].
      * intros H; inversion H; subst. repeat split; eauto.
      * intros H; inversion H; subst. unfold downloaded; simpl.
        split; [|split; [reflexivity|split; [apply prefix_app_r; reflexivity|]]].
        -- intros path content Hp.
           destruct (decide (path = download_path download_dir pdb_id)) as [->|Hne].
           ++ congruence.
           ++ rewrite lookup_insert_ne by congruence. exact Hp.
        -- intros path content Hp.
           destruct (decide (path = download_path download_dir pdb_id)) as [->|Hne].
           ++ rewrite lookup_insert_eq in Hp. inversion Hp; subst.
              right. exists resp. repeat split; assumption.
           ++ rewrite lookup_insert_ne in Hp by congruence. left. exact Hp.
    + intros H; inversion H; subst. unfold printed; simpl.
      repeat split; eauto. apply prefix_app_r. reflexivity.
  - destruct (is_RequestException e); intros H; inversion H; subst.
    + unfold printed; simpl. repeat split; eauto. apply prefix_app_r. reflexivity.
    + repeat split; eauto.
Qed.

Lemma download_loop_frame download_dir pdb_ids : forall w r w',
  download_loop requests_get download_dir pdb_ids w = (r, w') ->
  (forall path content, files w !! path = Some content -> files w' !! path = Some content) /\
  fs_error w' = fs_error w /\
  stdout w `prefix_of` stdout w' /\
  (forall path content,
      files w' !! path = Some content ->
      files w !! path = Some content \/
      exists pdb_id response,
        pdb_id ∈ pdb_ids /\
        path = download_path download_dir pdb_id /\
        requests_get (url_of (entry_id_of pdb_id)) = Ok response /\
        status_ok response = true /\
        content = text response).
Proof.
  induction pdb_ids as [|pdb_id rest IH]; intros w r w'.
  - intros H; inversion H; subst. repeat split; eauto.
  - rewrite download_loop_cons.
    destruct (download_step requests_get download_dir pdb_id w) as [r1 w1] eqn:Hstep.
    apply download_step_frame in Hstep as (Hkeep & Hfs & Hout & Hnew).
    assert (forall path content,
               files w1 !! path = Some content ->
               files w !! path = Some content \/
               exists pdb_id0 response,
                 pdb_id0 ∈ pdb_id :: rest /\
                 path = download_path download_dir pdb_id0 /\
                 requests_get (url_of (entry_id_of pdb_id0)) = Ok response /\
                 status_ok response = true /\
                 content = text response) as Hnew1.
    { intros path content Hp. destruct (Hnew path content Hp) as [?|(resp & ? & ? & ? & ?)].
      - left; assumption.
      - right. exists pdb_id, resp. repeat split; try assumption. apply list_elem_of_here. }
    destruct r1 as [[]|e].
    + intros Hrest. apply IH in Hrest as (Hkeep' & Hfs' & Hout' & Hnew').
      split; [eauto|]. split; [congruence|]. split; [etransitivity; eassumption|].
      intros path content Hp.
      destruct (Hnew' path content Hp) as [Hp1|(id & resp & Hin & ? & ? & ? & ?)].
      * exact (Hnew1 path content Hp1).
      * right. exists id, resp. repeat split; try assumption.
        apply list_elem_of_further. exact Hin.
    + intros H; inversion H; subst. repeat split; eauto.
Qed.

(** X3. Whatever a run of [download_pdb_files] ends in, return or
    exception, every file that existed before the run exists after it with
    the same text (no file is overwritten, truncated or deleted), and every
    line printed before is still there, in order. *)
Theorem download_keeps_existing_files pdb_ids download_dir (w : World) :
  let w' := (download_pdb_files requests_get pdb_ids download_dir w).2 in
  (forall path content, files w !! path = Some content -> files w' !! path = Some content) /\
  stdout w `prefix_of` stdout w'.
Proof.
  unfold download_pdb_files, bind, os_makedirs.
  destruct (fs_error w download_dir) as [msg|]; simpl.
  { split; eauto. }
  destruct (download_loop requests_get download_dir pdb_ids w) as [r w'] eqn:Hloop.
  apply download_loop_frame in Hloop as (Hkeep & _ & Hout & _).
  destruct r; simpl; split; assumption.
Qed.


(** ** Which ids have a file after a run *)

Lemma fetch_failure_None url :
  fetch_failure requests_get url = None <->
  exists response, requests_get url = Ok response /\ status_ok response = true.
Proof.
  unfold fetch_failure, status_ok. destruct (requests_get url) as [resp|e].
  - destruct ((400 <=? status_code resp) && (status_code resp <? 600)) eqn:Hst; split.
    + discriminate.
    + intros (r & Hr & H). injection Hr as <-. rewrite Hst in H. discriminate.
    + intros _. exists resp. rewrite Hst. split; reflexivity.
    + reflexivity.
  - split; [discriminate|]. intros (r & H & _). discriminate.
Qed.

Lemma download_step_obtains download_dir pdb_id w w' :
  download_step requests_get download_dir pdb_id w = (Ok tt, w') ->
  obtainable requests_get (files w) download_dir pdb_id ->
  is_Some (files w' !! download_path download_dir pdb_id).
Proof.
  rewrite download_step_unfold. intros Hstep Hob.
  destruct (bool_decide _) eqn:Hex.
  { apply bool_decide_eq_true in Hex. inversion Hstep; subst. exact Hex. }
  apply bool_decide_eq_false in Hex.
  destruct Hob as [Hob|Hob]; [contradiction|].
  destruct (proj1 (fetch_failure_None _) Hob) as (resp & Hget & Hst).
  rewrite Hget, Hst in Hstep. simpl in Hstep.
  destruct (fs_error w _); [discriminate|].
  inversion Hstep; subst. unfold downloaded; simpl.
  rewrite lookup_insert_eq. eauto.
Qed.

Lemma download_loop_obtains download_dir pdb_ids : forall w w',
  download_loop requests_get download_dir pdb_ids w = (Ok tt, w') ->
  forall pdb_id, pdb_id ∈ pdb_ids ->
    obtainable requests_get (files w) download_dir pdb_id ->
    is_Some (files w' !! download_path download_dir pdb_id).
Proof.
  induction pdb_ids as [|pdb_id0 rest IH]; intros w w' Hloop pdb_id Hin Hob.
  - inversion Hin.
  - rewrite download_loop_cons in Hloop.
    destruct (download_step requests_get download_dir pdb_id0 w) as [r1 w1] eqn:Hstep.
    destruct r1 as [[]|e]; [|discriminate].
    pose proof (download_step_frame _ _ _ _ _ Hstep) as (Hkeep & _ & _ & _).
    pose proof (download_loop_frame _ _ _ _ _ Hloop) as (Hkeep' & _ & _ & _).
    apply elem_of_cons in Hin as [->|Hin].
    + destruct (download_step_obtains _ _ _ _ Hstep Hob) as [c Hc].
      exists c. apply Hkeep'. exact Hc.
    + apply (IH w1 w' Hloop pdb_id Hin).
      destruct Hob as [[c Hc]|Hob]; [left; exists c; apply Hkeep; exact Hc|right; exact Hob].
Qed.

Lemma download_pdb_files_obtains pdb_ids download_dir w w' :
  download_pdb_files requests_get pdb_ids download_dir w = (Ok tt, w') ->
  forall pdb_id, pdb_id ∈ pdb_ids ->
    obtainable requests_get (files w) download_dir pdb_id ->
    is_Some (files w' !! download_path download_dir pdb_id).
Proof.
  unfold download_pdb_files, bind, os_makedirs.
  destruct (fs_error w download_dir) as [msg|]; [discriminate|].
  apply download_loop_obtains.
Qed.

(** X5. After a run of [download_pdb_files] that returns, an id of the
    list has its file exactly when the file existed before or the fetch for
    its entry succeeds (a response with a status outside 400..599). *)
Theorem download_postcondition pdb_ids download_dir (w w' : World) :
  download_pdb_files requests_get pdb_ids download_dir w = (Ok tt, w') ->
  forall pdb_id, pdb_id ∈ pdb_ids ->
    (is_Some (files w' !! os_path_join download_dir (entry_id_of pdb_id +:+ ".pdb")) <->
     is_Some (files w !! os_path_join download_dir (entry_id_of pdb_id +:+ ".pdb")) \/
     fetch_failure requests_get (url_of (entry_id_of pdb_id)) = None).
Proof.
  unfold download_pdb_files, bind, os_makedirs.
  destruct (fs_error w download_dir) as [msg|]; [discriminate|].
  intros Hloop pdb_id Hin. split.
  - intros [c Hc].
    pose proof (download_loop_frame _ _ _ _ _ Hloop) as (_ & _ & _ & Hnew).
    destruct (Hnew _ _ Hc) as [Hold|(id & resp & _ & Hpath & Hget & Hst & _)].
    + left. eauto.
    + right. apply fetch_failure_None. exists resp. split; [|exact Hst].
      change (os_path_join download_dir (entry_id_of pdb_id +:+ ".pdb"))
        with (download_path download_dir pdb_id) in Hpath.
      apply download_path_inj in Hpath. rewrite Hpath. exact Hget.
  - intros Hob. exact (download_loop_obtains _ _ _ _ Hloop pdb_id Hin Hob).
Qed.

(** X6. When every id of the list already has its file and the directory
    can be created, [download_pdb_files] returns and leaves the world as it
    was: no file is written and nothing is printed. *)
Theorem download_of_present_files_is_noop pdb_ids download_dir (w : World) :
  fs_error w download_dir = None ->
  (forall pdb_id, pdb_id ∈ pdb_ids ->
     is_Some (files w !! os_path_join download_dir (entry_id_of pdb_id +:+ ".pdb"))) ->
  download_pdb_files requests_get pdb_ids download_dir w = (Ok tt, w).
Proof.
  intros Hdir Hall. unfold download_pdb_files, bind, os_makedirs. rewrite Hdir.
  induction pdb_ids as [|pdb_id rest IH]; [reflexivity|].
  rewrite download_loop_cons, download_step_unfold.
  rewrite bool_decide_eq_true_2 by (apply Hall; apply list_elem_of_here).
  apply IH. intros id Hin. apply Hall. apply list_elem_of_further. exact Hin.
Qed.

(** ** An entry is downloaded once *)

Lemma count_line_snoc line out l :
  count_line line (out ++ [l]) =
    (count_line line out + if String.eqb line l then 1 else 0)%nat.
Proof.
  unfold count_line. rewrite List.filter_app, length_app. simpl.
  destruct (String.eqb line l); reflexivity.
Qed.

Lemma downloaded_line_inj e e' :
  "Downloaded " +:+ e +:+ ".pdb" = "Downloaded " +:+ e' +:+ ".pdb" -> e = e'.
Proof.
  intros H. apply app_inv_head_string in H. exact (app_inv_tail_string _ _ _ H).
Qed.

Lemma failed_line_differs e msg entry_id :
  String.eqb ("Downloaded " +:+ e +:+ ".pdb") ("Failed to download " +:+ entry_id +:+ msg)
    = false.
Proof. reflexivity. Qed.

Lemma download_step_once download_dir pdb_id entry_id w r w' :
  download_step requests_get download_dir pdb_id w = (r, w') ->
  let line := "Downloaded " +:+ entry_id +:+ ".pdb" in
  let path := os_path_join download_dir (entry_id +:+ ".pdb") in
  (count_line line (stdout w') <= count_line line (stdout w) + 1)%nat /\
  (is_Some (files w !! path) -> count_line line (stdout w') = count_line line (stdout w)) /\
  (count_line line (stdout w') = (count_line line (stdout w) + 1)%nat ->
   is_Some (files w' !! path)).
Proof.
  rewrite download_step_unfold. intros Hstep line path.
  assert (forall msg,
    count_line line (stdout (printed w ("Failed to download " +:+ entry_id_of pdb_id +:+ msg)))
      = count_line line (stdout w)) as Hfailed.
  { intros msg. unfold printed; simpl. rewrite count_line_snoc.
    unfold line. rewrite failed_line_differs. lia. }
  destruct (bool_decide _) eqn:Hex.
  { inversion Hstep; subst. repeat split; try lia. }
  apply bool_decide_eq_false in Hex.
  destruct (requests_get _) as [resp|e].
  - destruct (status_ok resp); simpl in Hstep.
    + destruct (fs_error w _).
      * inversion Hstep; subst. repeat split; try lia.
      * inversion Hstep; subst. unfold downloaded; simpl. rewrite count_line_snoc.
        destruct (String.eqb_spec line ("Downloaded " +:+ entry_id_of pdb_id +:+ ".pdb"))
          as [Heq|Hne].
        -- apply downloaded_line_inj in Heq. subst entry_id.
           split; [lia|]. split.
           ++ intros Hsome. contradiction.
           ++ intros _. unfold path, download_path. rewrite lookup_insert_eq. eauto.
        -- split; [lia|]. split; [lia|lia].
    + inversion Hstep; subst.
      change ("Failed to download " +:+ entry_id_of pdb_id +:+ ": " +:+
              pretty (status_code resp) +:+ " Error")
        with ("Failed to download " +:+ entry_id_of pdb_id +:+
              (": " +:+ pretty (status_code resp) +:+ " Error")).
      rewrite Hfailed. repeat split; lia.
  - destruct (is_RequestException e); inversion Hstep; subst.
    + change ("Failed to download " +:+ entry_id_of pdb_id +:+ ": " +:+ exn_str e)
        with ("Failed to download " +:+ entry_id_of pdb_id +:+ (": " +:+ exn_str e)).
      rewrite Hfailed. repeat split; lia.
    + repeat split; lia.
Qed.

Lemma download_loop_once download_dir entry_id pdb_ids : forall w r w',
  download_loop requests_get download_dir pdb_ids w = (r, w') ->
  let line := "Downloaded " +:+ entry_id +:+ ".pdb" in
  let path := os_path_join download_dir (entry_id +:+ ".pdb") in
  (count_line line (stdout w') <= count_line line (stdout w) + 1)%nat /\
  (is_Some (files w !! path) -> count_line line (stdout w') = count_line line (stdout w)).
Proof.
  induction pdb_ids as [|pdb_id rest IH]; intros w r w' Hloop line path.
  - inversion Hloop; subst. split; [lia|reflexivity].
  - rewrite download_loop_cons in Hloop.
    destruct (download_step requests_get download_dir pdb_id w) as [r1 w1] eqn:Hstep.
    pose proof (download_step_once _ _ entry_id _ _ _ Hstep) as (Hle & Hsame & Hnew).
    pose proof (download_step_frame _ _ _ _ _ Hstep) as (Hkeep & _ & _ & _).
    fold line path in Hle, Hsame, Hnew.
    destruct r1 as [[]|e].
    + destruct (IH _ _ _ Hloop) as (Hle' & Hsame'). fold line path in Hle', Hsame'.
      split.
      * destruct (decide (count_line line (stdout w1) = (count_line line (stdout w) + 1)%nat))
          as [Hplus|Hnot].
        -- rewrite (Hsame' (Hnew Hplus)). lia.
        -- lia.
      * intros [c Hc]. rewrite Hsame' by (exists c; apply Hkeep; exact Hc).
        apply Hsame. eauto.
    + inversion Hloop; subst. split; [exact Hle|exact Hsame].
Qed.

(** X7. An entry is downloaded at most once in a run, however many ids of
    the list belong to it (repeated ids, several chains of one entry): the
    line [Downloaded <entry>.pdb] is printed at most once, and not at all
    when the file of the entry existed before the run. *)
Theorem download_once_per_entry pdb_ids download_dir entry_id (w : World) :
  let w' := (download_pdb_files requests_get pdb_ids download_dir w).2 in
  let line := "Downloaded " +:+ entry_id +:+ ".pdb" in
  (count_line line (stdout w') <= count_line line (stdout w) + 1)%nat /\
  (is_Some (files w !! os_path_join download_dir (entry_id +:+ ".pdb")) ->
   count_line line (stdout w') = count_line line (stdout w)).
Proof.
  unfold download_pdb_files, bind, os_makedirs.
  destruct (fs_error w download_dir) as [msg|]; simpl.
  { split; [lia|reflexivity]. }
  destruct (download_loop requests_get download_dir pdb_ids w) as [r w'] eqn:Hloop.
  pose proof (download_loop_once _ entry_id _ _ _ _ Hloop) as (Hle & Hsame).
  destruct r; simpl; split; assumption.
Qed.
End DownloadFrame.

(** The server knows 1ABC only: after the run from an empty directory the
    file of 1ABC exists, those of 0XXX and 9ZZZ do not. *)
Lemma download_postcondition_witness :
  let w0 := mkWorld ∅ (fun _ => None) [] in
  let w' := mkWorld (<["pdb_structures/1ABC.pdb" := "three residues"]> ∅) (fun _ => None)
              ["Failed to download 0XXX: 404 Error"; "Downloaded 1ABC.pdb";
               "Failed to download 9ZZZ: Connection refused"] in
  let pdb_ids := ["0XXX_1"; "1ABC_1"; "9ZZZ_2"] in
  download_pdb_files example_requests_get pdb_ids "pdb_structures" w0 = (Ok tt, w') /\
  "1ABC_1" ∈ pdb_ids /\
  fetch_failure example_requests_get (url_of (entry_id_of "1ABC_1")) = None /\
  (is_Some (files w' !! os_path_join "pdb_structures" (entry_id_of "1ABC_1" +:+ ".pdb")) <->
   is_Some (files w0 !! os_path_join "pdb_structures" (entry_id_of "1ABC_1" +:+ ".pdb")) \/
   fetch_failure example_requests_get (url_of (entry_id_of "1ABC_1")) = None).
Proof.
  intros w0 w' pdb_ids.
  assert (download_pdb_files example_requests_get pdb_ids "pdb_structures" w0 = (Ok tt, w'))
    as Hrun by (vm_compute; reflexivity).
  assert ("1ABC_1" ∈ pdb_ids) as Hin
    by (apply list_elem_of_further, list_elem_of_here).
  split; [exact Hrun|]. split; [exact Hin|]. split; [reflexivity|].
  exact (download_postcondition example_requests_get pdb_ids "pdb_structures" w0 w'
           Hrun "1ABC_1" Hin).
Defined.


(** All three ids have their file in the example world: nothing happens. *)
Lemma download_of_present_files_is_noop_witness :
  let pdb_ids := ["1ABC_1"; "2DEF_1"; "1ABC_2"] in
  fs_error example_world "pdb_structures" = None /\
  (forall pdb_id, pdb_id ∈ pdb_ids ->
     is_Some (files example_world
                !! os_path_join "pdb_structures" (entry_id_of pdb_id +:+ ".pdb"))) /\
  download_pdb_files example_requests_get pdb_ids "pdb_structures" example_world
    = (Ok tt, example_world).
Proof.
  intros pdb_ids.
  assert (forall pdb_id, pdb_id ∈ pdb_ids ->
            is_Some (files example_world
                       !! os_path_join "pdb_structures" (entry_id_of pdb_id +:+ ".pdb")))
    as Hall.
  { intros pdb_id Hin. unfold pdb_ids in Hin.
    repeat (apply elem_of_cons in Hin as [->|Hin]);
      [vm_compute; eexists; reflexivity ..|inversion Hin]. }
  split; [reflexivity|]. split; [exact Hall|].
  exact (download_of_present_files_is_noop example_requests_get pdb_ids "pdb_structures"
           example_world eq_refl Hall).
Defined.

(** Two chains of 1ABC and a repetition: one download. *)
Example download_once_example :
  stdout (download_pdb_files example_requests_get ["1ABC_1"; "1ABC_2"; "1ABC_1"]
            "pdb_structures" (mkWorld ∅ (fun _ => None) [])).2
    = ["Downloaded 1ABC.pdb"].
Proof. vm_compute. reflexivity. Qed.


(** * extract_sequence_and_contacts and the loading loop as a whole *)

Section LoadingFrame.
Variable parse_pdb : string -> result Structure.
Variable three_to_one : string -> result ascii.

(** X8. [extract_sequence_and_contacts] never raises, whatever the parser
    and the residue table do; it changes no file; it returns a sequence
    together with a contact map or neither of them; and it prints at most
    one line, none when it returns a pair and none when it drops a
    structure for having more than 10000 atoms. *)
Theorem extract_never_raises pdb_file (w : World) :
  exists r w',
    extract_sequence_and_contacts parse_pdb three_to_one pdb_file w = (Ok r, w') /\
    files w' = files w /\
    fs_error w' = fs_error w /\
    ((exists seq cmap, r = (Some seq, Some cmap) /\ w' = w) \/
     (r = (None, None) /\
      (w' = w /\
       (exists file_text structure ca_atoms,
           files w !! pdb_file = Some file_text /\
           parse_pdb file_text = Ok structure /\
           select_CA structure = Some ca_atoms /\
           10000 < numAtoms structure) \/
       exists line, w' = printed w line))).
Proof.
  rewrite extract_unfold.
  destruct (files w !! pdb_file) as [file_text|] eqn:Hfile.
  2: { eexists _, _. split; [reflexivity|]. repeat split. right. split; eauto. }
  destruct (parse_pdb file_text) as [structure|e] eqn:Hparse.
  2: { eexists _, _. split; [reflexivity|]. repeat split. right. split; eauto. }
  destruct (select_CA structure) as [ca_atoms|] eqn:Hca.
  2: { eexists _, _. split; [reflexivity|]. repeat split. right. split; eauto. }
  destruct (Z.ltb_spec 10000 (numAtoms structure)) as [Hbig|Hsmall].
  { eexists _, _. split; [reflexivity|]. repeat split. right. split; [reflexivity|].
    left. split; [reflexivity|]. exists file_text, structure, ca_atoms. repeat split; assumption. }
  destruct (build_seq three_to_one (getResnames ca_atoms) "") as [seq|e].
  - eexists _, _. split; [reflexivity|]. repeat split. left. eauto.
  - eexists _, _. split; [reflexivity|]. repeat split. right. split; eauto.
Qed.

(** The result of the function, read off the files. *)
Lemma extract_extracted pdb_file w :
  exists w',
    extract_sequence_and_contacts parse_pdb three_to_one pdb_file w =
      (Ok match extracted parse_pdb three_to_one (files w) pdb_file with
          | Some (seq, cmap) => (Some seq, Some cmap)
          | None => (None, None)
          end, w') /\
    files w' = files w /\
    stdout w `prefix_of` stdout w'.
Proof.
  rewrite extract_unfold. unfold extracted.
  repeat match goal with
         | |- context [match ?x with _ => _ end] => destruct x
         end;
    eexists; (split; [reflexivity|]); split; try reflexivity;
    unfold printed; simpl; apply prefix_app_r; reflexivity.
Qed.

Lemma load_loop_extracted pdb_files : forall data w,
  let loaded := omap (extracted parse_pdb three_to_one (files w)) pdb_files in
  exists w',
    load_loop parse_pdb three_to_one pdb_files data w
      = (Ok (data.1 ++ loaded.*1, data.2 ++ loaded.*2), w') /\
    files w' = files w /\
    stdout w `prefix_of` stdout w'.
Proof.
  induction pdb_files as [|pdb_file rest IH]; intros data w; simpl.
  - exists w. unfold ret. rewrite !app_nil_r. destruct data.
    split; [reflexivity|]. split; reflexivity.
  - destruct (extract_extracted pdb_file w) as (w1 & Hext & Hfs & Hout).
    unfold bind at 1, load_step, bind. rewrite Hext.
    destruct (extracted parse_pdb three_to_one (files w) pdb_file) as [[seq cmap]|].
    + destruct (IH (data.1 ++ [seq], data.2 ++ [cmap]) w1) as (w' & Hloop & Hfs' & Hout').
      exists w'. unfold ret. rewrite Hloop. simpl. rewrite Hfs, <- !app_assoc. simpl.
      split; [reflexivity|]. split; [congruence|etransitivity; eassumption].
    + destruct (IH data w1) as (w' & Hloop & Hfs' & Hout').
      exists w'. unfold ret. rewrite Hloop. simpl. rewrite Hfs.
      split; [reflexivity|]. split; [congruence|etransitivity; eassumption].
Qed.

Lemma check_existing_filter pdb_files : forall existing w,
  exists w',
    check_existing pdb_files existing w
      = (Ok (existing ++ List.filter (fun f => bool_decide (is_Some (files w !! f))) pdb_files),
         w') /\
    files w' = files w /\
    stdout w `prefix_of` stdout w' /\
    (forall pdb_file, pdb_file ∈ pdb_files -> files w !! pdb_file = None ->
       "File not found: " +:+ pdb_file ∈ stdout w').
Proof.
  induction pdb_files as [|pdb_file rest IH]; intros existing w.
  - exists w. simpl. unfold ret. rewrite app_nil_r.
    split; [reflexivity|]. split; [reflexivity|]. split; [reflexivity|].
    intros f Hf. inversion Hf.
  - simpl. unfold bind at 1, os_path_exists.
    destruct (bool_decide (is_Some (files w !! pdb_file))) eqn:Hex.
    + destruct (IH (existing ++ [pdb_file]) w) as (w' & Hc & Hfs & Hout & Hrep).
      exists w'. rewrite Hc, <- app_assoc. simpl.
      split; [reflexivity|]. split; [exact Hfs|]. split; [exact Hout|].
      intros f Hf Hnone. apply elem_of_cons in Hf as [->|Hf].
      * apply bool_decide_eq_true in Hex. rewrite Hnone in Hex.
        destruct Hex; discriminate.
      * exact (Hrep f Hf Hnone).
    + unfold bind, py_print.
      set (w1 := mkWorld (files w) (fs_error w)
                   (stdout w ++ ["File not found: " +:+ pdb_file])).
      destruct (IH existing w1) as (w' & Hc & Hfs & Hout & Hrep).
      exists w'. rewrite Hc. simpl.
      split; [reflexivity|]. split; [exact Hfs|]. split.
      * etransitivity; [|exact Hout]. apply prefix_app_r. reflexivity.
      * intros f Hf Hnone. apply elem_of_cons in Hf as [->|Hf].
        -- eapply elem_of_prefix; [|exact Hout].
           simpl. apply elem_of_app. right. apply list_elem_of_here.
        -- exact (Hrep f Hf Hnone).
Qed.

Lemma omap_extracted_filter fs pdb_files :
  omap (extracted parse_pdb three_to_one fs)
    (List.filter (fun f => bool_decide (is_Some (fs !! f))) pdb_files)
  = omap (extracted parse_pdb three_to_one fs) pdb_files.
Proof.
  induction pdb_files as [|f rest IH]; [reflexivity|].
  change (List.filter (fun f => bool_decide (is_Some (fs !! f))) (f :: rest))
    with (if bool_decide (is_Some (fs !! f))
          then f :: List.filter (fun f => bool_decide (is_Some (fs !! f))) rest
          else List.filter (fun f => bool_decide (is_Some (fs !! f))) rest).
  change (omap (extracted parse_pdb three_to_one fs) (f :: rest))
    with (match extracted parse_pdb three_to_one fs f with
          | Some p => p :: omap (extracted parse_pdb three_to_one fs) rest
          | None => omap (extracted parse_pdb three_to_one fs) rest
          end).
  destruct (bool_decide (is_Some (fs !! f))) eqn:Hex.
  - change (omap (extracted parse_pdb three_to_one fs)
              (f :: List.filter (fun f => bool_decide (is_Some (fs !! f))) rest))
      with (match extracted parse_pdb three_to_one fs f with
            | Some p => p :: omap (extracted parse_pdb three_to_one fs)
                               (List.filter (fun f => bool_decide (is_Some (fs !! f))) rest)
            | None => omap (extracted parse_pdb three_to_one fs)
                        (List.filter (fun f => bool_decide (is_Some (fs !! f))) rest)
            end).
    rewrite IH. reflexivity.
  - apply bool_decide_eq_false in Hex.
    assert (extracted parse_pdb three_to_one fs f = None) as ->.
    { unfold extracted. destruct (fs !! f) eqn:E; [|reflexivity].
      exfalso. apply Hex. eauto. }
    exact IH.
Qed.

Lemma load_data_extracted pdb_ids w :
  let loaded := omap (extracted parse_pdb three_to_one (files w)) (pdb_file_of <$> pdb_ids) in
  exists w',
    load_data parse_pdb three_to_one pdb_ids w = (Ok (loaded.*1, loaded.*2), w') /\
    files w' = files w /\
    stdout w `prefix_of` stdout w' /\
    (forall pdb_id, pdb_id ∈ pdb_ids -> files w !! pdb_file_of pdb_id = None ->
       "File not found: " +:+ pdb_file_of pdb_id ∈ stdout w').
Proof.
  intros loaded. unfold load_data, bind.
  destruct (check_existing_filter (pdb_file_of <$> pdb_ids) [] w)
    as (w1 & Hc & Hfs & Hout & Hrep).
  rewrite Hc. simpl.
  destruct (load_loop_extracted
              (List.filter (fun f => bool_decide (is_Some (files w !! f)))
                 (pdb_file_of <$> pdb_ids)) ([], []) w1)
    as (w' & Hloop & Hfs' & Hout').
  exists w'. rewrite Hloop. simpl. rewrite Hfs, omap_extracted_filter.
  split; [reflexivity|]. split; [congruence|].
  split; [etransitivity; eassumption|].
  intros pdb_id Hin Hnone. eapply elem_of_prefix; [|exact Hout'].
  apply Hrep; [|exact Hnone]. apply list_elem_of_fmap. eauto.
Qed.

(** X9. Cell 12 never raises and changes no file.  The two lists it
    builds are, in the order of the id list, the sequences and the contact
    maps of exactly those ids whose file exists, parses, has CA atoms and
    at most 10000 atoms; an id that occurs twice, or two chains of one
    entry, contribute the same pair twice.  For every id without a file
    the line [File not found: <path>] is printed. *)
Theorem load_data_functional pdb_ids (w : World) :
  let loaded := omap (extracted parse_pdb three_to_one (files w)) (pdb_file_of <$> pdb_ids) in
  exists w',
    load_data parse_pdb three_to_one pdb_ids w = (Ok (loaded.*1, loaded.*2), w') /\
    files w' = files w /\
    (forall pdb_id, pdb_id ∈ pdb_ids -> files w !! pdb_file_of pdb_id = None ->
       "File not found: " +:+ pdb_file_of pdb_id ∈ stdout w').
Proof.
  intros loaded. destruct (load_data_extracted pdb_ids w) as (w' & H & Hfs & _ & Hrep).
  exists w'. repeat split; assumption.
Qed.

(** X10. Loading a concatenation of id lists gives the concatenation of
    what each list loads from the same files: the result for an id depends
    neither on the ids before it nor on what was printed, and a repeated id
    is loaded again. *)
Theorem load_data_app pdb_ids1 pdb_ids2 (w : World) :
  exists sequences1 contact_maps1 sequences2 contact_maps2,
    (load_data parse_pdb three_to_one pdb_ids1 w).1 = Ok (sequences1, contact_maps1) /\
    (load_data parse_pdb three_to_one pdb_ids2 w).1 = Ok (sequences2, contact_maps2) /\
    (load_data parse_pdb three_to_one (pdb_ids1 ++ pdb_ids2) w).1
      = Ok (sequences1 ++ sequences2, contact_maps1 ++ contact_maps2).
Proof.
  destruct (load_data_extracted pdb_ids1 w) as (w1 & H1 & _).
  destruct (load_data_extracted pdb_ids2 w) as (w2 & H2 & _).
  destruct (load_data_extracted (pdb_ids1 ++ pdb_ids2) w) as (w12 & H12 & _).
  eexists _, _, _, _. rewrite H1, H2, H12. simpl.
  split; [reflexivity|]. split; [reflexivity|].
  rewrite fmap_app, omap_app, !fmap_app. reflexivity.
Qed.
End LoadingFrame.

(** ** From the download to the loading loop *)

Lemma check_existing_present pdb_files (w : World) :
  (forall pdb_file, pdb_file ∈ pdb_files -> is_Some (files w !! pdb_file)) ->
  forall existing, check_existing pdb_files existing w = (Ok (existing ++ pdb_files), w).
Proof.
  induction pdb_files as [|pdb_file rest IH]; intros Hall existing.
  - simpl. unfold ret. rewrite app_nil_r. reflexivity.
  - simpl. unfold bind at 1, os_path_exists.
    rewrite bool_decide_eq_true_2 by (apply Hall, list_elem_of_here).
    rewrite IH by (intros f Hf; apply Hall, list_elem_of_further, Hf).
    rewrite <- app_assoc. reflexivity.
Qed.

(** X11. The loading cell looks for the files where [download_pdb_files]
    puts them by default.  After a run into [pdb_structures] that returns,
    if every id of the list had its file or a fetch that succeeds, the
    existence check of cell 12 keeps the file of every id, in order, and
    prints no [File not found] line, so every id reaches
    [extract_sequence_and_contacts]. *)
Theorem download_then_load_finds_all
    (requests_get : string -> result Response)
    (parse_pdb : string -> result Structure) (three_to_one : string -> result ascii)
    pdb_ids (w w1 : World) :
  download_pdb_files requests_get pdb_ids "pdb_structures" w = (Ok tt, w1) ->
  (forall pdb_id, pdb_id ∈ pdb_ids ->
     is_Some (files w !! pdb_file_of pdb_id) \/
     fetch_failure requests_get (url_of (entry_id_of pdb_id)) = None) ->
  check_existing (pdb_file_of <$> pdb_ids) [] w1 = (Ok (pdb_file_of <$> pdb_ids), w1) /\
  load_data parse_pdb three_to_one pdb_ids w1
    = load_loop parse_pdb three_to_one (pdb_file_of <$> pdb_ids) ([], []) w1.
Proof.
  intros Hrun Hob.
  assert (forall pdb_file, pdb_file ∈ pdb_file_of <$> pdb_ids ->
            is_Some (files w1 !! pdb_file)) as Hall.
  { intros f Hf. apply list_elem_of_fmap in Hf as (pdb_id & -> & Hin).
    apply (download_pdb_files_obtains requests_get pdb_ids "pdb_structures" w w1
             Hrun pdb_id Hin).
    exact (Hob pdb_id Hin). }
  pose proof (check_existing_present _ w1 Hall []) as Hcheck. simpl in Hcheck.
  split; [exact Hcheck|].
  unfold load_data, bind. rewrite Hcheck. reflexivity.
Qed.

(** The server knows 1ABC; 2DEF is there already. *)
Lemma download_then_load_finds_all_witness :
  let w0 := mkWorld (<["pdb_structures/2DEF.pdb" := "water"]> ∅) (fun _ => None) [] in
  let w1 := mkWorld (<["pdb_structures/1ABC.pdb" := "three residues"]>
                       (<["pdb_structures/2DEF.pdb" := "water"]> ∅))
              (fun _ => None) ["Downloaded 1ABC.pdb"] in
  let pdb_ids := ["1ABC_1"; "2DEF_1"; "1ABC_2"] in
  download_pdb_files example_requests_get pdb_ids "pdb_structures" w0 = (Ok tt, w1) /\
  (forall pdb_id, pdb_id ∈ pdb_ids ->
     is_Some (files w0 !! pdb_file_of pdb_id) \/
     fetch_failure example_requests_get (url_of (entry_id_of pdb_id)) = None) /\
  check_existing (pdb_file_of <$> pdb_ids) [] w1 = (Ok (pdb_file_of <$> pdb_ids), w1) /\
  load_data example_parse biopython_three_to_one pdb_ids w1
    = load_loop example_parse biopython_three_to_one (pdb_file_of <$> pdb_ids) ([], []) w1.
Proof.
  intros w0 w1 pdb_ids.
  assert (download_pdb_files example_requests_get pdb_ids "pdb_structures" w0 = (Ok tt, w1))
    as Hrun by (vm_compute; reflexivity).
  assert (forall pdb_id, pdb_id ∈ pdb_ids ->
            is_Some (files w0 !! pdb_file_of pdb_id) \/
            fetch_failure example_requests_get (url_of (entry_id_of pdb_id)) = None) as Hob.
  { intros pdb_id Hin. unfold pdb_ids in Hin.
    repeat (apply elem_of_cons in Hin as [->|Hin]); [| | |inversion Hin].
    - right. reflexivity.
    - left. vm_compute. eexists; reflexivity.
    - right. reflexivity. }
  split; [exact Hrun|]. split; [exact Hob|].
  exact (download_then_load_finds_all example_requests_get example_parse
           biopython_three_to_one pdb_ids w0 w1 Hrun Hob).
Defined.

(** A repeated chain is loaded twice. *)
Example load_data_duplicates :
  (load_data example_parse biopython_three_to_one ["1ABC_1"; "1ABC_2"] example_world).1
    = Ok (["GAX"; "GAX"], [example_contact_map; example_contact_map]).
Proof. vm_compute. reflexivity. Qed.


(** * Coordinates that are not finite numbers *)

Lemma nonfinite_Prim2SF (x : float) :
  is_finite x = false -> sf_nonfinite (Prim2SF x).
Proof.
  unfold is_finite, sf_nonfinite. intros H.
  apply negb_false_iff, orb_true_iff in H.
  unfold Prim2SF.
  destruct (is_nan x) eqn:Hnan; [left; reflexivity|].
  destruct H as [H|Hinf]; [discriminate|].
  destruct (PrimFloat.is_zero x) eqn:Hz.
  - exfalso.
    assert (Prim2SF x = S754_zero (get_sign x)) as Hx
      by (unfold Prim2SF; rewrite Hnan, Hz; reflexivity).
    unfold is_infinity in Hinf.
    rewrite FloatAxioms.eqb_spec, FloatAxioms.abs_spec, Hx in Hinf.
    vm_compute in Hinf. discriminate.
  - rewrite Hinf. right. eauto.
Qed.

Ltac special_value :=
  first [left; reflexivity | right; reflexivity | right; eexists; reflexivity].

Lemma SF64sub_nonfinite_l x y : sf_nonfinite x -> sf_nonfinite (SF64sub x y).
Proof.
  intros [->|[s ->]]; [left; reflexivity|].
  destruct y as [sy|sy| |sy my ey]; [| destruct s, sy | |]; special_value.
Qed.

Lemma SF64sub_nonfinite_r x y : sf_nonfinite y -> sf_nonfinite (SF64sub x y).
Proof.
  intros [->|[s ->]].
  - left. destruct x; reflexivity.
  - destruct x as [sx|sx| |sx mx ex]; [| destruct s, sx | |]; special_value.
Qed.

Lemma SF64mul_square_nonfinite x : sf_nonfinite x -> sf_nan_or_pinf (SF64mul x x).
Proof.
  intros [->|[s ->]]; [left; reflexivity|].
  right. destruct s; reflexivity.
Qed.

Lemma SF64add_nan_or_pinf_l x y : sf_nan_or_pinf x -> sf_nan_or_pinf (SF64add x y).
Proof.
  intros [-> | ->]; [left; reflexivity|].
  destruct y as [sy|sy| |sy my ey]; [| destruct sy | |]; special_value.
Qed.

Lemma SF64add_nan_or_pinf_r x y : sf_nan_or_pinf y -> sf_nan_or_pinf (SF64add x y).
Proof.
  intros [-> | ->].
  - left. destruct x; reflexivity.
  - destruct x as [sx|sx| |sx mx ex]; [| destruct sx | |]; special_value.
Qed.

Lemma SF64sqrt_nan_or_pinf x : sf_nan_or_pinf x -> sf_nan_or_pinf (SF64sqrt x).
Proof. intros [-> | ->]; [left|right]; reflexivity. Qed.

Lemma SFltb_nan_or_pinf x y : sf_nan_or_pinf x -> SFltb x y = false.
Proof.
  intros [-> | ->]; [reflexivity|].
  destruct y as [sy|sy| |sy my ey]; try reflexivity. destruct sy; reflexivity.
Qed.

(** The square of a difference with a non-finite operand. *)
Lemma square_diff_nonfinite (a b : float) :
  is_finite a = false \/ is_finite b = false ->
  sf_nan_or_pinf (Prim2SF ((a - b) * (a - b))%float).
Proof.
  intros H. rewrite FloatAxioms.mul_spec, FloatAxioms.sub_spec.
  apply SF64mul_square_nonfinite.
  destruct H as [H|H].
  - apply SF64sub_nonfinite_l, nonfinite_Prim2SF, H.
  - apply SF64sub_nonfinite_r, nonfinite_Prim2SF, H.
Qed.

(** A point with a coordinate that is NaN or infinite is in contact with
    no point. *)
Lemma getDistance_nonfinite (p q : coord) :
  finite_coord p = false ->
  (getDistance p q <? contact_threshold)%float = false.
Proof.
  destruct p as [[ax ay] az], q as [[bx by_] bz]. unfold finite_coord, getDistance.
  intros H. rewrite FloatAxioms.ltb_spec. apply SFltb_nan_or_pinf.
  rewrite FloatAxioms.sqrt_spec. apply SF64sqrt_nan_or_pinf.
  rewrite FloatAxioms.add_spec.
  apply andb_false_iff in H as [H|Hz].
  - apply SF64add_nan_or_pinf_l. rewrite FloatAxioms.add_spec.
    apply andb_false_iff in H as [Hx|Hy].
    + apply SF64add_nan_or_pinf_l, square_diff_nonfinite. left; exact Hx.
    + apply SF64add_nan_or_pinf_r, square_diff_nonfinite. left; exact Hy.
  - apply SF64add_nan_or_pinf_r, square_diff_nonfinite. left; exact Hz.
Qed.

Section NonFinite.
Variable parse_pdb : string -> result Structure.
Variable three_to_one : string -> result ascii.

(** X12. A CA atom with a coordinate that is NaN or infinite is in contact
    with no residue: its row and its column of the returned contact map
    are all 0.0, its own diagonal entry included.  (The distance to such a
    point is NaN or infinite, and both compare false with 8.0.) *)
Theorem nonfinite_coordinates_have_no_contact pdb_file (w w' : World) seq cmap :
  extract_sequence_and_contacts parse_pdb three_to_one pdb_file w
    = (Ok (Some seq, Some cmap), w') ->
  forall file_text structure ca_atoms i a,
    files w !! pdb_file = Some file_text ->
    parse_pdb file_text = Ok structure ->
    select_CA structure = Some ca_atoms ->
    ca_atoms !! i = Some a ->
    finite_coord (atom_coords a) = false ->
    forall j, (j < length cmap)%nat ->
      entry cmap i j = Some f32_zero /\ entry cmap j i = Some f32_zero.
Proof.
  intros Hext file_text structure ca_atoms i a Hfile Hparse Hca Ha Hbad j Hj.
  destruct (extract_success _ _ _ _ _ _ _ Hext)
    as (t' & s' & ca' & Hfile' & Hparse' & Hca' & _ & _ & -> & _).
  rewrite Hfile in Hfile'. inversion Hfile'; subst t'.
  rewrite Hparse in Hparse'. inversion Hparse'; subst s'.
  rewrite Hca in Hca'. inversion Hca'; subst ca'.
  pose proof (contact_map_of_shape ca_atoms) as [Hlen _]. rewrite Hlen in Hj.
  destruct (lookup_lt_is_Some_2 ca_atoms j Hj) as [b Hb].
  assert (getCoords ca_atoms !! i = Some (atom_coords a)) as Hp
    by (unfold getCoords; rewrite list_lookup_fmap, Ha; reflexivity).
  assert (getCoords ca_atoms !! j = Some (atom_coords b)) as Hq
    by (unfold getCoords; rewrite list_lookup_fmap, Hb; reflexivity).
  rewrite !contact_map_of_entry_cases, Hp, Hq.
  rewrite (getDistance_comm (atom_coords b) (atom_coords a)).
  rewrite (getDistance_nonfinite _ (atom_coords b) Hbad). split; reflexivity.
Qed.
End NonFinite.

Lemma nonfinite_coordinates_have_no_contact_witness :
  let parse := fun _ : string => Ok example_nan_structure in
  let w := mkWorld (<["pdb_structures/6PQR.pdb" := "unreadable x"]> ∅) (fun _ => None) [] in
  let cmap := [[f32_zero; f32_zero]; [f32_zero; f32_one]] in
  extract_sequence_and_contacts parse biopython_three_to_one "pdb_structures/6PQR.pdb" w
    = (Ok (Some "GA", Some cmap), w) /\
  finite_coord (nan, 0, 0)%float = false /\
  forall j, (j < length cmap)%nat ->
    entry cmap 0 j = Some f32_zero /\ entry cmap j 0 = Some f32_zero.
Proof.
  intros parse w cmap.
  assert (extract_sequence_and_contacts parse biopython_three_to_one
            "pdb_structures/6PQR.pdb" w = (Ok (Some "GA", Some cmap), w)) as Hext
    by (vm_compute; reflexivity).
  split; [exact Hext|]. split; [reflexivity|].
  exact (nonfinite_coordinates_have_no_contact parse biopython_three_to_one
           "pdb_structures/6PQR.pdb" w w "GA" cmap Hext
           "unreadable x" example_nan_structure example_nan_structure 0%nat
           (mkAtom "CA" "GLY" (nan, 0, 0)%float)
           eq_refl eq_refl eq_refl eq_refl eq_refl).
Defined.


(** * Small data sets: which parts of the split are empty *)

(** A product with a constant below one stays strictly below [n]. *)
Lemma int_of_product_lt mc m e n :
  0 < mc <= 2 ^ 53 - 2 ->
  2 ^ 52 <= m < 2 ^ 53 ->
  -52 <= e <= 11 ->
  (e <= 0 -> m = n * 2 ^ (- e)) ->
  (0 < e -> m * 2 ^ e - 2 ^ (e - 1) <= n) ->
  int_of_product mc m e < n.
Proof.
  intros Hmc Hm He Hsmall Hlarge. unfold int_of_product.
  assert (0 < 2 ^ (53 - e)) as Hpow by (apply Z.pow_pos_nonneg; lia).
  assert (round53 (mc * m) <= (m - 1) * 2 ^ 53) as Hr.
  { rewrite <- (round53_exact_any (m - 1) 53) by lia.
    apply round53_mono; nia. }
  apply Z.div_lt_upper_bound; [lia|].
  destruct (Z.le_gt_cases e 0) as [He0|He0].
  - specialize (Hsmall He0).
    assert (0 < 2 ^ (- e)) as Hpow' by (apply Z.pow_pos_nonneg; lia).
    replace (53 - e) with (53 + - e) by lia.
    rewrite Z.pow_add_r by lia. nia.
  - specialize (Hlarge He0).
    assert (0 < 2 ^ (e - 1)) as Hpow'' by (apply Z.pow_pos_nonneg; lia).
    assert (2 ^ e = 2 * 2 ^ (e - 1)) as E
      by (rewrite <- Z.pow_succ_r by lia; f_equal; lia).
    assert (2 ^ 53 = 2 ^ (53 - e) * 2 ^ e) as E53
      by (rewrite <- Z.pow_add_r by lia; f_equal; lia).
    nia.
Qed.

(** A product with a constant of at least one half is at least one as
    soon as [n] is at least two. *)
Lemma int_of_product_ge1 mc m e n :
  2 ^ 52 <= mc ->
  2 ^ 52 <= m < 2 ^ 53 ->
  -52 <= e <= 11 ->
  (e <= 0 -> m = n * 2 ^ (- e)) ->
  2 <= n ->
  1 <= int_of_product mc m e.
Proof.
  intros Hmc Hm He Hsmall Hn. unfold int_of_product.
  assert (0 < 2 ^ (53 - e)) as Hpow by (apply Z.pow_pos_nonneg; lia).
  assert (m * 2 ^ 52 <= round53 (mc * m)) as Hr.
  { rewrite <- (round53_exact_any m 52) by lia.
    apply round53_mono; nia. }
  apply Z.div_le_lower_bound; [lia|].
  destruct (Z.le_gt_cases e 0) as [He0|He0].
  - specialize (Hsmall He0).
    assert (0 < 2 ^ (- e)) as Hpow' by (apply Z.pow_pos_nonneg; lia).
    replace (53 - e) with (53 + - e) by lia.
    rewrite Z.pow_add_r by lia.
    change (2 ^ 53) with (2 * 2 ^ 52). nia.
  - assert (2 ^ (53 - e) <= 2 ^ 52) by (apply Z.pow_le_mono_r; lia).
    nia.
Qed.

Lemma split_bounds_strict n :
  (0 < n)%nat -> Z.of_nat n < 2 ^ 63 ->
  exists train_end val_end,
    train_end_of n = Ok train_end /\
    val_end_of n = Ok val_end /\
    0 <= train_end <= val_end /\ val_end < Z.of_nat n /\
    ((2 <= n)%nat -> 1 <= train_end).
Proof.
  intros Hpos Hlt.
  destruct (Prim2SF_float_of_nat n Hpos Hlt)
    as (m & e & Hx & Hm & He & Hsmall & Hlarge).
  exists (int_of_product train_mantissa (Zpos m) e),
         (int_of_product val_mantissa (Zpos m) e).
  split; [|split; [|split; [|split]]].
  - apply (py_int_product train_fraction (float_of_nat n) 6305039478318694 m e);
      [reflexivity|lia|exact Hx|exact Hm|exact He].
  - apply (py_int_product val_fraction (float_of_nat n) 7656119366529843 m e);
      [reflexivity|lia|exact Hx|exact Hm|exact He].
  - apply int_of_product_mono; [unfold train_mantissa, val_mantissa; lia|lia|lia].
  - apply (int_of_product_lt val_mantissa (Zpos m) e (Z.of_nat n));
      [unfold val_mantissa; lia|exact Hm|exact He|exact Hsmall|exact Hlarge].
  - intros H2.
    apply (int_of_product_ge1 train_mantissa (Zpos m) e (Z.of_nat n));
      [unfold train_mantissa; lia|exact Hm|exact He|exact Hsmall|lia].
Qed.

(** Rounding down takes off at most half a unit of the last place. *)
Lemma rne_lower P k :
  0 < k -> 0 <= P -> P - 2 ^ (k - 1) <= rne P k * 2 ^ k.
Proof.
  intros Hk HP.
  assert (0 < 2 ^ (k - 1)) as Hpow by (apply Z.pow_pos_nonneg; lia).
  assert (2 ^ k = 2 * 2 ^ (k - 1)) as E
    by (rewrite <- Z.pow_succ_r by lia; f_equal; lia).
  pose proof (Z.div_mod P (2 ^ k) ltac:(lia)) as Hdm.
  pose proof (mod_pow2_split P k Hk) as Hsplit.
  pose proof (Z.mod_pos_bound P (2 ^ (k - 1)) ltac:(lia)) as Hr.
  unfold rne. destruct (Z.testbit P (k - 1)).
  - destruct (Z.eqb_spec (P mod 2 ^ (k - 1)) 0);
      [destruct (Z.even (P / 2 ^ k))|]; nia.
  - nia.
Qed.

(** The rounding error of a product of two 53-bit mantissas. *)
Lemma round53_product_error mc m :
  2 ^ 52 <= mc < 2 ^ 53 -> 2 ^ 52 <= m < 2 ^ 53 ->
  mc * m - 2 ^ 52 <= round53 (mc * m) <= mc * m + 2 ^ 52.
Proof.
  intros Hmc Hm. set (P := mc * m).
  assert (2 ^ 104 <= P < 2 ^ 106) as HPb.
  { unfold P. change (2 ^ 104) with (2 ^ 52 * 2 ^ 52).
    change (2 ^ 106) with (2 ^ 53 * 2 ^ 53). nia. }
  assert (105 <= Zdigits2 P <= 106) as HdP.
  { split.
    - change 105 with (Zdigits2 (2 ^ 104)). apply Zdigits2_mono; lia.
    - change 106 with (Zdigits2 (2 ^ 106 - 1)). apply Zdigits2_mono; lia. }
  rewrite (round53_large P) by lia.
  pose proof (rne_lower P (Zdigits2 P - 53) ltac:(lia) ltac:(lia)) as Hlo.
  pose proof (rne_upper P (Zdigits2 P - 53) ltac:(lia) ltac:(lia)) as Hhi.
  assert (2 ^ (Zdigits2 P - 53 - 1) <= 2 ^ 52) by (apply Z.pow_le_mono_r; lia).
  lia.
Qed.

(** From seven sequences on, [int(0.85 * n)] exceeds [int(0.7 * n)]. *)
Lemma int_of_product_gap m e n :
  2 ^ 52 <= m < 2 ^ 53 ->
  -52 <= e <= 11 ->
  (e <= 0 -> m = n * 2 ^ (- e)) ->
  7 <= n ->
  int_of_product train_mantissa m e + 1 <= int_of_product val_mantissa m e.
Proof.
  intros Hm He Hsmall Hn. unfold int_of_product.
  assert (0 < 2 ^ (53 - e)) as Hpow by (apply Z.pow_pos_nonneg; lia).
  pose proof (round53_product_error train_mantissa m
                ltac:(unfold train_mantissa; lia) Hm) as [_ Ht].
  pose proof (round53_product_error val_mantissa m
                ltac:(unfold val_mantissa; lia) Hm) as [Hv _].
  assert (round53 (train_mantissa * m) + 1 * 2 ^ (53 - e) <= round53 (val_mantissa * m))
    as Hgap.
  { unfold train_mantissa, val_mantissa in *.
    destruct (Z.le_gt_cases e (-5)) as [He5|He5].
    - specialize (Hsmall ltac:(lia)).
      assert (2 ^ 5 <= 2 ^ (- e)) as HK by (apply Z.pow_le_mono_r; lia).
      change (2 ^ 5) with 32 in HK.
      replace (53 - e) with (53 + - e) by lia.
      rewrite Z.pow_add_r by lia.
      change (2 ^ 53) with 9007199254740992 in *.
      change (2 ^ 52) with 4503599627370496 in *.
      nia.
    - assert (2 ^ (53 - e) <= 2 ^ 57) as HK by (apply Z.pow_le_mono_r; lia).
      change (2 ^ 57) with 144115188075855872 in HK.
      change (2 ^ 53) with 9007199254740992 in *.
      change (2 ^ 52) with 4503599627370496 in *.
      nia. }
  rewrite <- (Z.div_add (round53 (train_mantissa * m)) 1 (2 ^ (53 - e))) by lia.
  apply Z.div_le_mono; [lia|exact Hgap].
Qed.

(** The two bounds for every length: the test part is never empty, the
    training part is empty below two sequences and the validation part
    below four. *)
Lemma split_bounds_small n :
  Z.of_nat n < 2 ^ 63 ->
  exists train_end val_end,
    train_end_of n = Ok train_end /\
    val_end_of n = Ok val_end /\
    0 <= train_end <= val_end /\ val_end <= Z.of_nat n /\
    ((1 <= n)%nat -> val_end < Z.of_nat n) /\
    ((2 <= n)%nat <-> 1 <= train_end) /\
    ((4 <= n)%nat <-> train_end < val_end).
Proof.
  intros Hlt.
  destruct (decide (n < 7)%nat) as [Hsmall|Hbig].
  - do 7 (destruct n as [|n];
          [eexists _, _; split; [vm_compute; reflexivity|];
           split; [vm_compute; reflexivity|]; lia|]).
    lia.
  - destruct (Prim2SF_float_of_nat n ltac:(lia) Hlt)
      as (m & e & Hx & Hm & He & Hexact & Hround).
    destruct (split_bounds_strict n ltac:(lia) Hlt)
      as (a & b & Ha & Hb & Hab & Hbn & Ha1).
    exists a, b. split; [exact Ha|]. split; [exact Hb|].
    split; [exact Hab|]. split; [lia|]. split; [intros _; exact Hbn|].
    split; [split; [intros _; apply Ha1; lia|lia]|].
    split; [intros _|lia].
    assert (train_end_of n = Ok (int_of_product train_mantissa (Zpos m) e)) as Ha'
      by (apply (py_int_product train_fraction (float_of_nat n) 6305039478318694 m e);
          [reflexivity|lia|exact Hx|exact Hm|exact He]).
    assert (val_end_of n = Ok (int_of_product val_mantissa (Zpos m) e)) as Hb'
      by (apply (py_int_product val_fraction (float_of_nat n) 7656119366529843 m e);
          [reflexivity|lia|exact Hx|exact Hm|exact He]).
    rewrite Ha in Ha'. rewrite Hb in Hb'. inversion Ha'; inversion Hb'; subst.
    pose proof (int_of_product_gap (Zpos m) e (Z.of_nat n) Hm He Hexact ltac:(lia)).
    lia.
Qed.

Section SmallSplits.
Variable shuffle : list nat -> list nat.
Hypothesis shuffle_permutation : forall l, shuffle l ≡ₚ l.

(** The sizes of the six lists of the split. *)
Lemma split_data_lengths sequences contact_maps train_end val_end :
  length contact_maps = length sequences ->
  train_end_of (length sequences) = Ok train_end ->
  val_end_of (length sequences) = Ok val_end ->
  0 <= train_end <= val_end -> val_end <= Z.of_nat (length sequences) ->
  exists sp,
    split_data shuffle sequences contact_maps = Ok sp /\
    Z.of_nat (length (train_sequences sp)) = train_end /\
    Z.of_nat (length (val_sequences sp)) = val_end - train_end /\
    Z.of_nat (length (test_sequences sp)) = Z.of_nat (length sequences) - val_end /\
    length (train_contact_maps sp) = length (train_sequences sp) /\
    length (val_contact_maps sp) = length (val_sequences sp) /\
    length (test_contact_maps sp) = length (test_sequences sp).
Proof.
  intros Hlen Ha Hb Hab Hbn. set (n := length sequences) in *.
  set (indices := shuffle (seq 0 n)).
  assert (indices ≡ₚ seq 0 n) as Hperm by apply shuffle_permutation.
  assert (length indices = n) as Hilen
    by (rewrite (Permutation_length Hperm); apply length_seq).
  set (a' := Z.to_nat train_end). set (b' := Z.to_nat val_end).
  assert (train_end = Z.of_nat a') as Ea by lia.
  assert (val_end = Z.of_nat b') as Eb by lia.
  assert (a' <= b' <= length indices)%nat as Hnat by lia.
  set (tr := take a' indices). set (va := drop a' (take b' indices)).
  set (te := drop b' indices).
  assert (tr ++ va ++ te = indices) as Happ by (apply slices_app; exact Hnat).
  assert (forall i, i ∈ indices -> (i < n)%nat) as Hrange.
  { intros i Hi. rewrite Hperm in Hi. apply elem_of_seq in Hi. lia. }
  assert (forall part, part ⊆ indices ->
            Forall (fun i => (i < length sequences)%nat) part /\
            Forall (fun i => (i < length contact_maps)%nat) part) as Hsel.
  { intros part Hsub. rewrite Hlen. split; apply Forall_forall; intros i Hi;
      apply Hrange, Hsub, Hi. }
  assert (tr ⊆ indices) as Htr
    by (intros i Hi; rewrite <- Happ, !elem_of_app; auto).
  assert (va ⊆ indices) as Hva
    by (intros i Hi; rewrite <- Happ, !elem_of_app; auto).
  assert (te ⊆ indices) as Hte
    by (intros i Hi; rewrite <- Happ, !elem_of_app; auto).
  destruct (py_select_spec sequences tr (proj1 (Hsel tr Htr))) as (s1 & Hs1 & Hf1).
  destruct (py_select_spec sequences va (proj1 (Hsel va Hva))) as (s2 & Hs2 & Hf2).
  destruct (py_select_spec sequences te (proj1 (Hsel te Hte))) as (s3 & Hs3 & Hf3).
  destruct (py_select_spec contact_maps tr (proj2 (Hsel tr Htr))) as (c1 & Hc1 & Hg1).
  destruct (py_select_spec contact_maps va (proj2 (Hsel va Hva))) as (c2 & Hc2 & Hg2).
  destruct (py_select_spec contact_maps te (proj2 (Hsel te Hte))) as (c3 & Hc3 & Hg3).
  exists (mkSplit tr va te s1 s2 s3 c1 c2 c3).
  split.
  { unfold split_data. fold n. fold indices. rewrite Ha, Hb. simpl.
    rewrite Ea, Eb.
    rewrite (py_slice_to_nat indices a') by lia.
    rewrite (py_slice_nat indices a' b') by lia.
    rewrite (py_slice_from_nat indices b') by lia.
    fold tr va te. rewrite Hs1. simpl. rewrite Hs2. simpl. rewrite Hs3. simpl.
    rewrite Hc1. simpl. rewrite Hc2. simpl. rewrite Hc3. reflexivity. }
  simpl.
  apply Forall2_length in Hf1, Hf2, Hf3, Hg1, Hg2, Hg3.
  assert (length tr = a') by (unfold tr; rewrite length_take; lia).
  assert (length va = (b' - a')%nat) by (unfold va; rewrite length_drop, length_take; lia).
  assert (length te = (n - b')%nat) by (unfold te; rewrite length_drop; lia).
  repeat split; lia.
Qed.

(** X13. Which parts of the split are empty, for every number [n] of
    loaded sequences: the test part holds at least one sequence as soon as
    there is one; the training part is empty exactly when [n < 2]; the
    validation part is empty exactly when [n < 4].  Each part has as many
    contact maps as sequences. *)
Theorem split_empty_parts sequences contact_maps :
  length contact_maps = length sequences ->
  Z.of_nat (length sequences) < 2 ^ 63 ->
  let n := length sequences in
  exists sp,
    split_data shuffle sequences contact_maps = Ok sp /\
    ((1 <= n)%nat -> test_sequences sp <> []) /\
    ((2 <= n)%nat <-> train_sequences sp <> []) /\
    ((4 <= n)%nat <-> val_sequences sp <> []) /\
    length (train_contact_maps sp) = length (train_sequences sp) /\
    length (val_contact_maps sp) = length (val_sequences sp) /\
    length (test_contact_maps sp) = length (test_sequences sp).
Proof.
  intros Hlen Hbound n.
  destruct (split_bounds_small n Hbound)
    as (a & b & Ha & Hb & Hab & Hbn & Htest & Htrain & Hval).
  destruct (split_data_lengths sequences contact_maps a b Hlen Ha Hb Hab Hbn)
    as (sp & Hsp & L1 & L2 & L3 & L4 & L5 & L6).
  fold n in L3.
  assert (forall (l : list string), l <> [] <-> (0 < length l)%nat) as Hne.
  { intros l. destruct l; simpl; split; intros; (congruence || lia). }
  exists sp. split; [exact Hsp|].
  split; [intros H1; apply Hne; specialize (Htest H1); lia|].
  split; [rewrite Hne; rewrite Htrain; lia|].
  split; [rewrite Hne; rewrite Hval; lia|].
  repeat split; assumption.
Qed.
End SmallSplits.

Lemma split_empty_parts_witness :
  let sequences := ["GAX"; "AA"; "A"] in
  let contact_maps := [example_contact_map; f32_ones 2; f32_ones 1] in
  (forall l : list nat, reverse l ≡ₚ l) /\
  length contact_maps = length sequences /\
  Z.of_nat (length sequences) < 2 ^ 63 /\
  exists sp,
    split_data reverse sequences contact_maps = Ok sp /\
    ((1 <= 3)%nat -> test_sequences sp <> []) /\
    ((2 <= 3)%nat <-> train_sequences sp <> []) /\
    ((4 <= 3)%nat <-> val_sequences sp <> []) /\
    length (train_contact_maps sp) = length (train_sequences sp) /\
    length (val_contact_maps sp) = length (val_sequences sp) /\
    length (test_contact_maps sp) = length (test_sequences sp).
Proof.
  intros sequences contact_maps.
  assert (forall l : list nat, reverse l ≡ₚ l) as Hperm
    by (intros l; apply reverse_Permutation).
  split; [exact Hperm|]. split; [reflexivity|]. split; [reflexivity|].
  exact (split_empty_parts reverse Hperm sequences contact_maps eq_refl eq_refl).
Defined.

(** Three sequences: two for training, none for validation, one for the
    test. *)
Example split_of_three :
  exists sp,
    split_data reverse ["GAX"; "AA"; "A"] [example_contact_map; f32_ones 2; f32_ones 1]
      = Ok sp /\
    train_sequences sp = ["A"; "AA"] /\
    val_sequences sp = [] /\
    test_sequences sp = ["GAX"].
Proof. eexists. split; [vm_compute; reflexivity|]. repeat split. Qed.


(** * find_similar_structures: the similarity and the failures *)

Lemma count_matches_comm s : forall t, count_matches s t = count_matches t s.
Proof.
  induction s as [|a s IH]; intros [|b t]; simpl; try reflexivity.
  rewrite (IH t), (Ascii.eqb_sym a b). reflexivity.
Qed.

Lemma count_matches_le s : forall t, (count_matches s t <= String.length s)%nat.
Proof.
  induction s as [|a s IH]; intros [|b t]; simpl; try lia.
  specialize (IH t). destruct (Ascii.eqb a b); lia.
Qed.

Lemma str_prefix_length n : forall s,
  String.length (str_prefix n s) = Nat.min n (String.length s).
Proof.
  unfold str_prefix. induction n as [|n IH]; intros [|c s]; simpl; try reflexivity.
  rewrite IH. reflexivity.
Qed.

Lemma str_prefix_app n : forall s t,
  (n <= String.length s)%nat -> str_prefix n (s +:+ t) = str_prefix n s.
Proof.
  unfold str_prefix. induction n as [|n IH]; intros s t Hn.
  - destruct s, t; reflexivity.
  - destruct s as [|c s]; simpl in Hn; [lia|].
    rewrite app_String. simpl. rewrite IH by lia. reflexivity.
Qed.

(** X14. The similarity of two sequences does not depend on which of the
    two is the query, and it looks at the common prefix only: what follows
    the first [len(sequence)] characters of a database sequence has no
    influence.  The number of matches never exceeds the length compared. *)
Theorem similarity_symmetric_prefix (sequence seq : string) :
  similarity sequence seq = similarity seq sequence /\
  (forall extra, (String.length sequence <= String.length seq)%nat ->
     similarity sequence (seq +:+ extra) = similarity sequence seq) /\
  let min_len := Nat.min (String.length sequence) (String.length seq) in
  (count_matches (str_prefix min_len sequence) (str_prefix min_len seq) <= min_len)%nat.
Proof.
  split; [|split].
  - unfold similarity. rewrite (Nat.min_comm (String.length seq)).
    rewrite count_matches_comm. reflexivity.
  - intros extra Hle. unfold similarity.
    rewrite string_length_app.
    replace (Nat.min (String.length sequence) (String.length seq + String.length extra))
      with (String.length sequence) by lia.
    replace (Nat.min (String.length sequence) (String.length seq))
      with (String.length sequence) by lia.
    rewrite str_prefix_app by exact Hle. reflexivity.
  - intros min_len.
    etransitivity; [apply count_matches_le|].
    rewrite str_prefix_length. lia.
Qed.

(** ** Division by zero *)

Lemma similarity_raises sequence seq :
  (sequence = "" \/ seq = "") ->
  similarity sequence seq = Raise (ZeroDivisionError "division by zero").
Proof.
  intros H. unfold similarity, py_truediv.
  assert (Nat.min (String.length sequence) (String.length seq) = 0%nat) as ->.
  { destruct H as [-> | ->]; simpl; lia. }
  reflexivity.
Qed.

Lemma similarity_returns sequence seq :
  sequence <> "" -> seq <> "" -> exists s, similarity sequence seq = Ok s.
Proof.
  intros H1 H2. unfold similarity, py_truediv.
  rewrite bool_decide_eq_false_2; [eauto|].
  destruct sequence, seq; simpl; congruence || lia.
Qed.

Lemma similar_loop_raises sequence threshold pairs : forall similar_structs,
  (sequence = "" /\ pairs <> []) \/ Exists (fun p : string * matrix float32 => p.1 = "") pairs ->
  similar_loop sequence threshold pairs similar_structs
    = Raise (ZeroDivisionError "division by zero").
Proof.
  induction pairs as [|[seq cmap] rest IH]; intros acc H.
  - destruct H as [[_ H]|H]; [congruence|inversion H].
  - simpl. destruct (decide (sequence = "")) as [->|Hs].
    { rewrite similarity_raises by auto. reflexivity. }
    destruct (decide (seq = "")) as [->|Hq].
    { rewrite similarity_raises by auto. reflexivity. }
    destruct (similarity_returns sequence seq Hs Hq) as [s ->]. simpl.
    assert ((sequence = "" /\ rest <> []) \/
            Exists (fun p : string * matrix float32 => p.1 = "") rest) as H'.
    { destruct H as [[H _]|H]; [congruence|].
      inversion H; subst; [simpl in *; congruence|right; assumption]. }
    destruct (threshold <? s)%float; apply IH; exact H'.
Qed.

Lemma similar_loop_returns sequence threshold pairs : forall similar_structs,
  ~ ((sequence = "" /\ pairs <> []) \/
     Exists (fun p : string * matrix float32 => p.1 = "") pairs) ->
  exists out,
    similar_loop sequence threshold pairs similar_structs = Ok (similar_structs ++ out) /\
    Forall (within_square (String.length sequence)) out.
Proof.
  induction pairs as [|[seq cmap] rest IH]; intros acc H.
  - exists []. simpl. rewrite app_nil_r. split; [reflexivity|constructor].
  - assert (sequence <> "") as Hs.
    { intros ->. apply H. left. split; [reflexivity|discriminate]. }
    assert (seq <> "") as Hq.
    { intros ->. apply H. right. constructor. reflexivity. }
    assert (~ ((sequence = "" /\ rest <> []) \/
               Exists (fun p : string * matrix float32 => p.1 = "") rest)) as H'.
    { intros [[? _]|Hex]; [congruence|]. apply H. right. constructor 2. exact Hex. }
    simpl. destruct (similarity_returns sequence seq Hs Hq) as [s ->]. simpl.
    destruct (threshold <? s)%float.
    + destruct (IH (acc ++ [slice2 (String.length sequence) cmap]) H') as (out & Hout & Hall).
      exists (slice2 (String.length sequence) cmap :: out).
      rewrite Hout, <- app_assoc. split; [reflexivity|].
      constructor; [|exact Hall].
      unfold within_square, slice2. split.
      * rewrite length_fmap, length_take. lia.
      * apply Forall_fmap, Forall_forall. intros row _. simpl.
        rewrite length_take. lia.
    + exact (IH acc H').
Qed.

Lemma within_square_mat_add k a b :
  within_square k a -> within_square k (mat_add a b).
Proof.
  intros [Hlen Hrows]. unfold mat_add. split.
  - rewrite length_zip_with. lia.
  - revert b. induction a as [|ra a IH]; intros [|rb b]; simpl; try constructor.
    + inversion Hrows; subst. rewrite length_zip_with. lia.
    + inversion Hrows; subst. apply IH; [simpl in Hlen; lia|assumption].
Qed.

Lemma within_square_foldl k others : forall first,
  within_square k first -> within_square k (foldl mat_add first others).
Proof.
  induction others as [|m rest IH]; intros first H; [exact H|].
  simpl. apply IH, within_square_mat_add, H.
Qed.

Lemma within_square_mat_div k a count :
  within_square k a -> within_square k (mat_div a count).
Proof.
  intros [Hlen Hrows]. unfold mat_div. split.
  - rewrite length_fmap. exact Hlen.
  - apply Forall_fmap. eapply Forall_impl; [exact Hrows|].
    intros row Hrow. simpl. rewrite length_fmap. exact Hrow.
Qed.

Lemma within_square_slice2 {A} k (m : matrix A) : within_square k (slice2 k m).
Proof.
  unfold within_square, slice2. split.
  - rewrite length_fmap, length_take. lia.
  - apply Forall_fmap, Forall_forall. intros row _. simpl. rewrite length_take. lia.
Qed.

Lemma np_mean_axis0_raises arrays e :
  np_mean_axis0 arrays = Raise e -> exists msg, e = ValueError msg.
Proof.
  unfold np_mean_axis0. destruct arrays as [|first others]; [intros H; inversion H; eauto|].
  destruct (forallb _ _); intros H; inversion H; eauto.
Qed.

(** X15. [find_similar_structures] raises [ZeroDivisionError] exactly when
    the query is empty and at least one database sequence is paired with a
    contact map, or some paired database sequence is empty; the only other
    exception it raises is the [ValueError] of [np.mean]. *)
Theorem find_similar_structures_zero_division sequence sequences contact_maps threshold :
  (find_similar_structures sequence sequences contact_maps threshold
     = Raise (ZeroDivisionError "division by zero") <->
   (sequence = "" /\ zip sequences contact_maps <> []) \/
   Exists (fun p : string * matrix float32 => p.1 = "") (zip sequences contact_maps)) /\
  (forall e,
     find_similar_structures sequence sequences contact_maps threshold = Raise e ->
     e = ZeroDivisionError "division by zero" \/ exists msg, e = ValueError msg).
Proof.
  set (pairs := zip sequences contact_maps).
  set (cond := (sequence = "" /\ pairs <> []) \/
               Exists (fun p : string * matrix float32 => p.1 = "") pairs).
  assert (cond \/ ~ cond) as [Hc|Hc].
  { unfold cond. destruct (decide (sequence = "")) as [Hs|Hs].
    - destruct pairs as [|p rest]; [|left; left; split; [exact Hs|discriminate]].
      right. intros [[_ H]|H]; [congruence|inversion H].
    - destruct (decide (Exists (fun p : string * matrix float32 => p.1 = "") pairs))
        as [H|H].
      + left. right. exact H.
      + right. intros [[? _]|?]; [congruence|contradiction]. }
  - pose proof (similar_loop_raises sequence threshold pairs [] Hc) as Hloop.
    unfold find_similar_structures. fold pairs. rewrite Hloop. simpl.
    split; [split; [intros _; exact Hc|reflexivity]|].
    intros e H. inversion H. left. reflexivity.
  - destruct (similar_loop_returns sequence threshold pairs [] Hc) as (out & Hloop & _).
    unfold find_similar_structures. fold pairs. rewrite Hloop. simpl.
    assert (forall e,
      match out with
      | [] => Ok (np_zeros (String.length sequence) (String.length sequence))
      | _ :: _ =>
          aggregated_struct ← np_mean_axis0 out;
          (if bool_decide ((shape aggregated_struct).1 ≠ String.length sequence)
           then Ok (slice2 (String.length sequence) aggregated_struct)
           else Ok aggregated_struct)
      end = Raise e -> exists msg, e = ValueError msg) as Hval.
    { intros e. destruct out as [|m rest]; [discriminate|].
      destruct (np_mean_axis0 (m :: rest)) as [agg|e'] eqn:Hm; simpl.
      - destruct (bool_decide _); discriminate.
      - intros H. inversion H; subst. exact (np_mean_axis0_raises _ _ Hm). }
    split.
    + split; [|intros H; contradiction].
      intros H. apply Hval in H as [msg H]. discriminate.
    + intros e H. right. exact (Hval e H).
Qed.

(** X16. Whatever the sizes of the contact maps of the database, an array
    that [find_similar_structures] returns has at most [len(sequence)] rows
    and at most [len(sequence)] columns. *)
Theorem find_similar_structures_within sequence sequences contact_maps threshold aggregated :
  find_similar_structures sequence sequences contact_maps threshold = Ok aggregated ->
  (length aggregated <= String.length sequence)%nat /\
  Forall (fun row => (length row <= String.length sequence)%nat) aggregated.
Proof.
  unfold find_similar_structures.
  set (pairs := zip sequences contact_maps).
  set (k := String.length sequence).
  assert (forall acc out, similar_loop sequence threshold pairs acc = Ok out ->
            Forall (within_square k) acc -> Forall (within_square k) out) as Hloop.
  { induction pairs as [|[seq cmap] rest IH]; intros acc out.
    - intros H; inversion H; subst. tauto.
    - simpl. destruct (similarity sequence seq) as [s|e]; [|discriminate]. simpl.
      destruct (threshold <? s)%float; intros H Hacc.
      + apply (IH _ _ H). apply Forall_app. split; [exact Hacc|].
        constructor; [apply within_square_slice2|constructor].
      + exact (IH _ _ H Hacc). }
  destruct (similar_loop sequence threshold pairs []) as [structs|e] eqn:Hs; [|discriminate].
  specialize (Hloop [] structs Hs (Forall_nil_2 _)). simpl.
  destruct structs as [|first others].
  - intros H; inversion H; subst. split.
    + unfold np_zeros. rewrite length_replicate. lia.
    + unfold np_zeros. apply Forall_replicate. rewrite length_replicate. lia.
  - unfold np_mean_axis0. destruct (forallb _ _); [|discriminate]. simpl.
    inversion Hloop as [|? ? Hfirst Hothers]; subst.
    assert (within_square k (mat_div (foldl mat_add first others) (length (first :: others))))
      as Hagg by (apply within_square_mat_div, within_square_foldl, Hfirst).
    destruct (bool_decide _); intros H; inversion H; subst.
    + apply within_square_slice2.
    + exact Hagg.
Qed.

Lemma zip_take_min {A B} (l1 : list A) : forall (l2 : list B),
  zip (take (Nat.min (length l1) (length l2)) l1)
      (take (Nat.min (length l1) (length l2)) l2) = zip l1 l2.
Proof.
  induction l1 as [|a l1 IH]; intros [|b l2]; simpl; try reflexivity.
  f_equal. apply IH.
Qed.

(** X17. The loop runs over [zip(sequences, contact_maps)]: when the two
    lists differ in length the surplus of the longer one is ignored, no
    exception is raised for it, and the result is the one for the two
    lists cut to the shorter length. *)
Theorem find_similar_structures_zip sequence sequences contact_maps threshold :
  let k := Nat.min (length sequences) (length contact_maps) in
  find_similar_structures sequence sequences contact_maps threshold
  = find_similar_structures sequence (take k sequences) (take k contact_maps) threshold.
Proof.
  intros k. unfold find_similar_structures, k. rewrite zip_take_min. reflexivity.
Qed.

(** A map of two rows for a query of three letters: the result has two
    rows, within the bound. *)
Lemma find_similar_structures_within_witness :
  find_similar_structures "AAA" ["AA"] [f32_ones 2] default_threshold = Ok (f32_ones 2) /\
  (length (f32_ones 2) <= String.length "AAA")%nat /\
  Forall (fun row => (length row <= String.length "AAA")%nat) (f32_ones 2).
Proof.
  assert (find_similar_structures "AAA" ["AA"] [f32_ones 2] default_threshold
          = Ok (f32_ones 2)) as H by (vm_compute; reflexivity).
  split; [exact H|].
  exact (find_similar_structures_within "AAA" ["AA"] [f32_ones 2] default_threshold
           (f32_ones 2) H).
Defined.

(** One empty database sequence is enough, wherever it stands. *)
Example find_similar_structures_empty_sequence :
  find_similar_structures "AAA" ["AAA"; ""; "ABC"] [f32_ones 3; []; f32_ones 3]
    default_threshold = Raise (ZeroDivisionError "division by zero") /\
  find_similar_structures "AAA" ["AAA"; ""; "ABC"] [f32_ones 3] default_threshold
    = Ok (f32_ones 3).
Proof. split; vm_compute; reflexivity. Qed.

(** ** A query that is in the database *)

(** A positive binary64 number divided by itself is exactly 1.0. *)
Lemma SF64div_self m e :
  2 ^ 52 <= Zpos m < 2 ^ 53 ->
  SF64div (S754_finite false m e) (S754_finite false m e) = Prim2SF 1%float.
Proof.
  intros Hm.
  assert (Zdigits2 (Zpos m) = 53) as Hd by (apply Zdigits2_unique; lia).
  unfold SF64div, SFdiv, SFdiv_core_binary. rewrite Hd.
  replace (53 + e - (53 + e)) with 0 by lia.
  replace (e - e) with 0 by lia.
  change (Z.min (fexp prec emax 0) 0) with (-53).
  change (0 - -53) with 53.
  rewrite Z.shiftl_mul_pow2 by lia.
  destruct (Z.div_eucl (Zpos m * 2 ^ 53) (Zpos m)) as [q r] eqn:E.
  assert (q = 2 ^ 53) as ->.
  { transitivity (Zpos m * 2 ^ 53 / Zpos m); [unfold Z.div; rewrite E; reflexivity|].
    rewrite Z.mul_comm. apply Z.div_mul. lia. }
  assert (r = 0) as ->.
  { transitivity ((Zpos m * 2 ^ 53) mod Zpos m); [unfold Z.modulo; rewrite E; reflexivity|].
    rewrite Z.mul_comm. apply Z.mod_mul. lia. }
  assert (new_location (Zpos m) 0 = loc_Exact) as ->.
  { unfold new_location, new_location_even, new_location_odd.
    destruct (Z.even (Zpos m)); reflexivity. }
  vm_compute. reflexivity.
Qed.

Lemma float_of_nat_div_self n :
  (0 < n)%nat -> Z.of_nat n < 2 ^ 63 ->
  (float_of_nat n / float_of_nat n)%float = 1%float.
Proof.
  intros Hn Hlt. apply Prim2SF_inj. rewrite FloatAxioms.div_spec.
  destruct (Prim2SF_float_of_nat n Hn Hlt) as (m & e & -> & Hm & _).
  apply SF64div_self. exact Hm.
Qed.

Lemma count_matches_refl s : count_matches s s = String.length s.
Proof.
  induction s as [|a s IH]; [reflexivity|]. simpl.
  rewrite Ascii.eqb_refl, IH. reflexivity.
Qed.

Lemma str_prefix_all s : str_prefix (String.length s) s = s.
Proof.
  unfold str_prefix. induction s as [|a s IH]; [reflexivity|]. simpl.
  rewrite IH. reflexivity.
Qed.

Lemma similarity_self s :
  s <> "" -> Z.of_nat (String.length s) < 2 ^ 63 -> similarity s s = Ok 1%float.
Proof.
  intros Hs Hlt. unfold similarity, py_truediv.
  rewrite Nat.min_id, str_prefix_all, count_matches_refl.
  assert (0 < String.length s)%nat as Hpos by (destruct s; simpl; [congruence|lia]).
  rewrite bool_decide_eq_false_2 by lia.
  rewrite (float_of_nat_div_self _ Hpos Hlt). reflexivity.
Qed.

Lemma slice2_id {A} n (m : matrix A) : has_shape n n m -> slice2 n m = m.
Proof.
  intros [Hlen Hrows]. unfold slice2.
  rewrite take_ge by lia.
  induction m as [|row m IH]; [reflexivity|].
  apply Forall_cons in Hrows as [Hrow Hrows]. simpl.
  rewrite take_ge by lia. f_equal. destruct m; [reflexivity|].
  clear IH Hlen. induction (l :: m) as [|r rs IH]; [reflexivity|].
  apply Forall_cons in Hrows as [Hr Hrs]. simpl. rewrite take_ge by lia.
  f_equal. exact (IH Hrs).
Qed.

Lemma mat_div_one_binary m : binary_map m -> mat_div m 1 = m.
Proof.
  unfold mat_div, binary_map. induction 1 as [|row rows Hrow _ IH]; [reflexivity|].
  simpl. f_equal; [|exact IH].
  induction Hrow as [|x xs Hx _ IHx]; [reflexivity|].
  simpl. f_equal; [|exact IHx].
  destruct Hx as [-> | ->]; vm_compute; reflexivity.
Qed.

(** X21. A query that is itself the only sequence of the database gets
    its own contact map back: the similarity of a non-empty sequence with
    itself is exactly 1.0, so it passes every threshold below 1.0 (the
    default 0.3 among them), and the mean of the single selected map, a
    square 0.0/1.0 array of side [len(sequence)], is that map. *)
Theorem find_similar_structures_self sequence cmap threshold :
  sequence <> "" ->
  Z.of_nat (String.length sequence) < 2 ^ 63 ->
  has_shape (String.length sequence) (String.length sequence) cmap ->
  binary_map cmap ->
  (threshold <? 1)%float = true ->
  similarity sequence sequence = Ok 1%float /\
  find_similar_structures sequence [sequence] [cmap] threshold = Ok cmap.
Proof.
  intros Hs Hlt Hshape Hbin Hthr.
  pose proof (similarity_self sequence Hs Hlt) as Hsim.
  split; [exact Hsim|].
  unfold find_similar_structures. simpl. rewrite Hsim. simpl. rewrite Hthr.
  rewrite (slice2_id _ _ Hshape). simpl.
  rewrite (mat_div_one_binary _ Hbin). simpl.
  destruct Hshape as [Hlen _].
  rewrite bool_decide_eq_false_2 by (intros H; apply H; exact Hlen).
  reflexivity.
Qed.

Lemma find_similar_structures_self_witness :
  "GAX" <> "" /\
  Z.of_nat (String.length "GAX") < 2 ^ 63 /\
  has_shape 3 3 example_contact_map /\
  binary_map example_contact_map /\
  (default_threshold <? 1)%float = true /\
  similarity "GAX" "GAX" = Ok 1%float /\
  find_similar_structures "GAX" ["GAX"] [example_contact_map] default_threshold
    = Ok example_contact_map.
Proof.
  assert (has_shape 3 3 example_contact_map) as Hshape
    by (split; [reflexivity|repeat constructor]).
  assert (binary_map example_contact_map) as Hbin
    by (repeat constructor; (left; reflexivity) || (right; reflexivity)).
  split; [discriminate|]. split; [reflexivity|]. split; [exact Hshape|].
  split; [exact Hbin|]. split; [reflexivity|].
  exact (find_similar_structures_self "GAX" example_contact_map default_threshold
           ltac:(discriminate) eq_refl Hshape Hbin eq_refl).
Defined.


(** * ContactPredictionModel.forward: batches, range and rejected inputs *)

Section ForwardFacts.
Variable F : Type.
Variable fzero : F.
Variables fadd fmul : F -> F -> F.
Variables relu sigmoid : F -> F.

Local Open Scope nat_scope.

(** The three stages of [forward] on an embedding of known shape. *)
Lemma forward_stages D w1 b1 w2 b2 embedding B L :
  0 < L -> 0 < D ->
  tensor3_shape B L D embedding ->
  let self := ContactPredictionModel_init F D w1 b1 w2 b2 in
  exists x1 x2 out,
    conv2d F fzero fadd fmul (conv1 F self) (permute_0312 F fzero (2 * D) (pairwise_emb_of F embedding))
      = Ok x1 /\
    conv2d F fzero fadd fmul (conv2 F self) (map4 F relu x1) = Ok x2 /\
    squeeze1 F (map4 F sigmoid x2) = Ok out /\
    forward F fzero fadd fmul relu sigmoid self embedding = Ok out /\
    tensor3_shape B L L out.
Proof.
  intros HL HD Hemb self.
  destruct (pairwise_emb_of_shape F embedding B L D Hemb) as [HPB HPall].
  pose proof (permute_0312_shape F fzero (2 * D) B L _ HPB HPall) as Hx0.
  destruct (conv2d_shape F fzero fadd fmul (conv1 F self) B L L _ eq_refl eq_refl
              ltac:(simpl; lia) HL HL
              ltac:(simpl; replace (D * 2) with (2 * D) by lia; exact Hx0))
    as (x1 & Hx1 & Hs1).
  destruct (conv2d_shape F fzero fadd fmul (conv2 F self) B L L _ eq_refl eq_refl
              ltac:(simpl; lia) HL HL (map4_shape F relu _ _ _ _ _ Hs1))
    as (x2 & Hx2 & Hs2).
  destruct (squeeze1_shape F B L L _ (map4_shape F sigmoid _ _ _ _ _ Hs2))
    as (out & Hout & Hso).
  exists x1, x2, out.
  split; [exact Hx1|]. split; [exact Hx2|]. split; [exact Hout|]. split; [|exact Hso].
  unfold forward.
  destruct (size3 F embedding) as [[B' L'] D'] eqn:Hsize.
  destruct embedding as [|m0 rest].
  - revert Hx1 Hx2 Hout. unfold pairwise_emb_of. simpl.
    intros Hx1 Hx2 Hout. inversion Hx1; subst x1.
    simpl in Hx2. inversion Hx2; subst x2.
    simpl in Hout. inversion Hout; subst out. reflexivity.
  - assert (D' = D) as ->.
    { unfold size3 in Hsize. inversion Hsize; subst.
      destruct Hemb as [_ Hall]. apply Forall_cons in Hall as [[H0 Hrows] _].
      destruct m0 as [|row m0']; [simpl in H0; lia|].
      apply Forall_cons in Hrows as [Hrow _]. exact Hrow. }
    subst self. cbv zeta.
    change (mbind ?f ?r) with (result_bind _ _ f r).
    rewrite Hx1. cbn [result_bind]. rewrite Hx2. cbn [result_bind]. exact Hout.
Qed.

(** *** Every stage works on the batch elements one by one *)

Lemma pairwise_emb_of_cons L D m rest :
  has_shape L D m -> Forall (has_shape L D) rest ->
  pairwise_emb_of F (m :: rest) = pairwise_emb_of F [m] ++ pairwise_emb_of F rest.
Proof.
  intros [Hm _] Hrest. unfold pairwise_emb_of, size3.
  destruct rest as [|m' rest']; [reflexivity|].
  apply Forall_cons in Hrest as [[Hm' _] _].
  rewrite Hm, Hm'. reflexivity.
Qed.

Lemma conv2d_app conv xs xs' ys ys' :
  conv2d F fzero fadd fmul conv xs = Ok ys -> conv2d F fzero fadd fmul conv xs' = Ok ys' ->
  conv2d F fzero fadd fmul conv (xs ++ xs') = Ok (ys ++ ys').
Proof.
  revert ys. induction xs as [|x xs IH]; intros ys Hxs Hxs'.
  - inversion Hxs; subst. exact Hxs'.
  - simpl in *. destruct (conv2d_image F fzero fadd fmul conv x) as [y|e]; [|discriminate].
    simpl in *. destruct (conv2d F fzero fadd fmul conv xs) as [ys0|e]; [|discriminate].
    simpl in Hxs. inversion Hxs; subst. rewrite (IH ys0 eq_refl Hxs'). reflexivity.
Qed.

Lemma squeeze1_app t t' out out' :
  squeeze1 F t = Ok out -> squeeze1 F t' = Ok out' ->
  squeeze1 F (t ++ t') = Ok (out ++ out').
Proof.
  revert out. induction t as [|x t IH]; intros out Ht Ht'.
  - inversion Ht; subst. exact Ht'.
  - simpl in *. destruct x as [|ch [|ch' x']]; try discriminate.
    destruct (squeeze1 F t) as [out0|e]; [|discriminate].
    simpl in Ht. inversion Ht; subst. rewrite (IH out0 eq_refl Ht'). reflexivity.
Qed.

Lemma forward_cons D w1 b1 w2 b2 m rest L :
  0 < L -> 0 < D ->
  has_shape L D m -> Forall (has_shape L D) rest ->
  let self := ContactPredictionModel_init F D w1 b1 w2 b2 in
  exists o out,
    forward F fzero fadd fmul relu sigmoid self [m] = Ok [o] /\
    forward F fzero fadd fmul relu sigmoid self rest = Ok out /\
    forward F fzero fadd fmul relu sigmoid self (m :: rest) = Ok (o :: out).
Proof.
  intros HL HD Hm Hrest self.
  assert (tensor3_shape 1 L D [m]) as H1 by (split; [reflexivity|constructor; [exact Hm|constructor]]).
  assert (tensor3_shape (length rest) L D rest) as H2 by (split; [reflexivity|exact Hrest]).
  assert (tensor3_shape (S (length rest)) L D (m :: rest)) as H12
    by (split; [reflexivity|constructor; assumption]).
  destruct (forward_stages D w1 b1 w2 b2 [m] 1 L HL HD H1)
    as (x1 & x2 & o1 & Ha1 & Ha2 & Ha3 & Hfa & [Hlen1 _]).
  destruct (forward_stages D w1 b1 w2 b2 rest _ L HL HD H2)
    as (y1 & y2 & out & Hb1 & Hb2 & Hb3 & Hfb & _).
  destruct (forward_stages D w1 b1 w2 b2 (m :: rest) _ L HL HD H12)
    as (z1 & z2 & o12 & Hc1 & Hc2 & Hc3 & Hfc & _).
  fold self in Ha1, Ha2, Hfa, Hb1, Hb2, Hfb, Hc1, Hc2, Hfc.
  rewrite (pairwise_emb_of_cons L D m rest Hm Hrest) in Hc1.
  unfold permute_0312 in Hc1 at 1. rewrite fmap_app in Hc1.
  fold (permute_0312 F fzero (2 * D) (pairwise_emb_of F [m])) in Hc1.
  fold (permute_0312 F fzero (2 * D) (pairwise_emb_of F rest)) in Hc1.
  rewrite (conv2d_app _ _ _ _ _ Ha1 Hb1) in Hc1. inversion Hc1; subst z1.
  unfold map4 in Hc2 at 1. rewrite fmap_app in Hc2.
  fold (map4 F relu x1) in Hc2. fold (map4 F relu y1) in Hc2.
  rewrite (conv2d_app _ _ _ _ _ Ha2 Hb2) in Hc2. inversion Hc2; subst z2.
  unfold map4 in Hc3 at 1. rewrite fmap_app in Hc3.
  fold (map4 F sigmoid x2) in Hc3. fold (map4 F sigmoid y2) in Hc3.
  rewrite (squeeze1_app _ _ _ _ Ha3 Hb3) in Hc3. inversion Hc3; subst o12.
  destruct o1 as [|o [|o' o1']]; simpl in Hlen1; try lia.
  exists o, out. split; [exact Hfa|]. split; [exact Hfb|]. exact Hfc.
Qed.

(** X18. The prediction for an element of a batch is the prediction the
    model makes for that element alone: for an embedding of shape
    (batch, L, D), [forward] returns one map per batch element, and the
    map at position [b] equals the single map returned for the batch of
    one element [embedding[b]]. *)
Theorem forward_batch_elementwise D w1 b1 w2 b2 embedding B L :
  0 < L -> 0 < D ->
  tensor3_shape B L D embedding ->
  let self := ContactPredictionModel_init F D w1 b1 w2 b2 in
  exists out,
    forward F fzero fadd fmul relu sigmoid self embedding = Ok out /\
    length out = B /\
    forall b m, embedding !! b = Some m ->
      exists o, forward F fzero fadd fmul relu sigmoid self [m] = Ok [o] /\ out !! b = Some o.
Proof.
  intros HL HD [HB Hall] self. subst B.
  induction embedding as [|m rest IH].
  - exists []. split; [reflexivity|]. split; [reflexivity|].
    intros b m Hb. inversion Hb.
  - apply Forall_cons in Hall as [Hm Hrest].
    destruct (forward_cons D w1 b1 w2 b2 m rest L HL HD Hm Hrest)
      as (o & out & H1 & H2 & H12).
    destruct (IH Hrest) as (out' & Hout' & Hlen & Helem).
    fold self in H1, H2, H12. rewrite H2 in Hout'. inversion Hout'; subst out'.
    exists (o :: out). split; [exact H12|]. split; [simpl; lia|].
    intros [|b] m' Hb.
    + inversion Hb; subst. exists o. split; [exact H1|reflexivity].
    + exact (Helem b m' Hb).
Qed.

(** *** The range of the output *)



(** *** An embedding of another width *)

(** X20. An embedding whose rows have a width other than the
    [embedding_dim] the model was built for is rejected by the first
    layer: [forward] raises [RuntimeError] for every non-empty batch of
    such embeddings (embeddings of another ESM2 checkpoint, say). *)
Theorem forward_rejects_other_width D D' w1 b1 w2 b2 embedding B L :
  0 < B -> 0 < L -> D' <> D ->
  tensor3_shape B L D' embedding ->
  forward F fzero fadd fmul relu sigmoid (ContactPredictionModel_init F D w1 b1 w2 b2) embedding
    = Raise (RuntimeError "input has the wrong number of channels").
Proof.
  intros HB HL Hne [Hlen Hall].
  destruct embedding as [|m rest]; [simpl in Hlen; lia|].
  apply Forall_cons in Hall as [[Hm Hrows] _].
  destruct m as [|row m']; [simpl in Hm; lia|].
  apply Forall_cons in Hrows as [Hrow _].
  unfold forward, size3. rewrite Hrow.
  unfold pairwise_emb_of, size3, cat_last, emb_i_of, emb_j_of, permute_0312.
  simpl conv1. cbn [fmap list_fmap zip_with conv2d].
  unfold conv2d_image at 1. cbn [in_channels].
  rewrite length_fmap, length_seq.
  rewrite bool_decide_eq_false_2 by lia. reflexivity.
Qed.
End ForwardFacts.

Lemma forward_batch_elementwise_witness :
  let self := ContactPredictionModel_init Z 1 [] [] [] [] in
  (0 < 2)%nat /\ (0 < 1)%nat /\
  tensor3_shape 2 2 1 example_batch /\
  exists out,
    forward Z 0 Z.add Z.mul (Z.max 0) Z.succ self example_batch = Ok out /\
    length out = 2%nat /\
    forall b m, example_batch !! b = Some m ->
      exists o, forward Z 0 Z.add Z.mul (Z.max 0) Z.succ self [m] = Ok [o] /\
                out !! b = Some o.
Proof.
  intros self.
  assert (tensor3_shape 2 2 1 example_batch) as Hshape.
  { split; [reflexivity|]. repeat constructor. }
  split; [lia|]. split; [lia|]. split; [exact Hshape|].
  exact (forward_batch_elementwise Z 0 Z.add Z.mul (Z.max 0) Z.succ 1 [] [] [] []
           example_batch 2 2 ltac:(lia) ltac:(lia) Hshape).
Defined.


Lemma forward_rejects_other_width_witness :
  (0 < 1)%nat /\ (0 < 2)%nat /\ 1%nat <> 2%nat /\
  tensor3_shape 1 2 1 example_embedding /\
  forward Z 0 Z.add Z.mul (Z.max 0) Z.succ
    (ContactPredictionModel_init Z 2 [] [] [] []) example_embedding
    = Raise (RuntimeError "input has the wrong number of channels").
Proof.
  assert (tensor3_shape 1 2 1 example_embedding) as Hshape.
  { split; [reflexivity|]. repeat constructor. }
  split; [lia|]. split; [lia|]. split; [lia|]. split; [exact Hshape|].
  exact (forward_rejects_other_width Z 0 Z.add Z.mul (Z.max 0) Z.succ 2 1 [] [] [] []
           example_embedding 1 2 ltac:(lia) ltac:(lia) ltac:(lia) Hshape).
Defined.
